(** * Moderation console: decision pipeline, policy registry and ledgers

    A shallow embedding of the core of the backend:

    - [app/models/*.py]            the enumerations and records;
    - [app/core/storage.py]        [InMemoryStore] and [AppendOnlyStore];
    - [app/moderation/*.py]        classifier, scorer, decider, executor and
                                   the four pipeline nodes;
    - [app/api/routes/*.py]        policy update and toggle, decision review
                                   and overturn, the list and export queries,
                                   the lookups by id and the statistics of
                                   the ledger.

    Modelling conventions.

    - Python objects that are reached through a store live in a heap (a list,
      a reference is an index); a store's dict maps keys to references, in
      insertion order.  An attribute assignment [obj.f = v] is a heap write,
      [store.set(k, obj)] a dict write: the two are kept apart because the
      handlers mutate the object they got from [store.get] before (or
      without) calling [store.set].
    - A float is a rational ([Q]); only comparisons are used by the code.
    - A stored timestamp is a point on the clock, without a time zone; a
      time that comes with a request may have one, and comparing the two
      raises.
    - The values drawn by the pydantic default factories ([uuid4],
      [datetime.utcnow]) are inputs of the operations (a [Stamp]).
    - One handler runs at a time: the interleaving of coroutines is not
      modelled.  The websocket broadcast touches no store and is left out.
    - External calls (classifier, scoring chain) and registry scans are
      recorded in a trace, so that "no call is made" can be stated. *)

From Stdlib Require Import ZArith QArith Lia.
From stdpp Require Import base option list strings.

Local Open Scope string_scope.
Local Open Scope list_scope.

(** ** Enumerations ([str, Enum] classes) *)

(** [app.models.moderation.PolicyCategory] *)
Module PolicyCategory.
Inductive t := HARASSMENT | HATE_SPEECH | SPAM | VIOLENCE | ADULT_CONTENT | NONE.

Definition value (c : t) : string :=
  match c with
  | HARASSMENT => "harassment"
  | HATE_SPEECH => "hate_speech"
  | SPAM => "spam"
  | VIOLENCE => "violence"
  | ADULT_CONTENT => "adult_content"
  | NONE => "none"
  end.

Definition eqb (a b : t) : bool :=
  match a, b with
  | HARASSMENT, HARASSMENT | HATE_SPEECH, HATE_SPEECH | SPAM, SPAM
  | VIOLENCE, VIOLENCE | ADULT_CONTENT, ADULT_CONTENT | NONE, NONE => true
  | _, _ => false
  end.
End PolicyCategory.

(** [app.models.policy.PolicyCategory]: the registry's own enumeration, which
    has no [NONE] member. *)
Module PolicyModelCategory.
Inductive t := HARASSMENT | HATE_SPEECH | SPAM | VIOLENCE | ADULT_CONTENT.

Definition value (c : t) : string :=
  match c with
  | HARASSMENT => "harassment"
  | HATE_SPEECH => "hate_speech"
  | SPAM => "spam"
  | VIOLENCE => "violence"
  | ADULT_CONTENT => "adult_content"
  end.
End PolicyModelCategory.

Module ModerationAction.
Inductive t := NONE | WARN | MUTE | FLAG_FOR_REVIEW.

Definition value (a : t) : string :=
  match a with
  | NONE => "none"
  | WARN => "warn"
  | MUTE => "mute"
  | FLAG_FOR_REVIEW => "flag_for_review"
  end.

Definition eqb (a b : t) : bool :=
  match a, b with
  | NONE, NONE | WARN, WARN | MUTE, MUTE | FLAG_FOR_REVIEW, FLAG_FOR_REVIEW => true
  | _, _ => false
  end.
End ModerationAction.

Module ModerationStatus.
Inductive t := PENDING | EXECUTED | REVIEWED | OVERTURNED.

Definition value (s : t) : string :=
  match s with
  | PENDING => "pending"
  | EXECUTED => "executed"
  | REVIEWED => "reviewed"
  | OVERTURNED => "overturned"
  end.

Definition eqb (a b : t) : bool :=
  match a, b with
  | PENDING, PENDING | EXECUTED, EXECUTED | REVIEWED, REVIEWED
  | OVERTURNED, OVERTURNED => true
  | _, _ => false
  end.
End ModerationStatus.

Module ContentType.
Inductive t := TEXT | AUDIO_TRANSCRIPT | VIDEO_FRAME.

Definition value (c : t) : string :=
  match c with
  | TEXT => "text"
  | AUDIO_TRANSCRIPT => "audio_transcript"
  | VIDEO_FRAME => "video_frame"
  end.
End ContentType.

Module AuditActionType.
Inductive t :=
| DECISION_CREATED | ACTION_EXECUTED | POLICY_UPDATED | DECISION_REVIEWED
| DECISION_OVERTURNED | PARTICIPANT_WARNED | PARTICIPANT_MUTED | CONTENT_FLAGGED.

Definition value (a : t) : string :=
  match a with
  | DECISION_CREATED => "decision_created"
  | ACTION_EXECUTED => "action_executed"
  | POLICY_UPDATED => "policy_updated"
  | DECISION_REVIEWED => "decision_reviewed"
  | DECISION_OVERTURNED => "decision_overturned"
  | PARTICIPANT_WARNED => "participant_warned"
  | PARTICIPANT_MUTED => "participant_muted"
  | CONTENT_FLAGGED => "content_flagged"
  end.

Definition eqb (a b : t) : bool :=
  match a, b with
  | DECISION_CREATED, DECISION_CREATED | ACTION_EXECUTED, ACTION_EXECUTED
  | POLICY_UPDATED, POLICY_UPDATED | DECISION_REVIEWED, DECISION_REVIEWED
  | DECISION_OVERTURNED, DECISION_OVERTURNED
  | PARTICIPANT_WARNED, PARTICIPANT_WARNED
  | PARTICIPANT_MUTED, PARTICIPANT_MUTED | CONTENT_FLAGGED, CONTENT_FLAGGED => true
  | _, _ => false
  end.
End AuditActionType.

Module AuditActor.
Inductive t := SYSTEM | AI | ADMIN.

Definition value (a : t) : string :=
  match a with SYSTEM => "system" | AI => "ai" | ADMIN => "admin" end.

Definition eqb (a b : t) : bool :=
  match a, b with
  | SYSTEM, SYSTEM | AI, AI | ADMIN, ADMIN => true
  | _, _ => false
  end.
End AuditActor.

(** ** Python values *)

(** [datetime]: a point on the clock.  The timestamps the models draw come
    from [datetime.utcnow()] and carry no time zone. *)
Definition datetime := nat.

(** A [datetime] that a request carries as a query parameter: without a time
    zone, or with the offset of its time zone from UTC (in minutes), as
    parsed from a text that ends in [Z] or in an offset. *)
Inductive QueryTime :=
| Naive (t : datetime)
| Aware (t : datetime) (utcoffset : Z).

(** JSON-shaped values: what [model_dump(mode="json")] returns and what the
    [metadata] dicts hold.  A dict is a list of items in insertion order.
    [JTime t] stands for the ISO-8601 text of [t]. *)
#[warnings="-register-all"]
Inductive json :=
| JNull
| JBool (b : bool)
| JNum (q : Q)
| JStr (s : string)
| JTime (t : datetime)
| JObj (items : list (string * json)).

Definition json_opt_str (o : option string) : json :=
  match o with Some s => JStr s | None => JNull end.

Definition json_opt (o : option json) : json :=
  match o with Some j => j | None => JNull end.

(** Truth value of a [str]: the empty string is falsy. *)
Definition truthy_str (s : string) : bool := negb (String.eqb s "").

(** Truth value of a [str | None] argument: [None] and the empty string are
    both falsy. *)
Definition truthy_opt_str (o : option string) : bool :=
  match o with Some s => truthy_str s | None => false end.

(** [xs[start:stop]] for integers of either sign. *)
Definition slice_bound (len i : Z) : Z :=
  if (i <? 0)%Z then Z.max 0 (i + len) else Z.min i len.

Definition py_slice {A} (xs : list A) (start stop : Z) : list A :=
  let len := Z.of_nat (length xs) in
  let a := slice_bound len start in
  let b := slice_bound len stop in
  take (Z.to_nat (b - a)) (drop (Z.to_nat a) xs).

(** [xs.sort(key=key, reverse=True)]: stable, largest key first; items with
    equal keys keep their order. *)
Fixpoint insert_desc {A} (key : A -> nat) (x : A) (xs : list A) : list A :=
  match xs with
  | [] => [x]
  | y :: ys => if (key x <? key y)%nat then y :: insert_desc key x ys else x :: y :: ys
  end.

Fixpoint sort_desc {A} (key : A -> nat) (xs : list A) : list A :=
  match xs with
  | [] => []
  | x :: xs' => insert_desc key x (sort_desc key xs')
  end.

(** Comparison of floats. *)
Definition float := Q.
Definition fle (a b : float) : bool := Qle_bool a b.
Definition fge (a b : float) : bool := Qle_bool b a.

(** ** Records ([pydantic.BaseModel] classes) *)

(** What the default factories of a model draw when an instance is built:
    twelve hex digits of a [uuid4] and the clock. *)
Record Stamp := { hex12 : string; utcnow : datetime }.

Module Policy.
Record t := mk {
  policy_id : string;
  name : string;
  category : PolicyModelCategory.t;
  description : string;
  warn_threshold : float;
  mute_threshold : float;
  flag_threshold : float;
  enabled : bool;
  created_at : datetime;
  updated_at : datetime;
}.

Definition set_name (v : string) (p : t) : t :=
  mk (policy_id p) v (category p) (description p) (warn_threshold p)
     (mute_threshold p) (flag_threshold p) (enabled p) (created_at p) (updated_at p).
Definition set_description (v : string) (p : t) : t :=
  mk (policy_id p) (name p) (category p) v (warn_threshold p)
     (mute_threshold p) (flag_threshold p) (enabled p) (created_at p) (updated_at p).
Definition set_warn_threshold (v : float) (p : t) : t :=
  mk (policy_id p) (name p) (category p) (description p) v
     (mute_threshold p) (flag_threshold p) (enabled p) (created_at p) (updated_at p).
Definition set_mute_threshold (v : float) (p : t) : t :=
  mk (policy_id p) (name p) (category p) (description p) (warn_threshold p)
     v (flag_threshold p) (enabled p) (created_at p) (updated_at p).
Definition set_flag_threshold (v : float) (p : t) : t :=
  mk (policy_id p) (name p) (category p) (description p) (warn_threshold p)
     (mute_threshold p) v (enabled p) (created_at p) (updated_at p).
Definition set_enabled (v : bool) (p : t) : t :=
  mk (policy_id p) (name p) (category p) (description p) (warn_threshold p)
     (mute_threshold p) (flag_threshold p) v (created_at p) (updated_at p).
Definition set_updated_at (v : datetime) (p : t) : t :=
  mk (policy_id p) (name p) (category p) (description p) (warn_threshold p)
     (mute_threshold p) (flag_threshold p) (enabled p) (created_at p) v.
End Policy.

Module PolicyUpdate.
Record t := mk {
  name : option string;
  description : option string;
  warn_threshold : option float;
  mute_threshold : option float;
  flag_threshold : option float;
  enabled : option bool;
}.

(** [Field(default=None, ge=0.0, le=1.0)] *)
Definition in_unit (o : option float) : bool :=
  match o with Some q => fle 0%Q q && fle q 1%Q | None => true end.

Definition validate (u : t) : bool :=
  in_unit (warn_threshold u) && in_unit (mute_threshold u) && in_unit (flag_threshold u).
End PolicyUpdate.

Module ModerationInput.
Record t := mk {
  room_id : string;
  participant_id : string;
  participant_identity : string;
  content : string;
  content_type : ContentType.t;
  metadata : option json;
}.

Definition model_dump (i : t) : json :=
  JObj [ ("room_id", JStr (room_id i));
         ("participant_id", JStr (participant_id i));
         ("participant_identity", JStr (participant_identity i));
         ("content", JStr (content i));
         ("content_type", JStr (ContentType.value (content_type i)));
         ("metadata", json_opt (metadata i)) ].
End ModerationInput.

Module ModerationDecision.
Record t := mk {
  decision_id : string;
  room_id : string;
  participant_id : string;
  participant_identity : string;
  content : string;
  content_type : ContentType.t;
  classification : PolicyCategory.t;
  confidence_score : float;
  action : ModerationAction.t;
  status : ModerationStatus.t;
  policy_id : option string;
  timestamp : datetime;
  reasoning : option string;
  metadata : option json;
}.

Definition set_status (v : ModerationStatus.t) (d : t) : t :=
  mk (decision_id d) (room_id d) (participant_id d) (participant_identity d)
     (content d) (content_type d) (classification d) (confidence_score d)
     (action d) v (policy_id d) (timestamp d) (reasoning d) (metadata d).

Definition model_dump (d : t) : json :=
  JObj [ ("decision_id", JStr (decision_id d));
         ("room_id", JStr (room_id d));
         ("participant_id", JStr (participant_id d));
         ("participant_identity", JStr (participant_identity d));
         ("content", JStr (content d));
         ("content_type", JStr (ContentType.value (content_type d)));
         ("classification", JStr (PolicyCategory.value (classification d)));
         ("confidence_score", JNum (confidence_score d));
         ("action", JStr (ModerationAction.value (action d)));
         ("status", JStr (ModerationStatus.value (status d)));
         ("policy_id", json_opt_str (policy_id d));
         ("timestamp", JTime (timestamp d));
         ("reasoning", json_opt_str (reasoning d));
         ("metadata", json_opt (metadata d)) ].
End ModerationDecision.

Module AuditLogEntry.
Record t := mk {
  audit_id : string;
  decision_id : option string;
  action_type : AuditActionType.t;
  actor : AuditActor.t;
  reason : string;
  timestamp : datetime;
  metadata : option json;
}.

(** [AuditLogEntry(decision_id=.., action_type=.., actor=.., reason=..,
    metadata=..)]: [audit_id] and [timestamp] come from the factories. *)
Definition new (st : Stamp) (decision_id : option string)
    (action_type : AuditActionType.t) (actor : AuditActor.t) (reason : string)
    (metadata : option json) : t :=
  mk ("audit-" +:+ hex12 st) decision_id action_type actor reason (utcnow st) metadata.
End AuditLogEntry.

(** ** Exceptions, the world and the handler monad *)

(** [HTTPException] with its status and detail; pydantic's
    [ValidationError], of which only the field that failed is kept; any
    other exception, with its message. *)
Inductive Exc :=
| HTTPException (status_code : nat) (detail : string)
| ValidationError (detail : string)
| Exception (msg : string).

(** [str(e)].  The text pydantic renders for a [ValidationError] is not
    modelled: the name of the field stands for it. *)
Definition str_exc (e : Exc) : string :=
  match e with
  | HTTPException _ detail => detail
  | ValidationError detail => detail
  | Exception msg => msg
  end.

Inductive Result (A : Type) :=
| Return (a : A)
| Raise (e : Exc).
Arguments Return {A} a.
Arguments Raise {A} e.

(** What leaves the process or scans the registry. *)
Inductive Event :=
| ClassifierCall (content : string)
| ScoringChainCall (content category reasoning : string)
| PoliciesGetAll.

(** A reference to an object of a heap. *)
Definition ref := nat.

(** The module-level stores of [app.core.storage], with the objects they
    refer to.  Audit entries are never written after their construction and
    are kept by value. *)
Record World := mkWorld {
  policy_objs : list Policy.t;
  policies_store : list (string * ref);
  decision_objs : list ModerationDecision.t;
  decisions_store : list (string * ref);
  audit_store : list AuditLogEntry.t;
  trace : list Event;
}.

Definition empty_world : World := mkWorld [] [] [] [] [] [].

Definition with_policy_objs (v : list Policy.t) (w : World) : World :=
  mkWorld v (policies_store w) (decision_objs w) (decisions_store w) (audit_store w) (trace w).
Definition with_policies_store (v : list (string * ref)) (w : World) : World :=
  mkWorld (policy_objs w) v (decision_objs w) (decisions_store w) (audit_store w) (trace w).
Definition with_decision_objs (v : list ModerationDecision.t) (w : World) : World :=
  mkWorld (policy_objs w) (policies_store w) v (decisions_store w) (audit_store w) (trace w).
Definition with_decisions_store (v : list (string * ref)) (w : World) : World :=
  mkWorld (policy_objs w) (policies_store w) (decision_objs w) v (audit_store w) (trace w).
Definition with_audit_store (v : list AuditLogEntry.t) (w : World) : World :=
  mkWorld (policy_objs w) (policies_store w) (decision_objs w) (decisions_store w) v (trace w).
Definition with_trace (v : list Event) (w : World) : World :=
  mkWorld (policy_objs w) (policies_store w) (decision_objs w) (decisions_store w) (audit_store w) v.

(** A coroutine of the application: it reads and writes the world and either
    returns or raises; what it wrote before raising stays written. *)
Definition M (A : Type) : Type := World -> Result A * World.

Definition ret {A} (a : A) : M A := fun w => (Return a, w).
Definition raise {A} (e : Exc) : M A := fun w => (Raise e, w).
Definition bind {A B} (c : M A) (k : A -> M B) : M B :=
  fun w => match c w with
           | (Return a, w') => k a w'
           | (Raise e, w') => (Raise e, w')
           end.

(** [try: c except Exception as e: handler(e)] *)
Definition try_except {A} (c : M A) (handler : Exc -> M A) : M A :=
  fun w => match c w with
           | (Return a, w') => (Return a, w')
           | (Raise e, w') => handler e w'
           end.

Notation "x <- c1 ;; c2" := (bind c1 (fun x => c2))
  (at level 100, c1 at next level, right associativity).
Notation "c1 ;; c2" := (bind c1 (fun _ => c2))
  (at level 100, right associativity).

Definition emit (e : Event) : M unit :=
  fun w => (Return tt, with_trace (trace w ++ [e]) w).

(** ** [app/core/storage.py] *)

(** A Python dict with [str] keys: items in insertion order; assigning to a
    key that is present keeps its place. *)
Section Dict.
Context {T : Type}.

Fixpoint dict_get (key : string) (d : list (string * T)) : option T :=
  match d with
  | [] => None
  | (k, v) :: d' => if String.eqb k key then Some v else dict_get key d'
  end.

Fixpoint dict_set (key : string) (value : T) (d : list (string * T)) : list (string * T) :=
  match d with
  | [] => [(key, value)]
  | (k, v) :: d' =>
      if String.eqb k key then (key, value) :: d' else (k, v) :: dict_set key value d'
  end.

Definition dict_values (d : list (string * T)) : list T := d.*2.
End Dict.

(** [InMemoryStore.get], [.set] and [.get_all] on [policies_store]. *)
Definition policies_store_get (key : string) : M (option ref) :=
  fun w => (Return (dict_get key (policies_store w)), w).
Definition policies_store_set (key : string) (value : ref) : M unit :=
  fun w => (Return tt, with_policies_store (dict_set key value (policies_store w)) w).
Definition policies_store_get_all : M (list ref) :=
  emit PoliciesGetAll ;;
  fun w => (Return (dict_values (policies_store w)), w).

(** The same on [decisions_store]. *)
Definition decisions_store_get (key : string) : M (option ref) :=
  fun w => (Return (dict_get key (decisions_store w)), w).
Definition decisions_store_set (key : string) (value : ref) : M unit :=
  fun w => (Return tt, with_decisions_store (dict_set key value (decisions_store w)) w).

(** [AppendOnlyStore.append] on [audit_store]; the index is returned. *)
Definition audit_store_append (item : AuditLogEntry.t) : M nat :=
  fun w => (Return (length (audit_store w)), with_audit_store (audit_store w ++ [item]) w).

(** Attribute reads and writes.  A reference that names no object cannot be
    produced by the handlers; the model raises on one. *)
Definition dangling {A} : M A := raise (Exception "dangling reference").

Definition policy_obj (r : ref) : M Policy.t :=
  fun w => match policy_objs w !! r with
           | Some p => (Return p, w)
           | None => dangling w
           end.
Definition policy_setattr (r : ref) (f : Policy.t -> Policy.t) : M unit :=
  fun w => match policy_objs w !! r with
           | Some p => (Return tt, with_policy_objs (<[r := f p]> (policy_objs w)) w)
           | None => dangling w
           end.
Definition policy_new (p : Policy.t) : M ref :=
  fun w => (Return (length (policy_objs w)), with_policy_objs (policy_objs w ++ [p]) w).

Definition decision_obj (r : ref) : M ModerationDecision.t :=
  fun w => match decision_objs w !! r with
           | Some d => (Return d, w)
           | None => dangling w
           end.
Definition decision_setattr (r : ref) (f : ModerationDecision.t -> ModerationDecision.t) : M unit :=
  fun w => match decision_objs w !! r with
           | Some d => (Return tt, with_decision_objs (<[r := f d]> (decision_objs w)) w)
           | None => dangling w
           end.
Definition decision_new (d : ModerationDecision.t) : M ref :=
  fun w => (Return (length (decision_objs w)), with_decision_objs (decision_objs w ++ [d]) w).

(** The policy, resp. decision, a key of the store stands for. *)
Definition stored_policy (w : World) (key : string) : option Policy.t :=
  r ← dict_get key (policies_store w); policy_objs w !! r.
Definition stored_decision (w : World) (key : string) : option ModerationDecision.t :=
  r ← dict_get key (decisions_store w); decision_objs w !! r.

(** [initialize_default_policies] *)
Definition default_policies (now : datetime) : list Policy.t :=
  [ Policy.mk "policy-harassment" "Harassment" PolicyModelCategory.HARASSMENT
      "Content that harasses, intimidates, or bullies individuals"
      (5#10) (7#10) (85#100) true now now;
    Policy.mk "policy-hate-speech" "Hate Speech" PolicyModelCategory.HATE_SPEECH
      "Content that promotes hatred against protected groups"
      (4#10) (6#10) (75#100) true now now;
    Policy.mk "policy-spam" "Spam" PolicyModelCategory.SPAM
      "Repetitive, promotional, or unsolicited content"
      (6#10) (8#10) (9#10) true now now;
    Policy.mk "policy-violence" "Violence" PolicyModelCategory.VIOLENCE
      "Content that promotes or glorifies violence"
      (4#10) (6#10) (75#100) true now now;
    Policy.mk "policy-adult-content" "Adult Content" PolicyModelCategory.ADULT_CONTENT
      "Sexually explicit or mature content"
      (5#10) (7#10) (85#100) true now now ].

Fixpoint set_all_policies (ps : list Policy.t) : M unit :=
  match ps with
  | [] => ret tt
  | policy :: rest =>
      r <- policy_new policy ;;
      policies_store_set (Policy.policy_id policy) r ;;
      set_all_policies rest
  end.

Definition initialize_default_policies (now : datetime) : M unit :=
  set_all_policies (default_policies now).

(** ** External capabilities *)

(** The dict the scoring chain parses out of the model's answer: either key
    may be missing.  An answer [float()] cannot convert counts as a raise of
    the chain (both end in the same [except]). *)
Record ChainReply := { reply_confidence : option float; reply_factors : option string }.

(** What the core consumes and does not implement: the classifier object
    returned by [get_classifier()], the chain [prompt | llm | parser] of the
    scorer, and the rendering of a float by the format spec [.2f]. *)
Record Env := {
  classifier_classify : string -> Result (PolicyCategory.t * string);
  scoring_chain_ainvoke : string -> string -> string -> Result ChainReply;
  format_2f : float -> string;
}.

Definition call_classifier (env : Env) (content : string) : M (PolicyCategory.t * string) :=
  emit (ClassifierCall content) ;;
  fun w => (classifier_classify env content, w).

Definition call_scoring_chain (env : Env) (content category reasoning : string) : M ChainReply :=
  emit (ScoringChainCall content category reasoning) ;;
  fun w => (scoring_chain_ainvoke env content category reasoning, w).

(** ** [app/moderation/scorer.py] *)

Definition flt (a b : float) : bool := negb (Qle_bool b a).

(** [min(a, b)] and [max(a, b)] of Python: the first argument wins a tie. *)
Definition py_min (a b : float) : float := if flt b a then b else a.
Definition py_max (a b : float) : float := if flt a b then b else a.

(** [ConfidenceScorer.score] *)
Definition score (env : Env) (content : string) (category : PolicyCategory.t)
    (reasoning : string) : M (float * string) :=
  if PolicyCategory.eqb category PolicyCategory.NONE then
    ret (0%Q, "No violation detected")
  else
    try_except
      (result <- call_scoring_chain env content (PolicyCategory.value category) reasoning ;;
       let confidence := default 0%Q (reply_confidence result) in
       let factors := default "" (reply_factors result) in
       let confidence := py_max 0%Q (py_min 1%Q confidence) in
       ret (confidence, factors))
      (fun e => ret (0%Q, "Scoring error: " +:+ str_exc e)).

(** ** [app/moderation/decider.py] *)

(** The loop of [ActionDecider._get_policy_for_category] over the policies
    returned by [get_all]. *)
Fixpoint first_of_category (category : PolicyCategory.t) (policies : list ref)
    : M (option ref) :=
  match policies with
  | [] => ret None
  | policy :: rest =>
      p <- policy_obj policy ;;
      if String.eqb (PolicyModelCategory.value (Policy.category p))
                    (PolicyCategory.value category)
      then ret (Some policy)
      else first_of_category category rest
  end.

Definition _get_policy_for_category (category : PolicyCategory.t) : M (option ref) :=
  policies <- policies_store_get_all ;;
  first_of_category category policies.

(** [ActionDecider.decide] *)
Definition decide (category : PolicyCategory.t) (confidence : float)
    : M (ModerationAction.t * option string) :=
  if PolicyCategory.eqb category PolicyCategory.NONE then
    ret (ModerationAction.NONE, None)
  else
    found <- _get_policy_for_category category ;;
    match found with
    | None => ret (ModerationAction.NONE, None)
    | Some policy =>
        p <- policy_obj policy ;;
        if negb (Policy.enabled p) then ret (ModerationAction.NONE, None)
        else if fge confidence (Policy.flag_threshold p) then
          ret (ModerationAction.FLAG_FOR_REVIEW, Some (Policy.policy_id p))
        else if fge confidence (Policy.mute_threshold p) then
          ret (ModerationAction.MUTE, Some (Policy.policy_id p))
        else if fge confidence (Policy.warn_threshold p) then
          ret (ModerationAction.WARN, Some (Policy.policy_id p))
        else
          ret (ModerationAction.NONE, Some (Policy.policy_id p))
    end.

(** ** [app/moderation/actions.py] *)

(** [ModerationDecision(...)] as [execute] calls it: the only constraint that
    can fail on these arguments is [confidence_score: ge=0.0, le=1.0]. *)
Definition ModerationDecision_new (st : Stamp) (input_data : ModerationInput.t)
    (category : PolicyCategory.t) (confidence : float) (action : ModerationAction.t)
    (policy_id : option string) (reasoning : string) : M ModerationDecision.t :=
  if fle 0%Q confidence && fle confidence 1%Q then
    ret (ModerationDecision.mk
           ("dec-" +:+ hex12 st)
           (ModerationInput.room_id input_data)
           (ModerationInput.participant_id input_data)
           (ModerationInput.participant_identity input_data)
           (ModerationInput.content input_data)
           (ModerationInput.content_type input_data)
           category confidence action ModerationStatus.PENDING policy_id
           (utcnow st) (Some reasoning) (ModerationInput.metadata input_data))
  else raise (ValidationError "confidence_score").

(** [ActionExecutor._create_audit_entry] *)
Definition _create_audit_entry (st : Stamp) (decision_id : string)
    (action_type : AuditActionType.t) (reason : string) (metadata : option json)
    : M AuditLogEntry.t :=
  let entry := AuditLogEntry.new st (Some decision_id) action_type AuditActor.AI reason metadata in
  audit_store_append entry ;;
  ret entry.

Definition action_type_map (a : ModerationAction.t) : option AuditActionType.t :=
  match a with
  | ModerationAction.WARN => Some AuditActionType.PARTICIPANT_WARNED
  | ModerationAction.MUTE => Some AuditActionType.PARTICIPANT_MUTED
  | ModerationAction.FLAG_FOR_REVIEW => Some AuditActionType.CONTENT_FLAGGED
  | ModerationAction.NONE => None
  end.

(** [ActionExecutor._execute_action] *)
Definition _execute_action (st : Stamp) (decision : ref) : M unit :=
  d <- decision_obj decision ;;
  let audit_action_type :=
    default AuditActionType.ACTION_EXECUTED (action_type_map (ModerationDecision.action d)) in
  decision_setattr decision (ModerationDecision.set_status ModerationStatus.EXECUTED) ;;
  d <- decision_obj decision ;;
  decisions_store_set (ModerationDecision.decision_id d) decision ;;
  _create_audit_entry st (ModerationDecision.decision_id d) audit_action_type
    ("Action executed: " +:+ ModerationAction.value (ModerationDecision.action d)
       +:+ " on participant " +:+ ModerationDecision.participant_identity d)
    (Some (JObj [
       ("action", JStr (ModerationAction.value (ModerationDecision.action d)));
       ("participant_id", JStr (ModerationDecision.participant_id d));
       ("participant_identity", JStr (ModerationDecision.participant_identity d));
       ("room_id", JStr (ModerationDecision.room_id d));
       ("classification", JStr (PolicyCategory.value (ModerationDecision.classification d)));
       ("confidence", JNum (ModerationDecision.confidence_score d)) ])) ;;
  ret tt.

(** The draws of one call of [execute]: for the decision, for the
    [decision_created] entry and for the entry of [_execute_action]. *)
Record ExecuteStamps := { st_decision : Stamp; st_created : Stamp; st_executed : Stamp }.

(** [ActionExecutor.execute]; the decision object is returned. *)
Definition execute (env : Env) (sts : ExecuteStamps) (input_data : ModerationInput.t)
    (category : PolicyCategory.t) (confidence : float) (action : ModerationAction.t)
    (policy_id : option string) (reasoning : string) : M ref :=
  d0 <- ModerationDecision_new (st_decision sts) input_data category confidence action
          policy_id reasoning ;;
  decision <- decision_new d0 ;;
  d <- decision_obj decision ;;
  decisions_store_set (ModerationDecision.decision_id d) decision ;;
  _create_audit_entry (st_created sts) (ModerationDecision.decision_id d)
    AuditActionType.DECISION_CREATED
    ("Moderation decision created: " +:+ PolicyCategory.value category
       +:+ " with confidence " +:+ format_2f env confidence)
    (Some (JObj [ ("decision", ModerationDecision.model_dump d);
                  ("input", ModerationInput.model_dump input_data) ])) ;;
  (if negb (ModerationAction.eqb action ModerationAction.NONE)
   then _execute_action (st_executed sts) decision
   else ret tt) ;;
  ret decision.

(** ** [app/moderation/pipeline.py] *)

Module ModerationState.
Record t := mk {
  input : ModerationInput.t;
  category : option PolicyCategory.t;
  classification_reasoning : option string;
  confidence : option float;
  scoring_factors : option string;
  action : option ModerationAction.t;
  policy_id : option string;
  decision : option ref;
  error : option string;
}.
End ModerationState.

(** [classify_node] *)
Definition classify_node (env : Env) (state : ModerationState.t) : M ModerationState.t :=
  try_except
    (r <- call_classifier env (ModerationInput.content (ModerationState.input state)) ;;
     let '(category, reasoning) := r in
     ret (ModerationState.mk
            (ModerationState.input state)
            (Some category)
            (Some reasoning)
            (ModerationState.confidence state)
            (ModerationState.scoring_factors state)
            (ModerationState.action state)
            (ModerationState.policy_id state)
            (ModerationState.decision state)
            (ModerationState.error state)))
    (fun e =>
     ret (ModerationState.mk
            (ModerationState.input state)
            (Some PolicyCategory.NONE)
            (Some ("Error during classification: " +:+ str_exc e))
            (ModerationState.confidence state)
            (ModerationState.scoring_factors state)
            (ModerationState.action state)
            (ModerationState.policy_id state)
            (ModerationState.decision state)
            (Some (str_exc e)))).

(** [classification_reasoning or ""] *)
Definition or_empty (o : option string) : string :=
  match o with
  | Some s => if truthy_str s then s else ""
  | None => ""
  end.

(** [score_node].  A run of the graph reaches it with [category] written by
    [classify_node]; on [None] the scorer fails on [category.value] inside its
    own [try], before the chain is invoked. *)
Definition score_node (env : Env) (state : ModerationState.t) : M ModerationState.t :=
  try_except
    (r <- match ModerationState.category state with
          | Some category =>
              score env (ModerationInput.content (ModerationState.input state)) category
                (or_empty (ModerationState.classification_reasoning state))
          | None =>
              ret (0%Q, "Scoring error: 'NoneType' object has no attribute 'value'")
          end ;;
     let '(confidence, factors) := r in
     ret (ModerationState.mk
            (ModerationState.input state)
            (ModerationState.category state)
            (ModerationState.classification_reasoning state)
            (Some confidence)
            (Some factors)
            (ModerationState.action state)
            (ModerationState.policy_id state)
            (ModerationState.decision state)
            (ModerationState.error state)))
    (fun e =>
     ret (ModerationState.mk
            (ModerationState.input state)
            (ModerationState.category state)
            (ModerationState.classification_reasoning state)
            (Some 0%Q)
            (Some ("Error during scoring: " +:+ str_exc e))
            (ModerationState.action state)
            (ModerationState.policy_id state)
            (ModerationState.decision state)
            (Some (str_exc e)))).

(** [decide] on a category that is [None], which is not equal to
    [PolicyCategory.NONE]: the registry is scanned, and the comparison with
    the category of its first policy fails on [category.value]. *)
Definition decide_without_category : M (ModerationAction.t * option string) :=
  policies <- policies_store_get_all ;;
  match policies with
  | [] => ret (ModerationAction.NONE, None)
  | _ :: _ => raise (Exception "'NoneType' object has no attribute 'value'")
  end.

(** [decide] on a confidence that is [None]: the first comparison with a
    threshold fails, when an enabled policy is reached. *)
Definition decide_without_confidence (category : PolicyCategory.t)
    : M (ModerationAction.t * option string) :=
  if PolicyCategory.eqb category PolicyCategory.NONE then
    ret (ModerationAction.NONE, None)
  else
    found <- _get_policy_for_category category ;;
    match found with
    | None => ret (ModerationAction.NONE, None)
    | Some policy =>
        p <- policy_obj policy ;;
        if negb (Policy.enabled p) then ret (ModerationAction.NONE, None)
        else raise (Exception
                      "'>=' not supported between instances of 'NoneType' and 'float'")
    end.

(** [decide_node].  [category] and [confidence] have been written by the two
    nodes before it in a run of the graph; a [None] there is passed to
    [decide] as it is. *)
Definition decide_node (state : ModerationState.t) : M ModerationState.t :=
  try_except
    (r <- match ModerationState.category state, ModerationState.confidence state with
          | Some category, Some confidence => decide category confidence
          | Some category, None => decide_without_confidence category
          | None, _ => decide_without_category
          end ;;
     let '(action, policy_id) := r in
     ret (ModerationState.mk
            (ModerationState.input state)
            (ModerationState.category state)
            (ModerationState.classification_reasoning state)
            (ModerationState.confidence state)
            (ModerationState.scoring_factors state)
            (Some action)
            policy_id
            (ModerationState.decision state)
            (ModerationState.error state)))
    (fun e =>
     ret (ModerationState.mk
            (ModerationState.input state)
            (ModerationState.category state)
            (ModerationState.classification_reasoning state)
            (ModerationState.confidence state)
            (ModerationState.scoring_factors state)
            (Some ModerationAction.NONE)
            None
            (ModerationState.decision state)
            (Some (str_exc e)))).

(** [sep.join(parts)] *)
Fixpoint str_join (sep : string) (parts : list string) : string :=
  match parts with
  | [] => ""
  | [a] => a
  | a :: rest => a +:+ sep +:+ str_join sep rest
  end.

(** [if state[key]: reasoning_parts.append(f"{label}{state[key]}")] *)
Definition reasoning_part (label : string) (o : option string) : list string :=
  match o with
  | Some s => if truthy_str s then [label +:+ s] else []
  | None => []
  end.

Definition full_reasoning (state : ModerationState.t) : string :=
  str_join " | "
    (app (reasoning_part "Classification: " (ModerationState.classification_reasoning state))
         (reasoning_part "Scoring: " (ModerationState.scoring_factors state))).

(** [action_node].  A [None] among the arguments fails the validation of
    [ModerationDecision(...)], the first thing [execute] does. *)
Definition action_node (env : Env) (sts : ExecuteStamps) (state : ModerationState.t)
    : M ModerationState.t :=
  try_except
    (decision <-
       match ModerationState.category state, ModerationState.confidence state,
             ModerationState.action state with
       | Some category, Some confidence, Some action =>
           execute env sts (ModerationState.input state) category confidence action
             (ModerationState.policy_id state) (full_reasoning state)
       | _, _, _ => raise (ValidationError "ModerationDecision")
       end ;;
     ret (ModerationState.mk
            (ModerationState.input state)
            (ModerationState.category state)
            (ModerationState.classification_reasoning state)
            (ModerationState.confidence state)
            (ModerationState.scoring_factors state)
            (ModerationState.action state)
            (ModerationState.policy_id state)
            (Some decision)
            (ModerationState.error state)))
    (fun e =>
     ret (ModerationState.mk
            (ModerationState.input state)
            (ModerationState.category state)
            (ModerationState.classification_reasoning state)
            (ModerationState.confidence state)
            (ModerationState.scoring_factors state)
            (ModerationState.action state)
            (ModerationState.policy_id state)
            (ModerationState.decision state)
            (Some (str_exc e)))).

Definition initial_state (input_data : ModerationInput.t) : ModerationState.t :=
  ModerationState.mk input_data None None None None None None None None.

(** The compiled graph: classify, score, decide, action, in this order. *)
Definition pipeline_ainvoke (env : Env) (sts : ExecuteStamps) (state : ModerationState.t)
    : M ModerationState.t :=
  s1 <- classify_node env state ;;
  s2 <- score_node env s1 ;;
  s3 <- decide_node s2 ;;
  action_node env sts s3.

(** [moderate_content] *)
Definition moderate_content (env : Env) (sts : ExecuteStamps) (input_data : ModerationInput.t)
    : M (option ref) :=
  result <- pipeline_ainvoke env sts (initial_state input_data) ;;
  ret (ModerationState.decision result).

(** ** [app/api/routes/moderation.py] *)

(** [review_decision]; the response dict is returned. *)
Definition review_decision (st : Stamp) (decision_id : string) (approved : bool)
    (notes : option string) : M json :=
  found <- decisions_store_get decision_id ;;
  match found with
  | None => raise (HTTPException 404 "Decision not found")
  | Some decision =>
      decision_setattr decision (ModerationDecision.set_status ModerationStatus.REVIEWED) ;;
      decisions_store_set decision_id decision ;;
      d <- decision_obj decision ;;
      let audit_entry :=
        AuditLogEntry.new st (Some decision_id) AuditActionType.DECISION_REVIEWED
          AuditActor.ADMIN
          ("Decision reviewed: " +:+ (if approved then "approved" else "rejected")
             +:+ ". " +:+ or_empty notes)
          (Some (JObj [
             ("approved", JBool approved);
             ("notes", json_opt_str notes);
             ("decision_classification",
                JStr (PolicyCategory.value (ModerationDecision.classification d)));
             ("decision_action",
                JStr (ModerationAction.value (ModerationDecision.action d))) ])) in
      audit_store_append audit_entry ;;
      ret (JObj [ ("status", JStr "success");
                  ("decision_id", JStr decision_id);
                  ("new_status", JStr (ModerationStatus.value (ModerationDecision.status d))) ])
  end.

(** [overturn_decision] *)
Definition overturn_decision (st : Stamp) (decision_id : string) (reason : string) : M json :=
  found <- decisions_store_get decision_id ;;
  match found with
  | None => raise (HTTPException 404 "Decision not found")
  | Some decision =>
      d <- decision_obj decision ;;
      if ModerationStatus.eqb (ModerationDecision.status d) ModerationStatus.OVERTURNED then
        raise (HTTPException 400 "Decision already overturned")
      else
        let old_action := ModerationDecision.action d in
        decision_setattr decision (ModerationDecision.set_status ModerationStatus.OVERTURNED) ;;
        decisions_store_set decision_id decision ;;
        d <- decision_obj decision ;;
        let audit_entry :=
          AuditLogEntry.new st (Some decision_id) AuditActionType.DECISION_OVERTURNED
            AuditActor.ADMIN reason
            (Some (JObj [
               ("original_action", JStr (ModerationAction.value old_action));
               ("original_classification",
                  JStr (PolicyCategory.value (ModerationDecision.classification d)));
               ("original_confidence", JNum (ModerationDecision.confidence_score d)) ])) in
        audit_store_append audit_entry ;;
        ret (JObj [ ("status", JStr "success");
                    ("decision_id", JStr decision_id);
                    ("new_status", JStr (ModerationStatus.value (ModerationDecision.status d))) ])
  end.

(** The failure of [overturn_decision] on a decision already overturned. *)
Definition AlreadyOverturned : Exc := HTTPException 400 "Decision already overturned".

(** [decisions_store.get_all()], as objects. *)
Definition all_decisions (w : World) : list ModerationDecision.t :=
  omap (fun r => decision_objs w !! r) (dict_values (decisions_store w)).

(** [if flag: xs = [x for x in xs if keep(x)]] *)
Definition filter_if {A} (flag : bool) (keep : A -> bool) (xs : list A) : list A :=
  if flag then List.filter keep xs else xs.

(** [list_decisions]: the decisions of the response, in order. *)
Definition list_decisions (w : World) (room_id participant_id : option string)
    (classification : option PolicyCategory.t) (action : option ModerationAction.t)
    (status : option ModerationStatus.t) (min_confidence max_confidence : option float)
    (limit offset : Z) : list ModerationDecision.t :=
  let decisions := all_decisions w in
  let decisions :=
    filter_if (truthy_opt_str room_id)
      (fun d => bool_decide (Some (ModerationDecision.room_id d) = room_id)) decisions in
  let decisions :=
    filter_if (truthy_opt_str participant_id)
      (fun d => bool_decide (Some (ModerationDecision.participant_id d) = participant_id))
      decisions in
  let decisions :=
    match classification with
    | Some c =>
        filter_if (truthy_str (PolicyCategory.value c))
          (fun d => PolicyCategory.eqb (ModerationDecision.classification d) c) decisions
    | None => decisions
    end in
  let decisions :=
    match action with
    | Some a =>
        filter_if (truthy_str (ModerationAction.value a))
          (fun d => ModerationAction.eqb (ModerationDecision.action d) a) decisions
    | None => decisions
    end in
  let decisions :=
    match status with
    | Some s =>
        filter_if (truthy_str (ModerationStatus.value s))
          (fun d => ModerationStatus.eqb (ModerationDecision.status d) s) decisions
    | None => decisions
    end in
  let decisions :=
    match min_confidence with
    | Some m => List.filter (fun d => fge (ModerationDecision.confidence_score d) m) decisions
    | None => decisions
    end in
  let decisions :=
    match max_confidence with
    | Some m => List.filter (fun d => fle (ModerationDecision.confidence_score d) m) decisions
    | None => decisions
    end in
  let decisions := sort_desc ModerationDecision.timestamp decisions in
  py_slice decisions offset (offset + limit).

(** ** [app/api/routes/audit.py] *)

(** The [TypeError] of a comparison between a [datetime] without a time zone
    and one with a time zone. *)
Definition NaiveAwareComparison : Exc :=
  Exception "can't compare offset-naive and offset-aware datetimes".

(** The rest of a handler that has no store to write to. *)
Definition and_then {A B} (r : Result A) (k : A -> Result B) : Result B :=
  match r with
  | Return a => k a
  | Raise e => Raise e
  end.

(** [if bound: entries = [e for e in entries if keep(e.timestamp, bound)]].
    A [datetime] is always truthy.  The stored timestamps have no time zone:
    against a bound that has one the comparison raises, at the first entry;
    over no entry nothing is compared. *)
Definition filter_time (keep : datetime -> datetime -> bool) (bound : option QueryTime)
    (entries : list AuditLogEntry.t) : Result (list AuditLogEntry.t) :=
  match bound with
  | None => Return entries
  | Some (Naive t) =>
      Return (List.filter (fun e => keep (AuditLogEntry.timestamp e) t) entries)
  | Some (Aware _ _) =>
      match entries with
      | [] => Return []
      | _ :: _ => Raise NaiveAwareComparison
      end
  end.

(** The filters shared by [list_audit_logs] and [export_audit_logs], and the
    sort that follows them. *)
Definition filtered_audit_entries (w : World) (decision_id : option string)
    (action_type : option AuditActionType.t) (actor : option AuditActor.t)
    (start_time end_time : option QueryTime) : Result (list AuditLogEntry.t) :=
  let entries := audit_store w in
  let entries :=
    filter_if (truthy_opt_str decision_id)
      (fun e => bool_decide (AuditLogEntry.decision_id e = decision_id)) entries in
  let entries :=
    match action_type with
    | Some a =>
        filter_if (truthy_str (AuditActionType.value a))
          (fun e => AuditActionType.eqb (AuditLogEntry.action_type e) a) entries
    | None => entries
    end in
  let entries :=
    match actor with
    | Some a =>
        filter_if (truthy_str (AuditActor.value a))
          (fun e => AuditActor.eqb (AuditLogEntry.actor e) a) entries
    | None => entries
    end in
  and_then (filter_time (fun timestamp t => (t <=? timestamp)%nat) start_time entries)
    (fun entries =>
  and_then (filter_time (fun timestamp t => (timestamp <=? t)%nat) end_time entries)
    (fun entries =>
  Return (sort_desc AuditLogEntry.timestamp entries))).

(** [list_audit_logs] *)
Definition list_audit_logs (w : World) (decision_id : option string)
    (action_type : option AuditActionType.t) (actor : option AuditActor.t)
    (start_time end_time : option QueryTime) (limit offset : Z)
    : Result (list AuditLogEntry.t) :=
  and_then (filtered_audit_entries w decision_id action_type actor start_time end_time)
    (fun entries => Return (py_slice entries offset (offset + limit))).

Inductive ExportFormat := FormatJson | FormatCsv.

(** The response of [export_audit_logs]: the count with the entries, or with
    the rows handed to [csv.writer] (the header first). *)
Inductive Export :=
| ExportJson (count : nat) (entries : list AuditLogEntry.t)
| ExportCsv (count : nat) (rows : list (list json)).

Definition csv_row (entry : AuditLogEntry.t) : list json :=
  [ JStr (AuditLogEntry.audit_id entry);
    JStr (default "" (AuditLogEntry.decision_id entry));
    JStr (AuditActionType.value (AuditLogEntry.action_type entry));
    JStr (AuditActor.value (AuditLogEntry.actor entry));
    JStr (AuditLogEntry.reason entry);
    JTime (AuditLogEntry.timestamp entry) ].

(** [export_audit_logs] *)
Definition export_audit_logs (w : World) (format : ExportFormat) (decision_id : option string)
    (action_type : option AuditActionType.t) (actor : option AuditActor.t)
    (start_time end_time : option QueryTime) : Result Export :=
  and_then (filtered_audit_entries w decision_id action_type actor start_time end_time)
    (fun entries =>
  Return
    match format with
    | FormatJson => ExportJson (length entries) entries
    | FormatCsv =>
        ExportCsv (length entries)
          ([ JStr "audit_id"; JStr "decision_id"; JStr "action_type"; JStr "actor";
             JStr "reason"; JStr "timestamp" ] :: map csv_row entries)
    end).

(** ** [app/api/routes/policies.py] *)

(** One block of [update_policy]:
    [if update.f is not None:
         changes["f"] = {"old": policy.f, "new": update.f}
         policy.f = update.f] *)
Definition apply_update {A} (field : string) (new : option A) (get : Policy.t -> A)
    (set : A -> Policy.t -> Policy.t) (dump : A -> json) (policy : ref)
    (changes : list (string * json)) : M (list (string * json)) :=
  match new with
  | None => ret changes
  | Some v =>
      p <- policy_obj policy ;;
      let changes := dict_set field (JObj [("old", dump (get p)); ("new", dump v)]) changes in
      policy_setattr policy (set v) ;;
      ret changes
  end.

(** [policy.warn_threshold <= policy.mute_threshold <= policy.flag_threshold] *)
Definition thresholds_ordered (p : Policy.t) : bool :=
  fle (Policy.warn_threshold p) (Policy.mute_threshold p)
  && fle (Policy.mute_threshold p) (Policy.flag_threshold p).

(** The failure of [update_policy] on thresholds out of order. *)
Definition InvalidThresholds : Exc :=
  HTTPException 400 "Thresholds must be ordered: warn <= mute <= flag".

(** [update_policy]: [now] is the clock read for [updated_at], [st] the draw
    for the audit entry; the policy of the response is returned. *)
Definition update_policy (now : datetime) (st : Stamp) (policy_id : string)
    (update : PolicyUpdate.t) : M Policy.t :=
  found <- policies_store_get policy_id ;;
  match found with
  | None => raise (HTTPException 404 "Policy not found")
  | Some policy =>
      let changes : list (string * json) := [] in
      changes <- apply_update "name" (PolicyUpdate.name update)
                   Policy.name Policy.set_name JStr policy changes ;;
      changes <- apply_update "description" (PolicyUpdate.description update)
                   Policy.description Policy.set_description JStr policy changes ;;
      changes <- apply_update "warn_threshold" (PolicyUpdate.warn_threshold update)
                   Policy.warn_threshold Policy.set_warn_threshold JNum policy changes ;;
      changes <- apply_update "mute_threshold" (PolicyUpdate.mute_threshold update)
                   Policy.mute_threshold Policy.set_mute_threshold JNum policy changes ;;
      changes <- apply_update "flag_threshold" (PolicyUpdate.flag_threshold update)
                   Policy.flag_threshold Policy.set_flag_threshold JNum policy changes ;;
      changes <- apply_update "enabled" (PolicyUpdate.enabled update)
                   Policy.enabled Policy.set_enabled JBool policy changes ;;
      p <- policy_obj policy ;;
      if negb (thresholds_ordered p) then raise InvalidThresholds
      else
        policy_setattr policy (Policy.set_updated_at now) ;;
        policies_store_set policy_id policy ;;
        p <- policy_obj policy ;;
        (match changes with
         | [] => ret tt
         | _ :: _ =>
             let audit_entry :=
               AuditLogEntry.new st None AuditActionType.POLICY_UPDATED AuditActor.ADMIN
                 ("Policy '" +:+ Policy.name p +:+ "' updated")
                 (Some (JObj [ ("policy_id", JStr policy_id);
                               ("policy_name", JStr (Policy.name p));
                               ("changes", JObj changes) ])) in
             audit_store_append audit_entry ;;
             ret tt
         end) ;;
        ret p
  end.

(** [toggle_policy]; the response dict is returned. *)
Definition toggle_policy (now : datetime) (st : Stamp) (policy_id : string) : M json :=
  found <- policies_store_get policy_id ;;
  match found with
  | None => raise (HTTPException 404 "Policy not found")
  | Some policy =>
      p <- policy_obj policy ;;
      let old_enabled := Policy.enabled p in
      policy_setattr policy (Policy.set_enabled (negb (Policy.enabled p))) ;;
      policy_setattr policy (Policy.set_updated_at now) ;;
      policies_store_set policy_id policy ;;
      p <- policy_obj policy ;;
      let audit_entry :=
        AuditLogEntry.new st None AuditActionType.POLICY_UPDATED AuditActor.ADMIN
          ("Policy '" +:+ Policy.name p +:+ "' "
             +:+ (if Policy.enabled p then "enabled" else "disabled"))
          (Some (JObj [ ("policy_id", JStr policy_id);
                        ("policy_name", JStr (Policy.name p));
                        ("old_enabled", JBool old_enabled);
                        ("new_enabled", JBool (Policy.enabled p)) ])) in
      audit_store_append audit_entry ;;
      ret (JObj [ ("status", JStr "success");
                  ("policy_id", JStr policy_id);
                  ("enabled", JBool (Policy.enabled p)) ])
  end.

(** The process after start-up: the five default policies, nothing else. *)
Definition started_world (now : datetime) : World :=
  snd (initialize_default_policies now empty_world).

(** ** Runs of the application *)

(** The operations that write to the stores. *)
Inductive Op :=
| Moderate (env : Env) (sts : ExecuteStamps) (input_data : ModerationInput.t)
| Review (st : Stamp) (decision_id : string) (approved : bool) (notes : option string)
| Overturn (st : Stamp) (decision_id : string) (reason : string)
| UpdatePolicy (now : datetime) (st : Stamp) (policy_id : string) (update : PolicyUpdate.t)
| TogglePolicy (now : datetime) (st : Stamp) (policy_id : string).

(** The world an operation leaves, whether it returns or raises. *)
Definition run_op (op : Op) (w : World) : World :=
  match op with
  | Moderate env sts input_data => snd (moderate_content env sts input_data w)
  | Review st decision_id approved notes => snd (review_decision st decision_id approved notes w)
  | Overturn st decision_id reason => snd (overturn_decision st decision_id reason w)
  | UpdatePolicy now st policy_id update => snd (update_policy now st policy_id update w)
  | TogglePolicy now st policy_id => snd (toggle_policy now st policy_id w)
  end.

Fixpoint run_ops (ops : list Op) (w : World) : World :=
  match ops with
  | [] => w
  | op :: rest => run_ops rest (run_op op w)
  end.

(** The identifier a pipeline run draws for its decision is not in use. *)
Definition fresh_id (op : Op) (w : World) : Prop :=
  match op with
  | Moderate _ sts _ => dict_get ("dec-" +:+ hex12 (st_decision sts)) (decisions_store w) = None
  | _ => True
  end.

Fixpoint fresh_ids (ops : list Op) (w : World) : Prop :=
  match ops with
  | [] => True
  | op :: rest => fresh_id op w /\ fresh_ids rest (run_op op w)
  end.

(** ** Vocabulary of the properties *)

(** An audit entry that refers to the decision [did] and whose type
    satisfies [kind]. *)
Definition entry_of (did : string) (kind : AuditActionType.t -> bool)
    (e : AuditLogEntry.t) : bool :=
  bool_decide (AuditLogEntry.decision_id e = Some did) && kind (AuditLogEntry.action_type e).

Definition count_entries (did : string) (kind : AuditActionType.t -> bool)
    (entries : list AuditLogEntry.t) : nat :=
  length (List.filter (entry_of did kind) entries).

(** The entries that record an enforcement: the three types of the mapping
    and its default [action_executed]. *)
Definition executed_family (a : AuditActionType.t) : bool :=
  match a with
  | AuditActionType.ACTION_EXECUTED | AuditActionType.PARTICIPANT_WARNED
  | AuditActionType.PARTICIPANT_MUTED | AuditActionType.CONTENT_FLAGGED => true
  | _ => false
  end.

(** Position of a status along pending, executed, then reviewed or
    overturned. *)
Definition status_rank (s : ModerationStatus.t) : nat :=
  match s with
  | ModerationStatus.PENDING => 0
  | ModerationStatus.EXECUTED => 1
  | ModerationStatus.REVIEWED => 2
  | ModerationStatus.OVERTURNED => 2
  end.

(** The order the specification gives: a status stays, or moves to a later
    position; reviewed and overturned are both final. *)
Definition forward_only (s s' : ModerationStatus.t) : Prop :=
  s' = s \/ status_rank s < status_rank s'.

(** The policies of the registry in the order of [get_all], when every
    reference of the store names an object. *)
Definition registry (w : World) : option (list Policy.t) :=
  mapM (fun r => policy_objs w !! r) (dict_values (policies_store w)).

(** The item [field: {old, new}] of a [changes] map, for a supplied value. *)
Definition change {A} (field : string) (dump : A -> json) (old : A) (new : option A)
    : list (string * json) :=
  match new with
  | Some v => [(field, JObj [("old", dump old); ("new", dump v)])]
  | None => []
  end.

(** The [changes] map for the fields an update supplies, against the policy
    before it. *)
Definition supplied_changes (p : Policy.t) (u : PolicyUpdate.t) : list (string * json) :=
  change "name" JStr (Policy.name p) (PolicyUpdate.name u)
  ++ change "description" JStr (Policy.description p) (PolicyUpdate.description u)
  ++ change "warn_threshold" JNum (Policy.warn_threshold p) (PolicyUpdate.warn_threshold u)
  ++ change "mute_threshold" JNum (Policy.mute_threshold p) (PolicyUpdate.mute_threshold u)
  ++ change "flag_threshold" JNum (Policy.flag_threshold p) (PolicyUpdate.flag_threshold u)
  ++ change "enabled" JBool (Policy.enabled p) (PolicyUpdate.enabled u).

(** The policy with the supplied fields of an update written over it. *)
Definition merged (p : Policy.t) (u : PolicyUpdate.t) : Policy.t :=
  let over {A} (new : option A) (set : A -> Policy.t -> Policy.t) (p : Policy.t) :=
    match new with Some v => set v p | None => p end in
  over (PolicyUpdate.enabled u) Policy.set_enabled
    (over (PolicyUpdate.flag_threshold u) Policy.set_flag_threshold
       (over (PolicyUpdate.mute_threshold u) Policy.set_mute_threshold
          (over (PolicyUpdate.warn_threshold u) Policy.set_warn_threshold
             (over (PolicyUpdate.description u) Policy.set_description
                (over (PolicyUpdate.name u) Policy.set_name p))))).

(** What a call of [execute] that returns [decision] leaves behind: the
    stored decision [d], and the entries [appended] to the audit ledger: one
    [decision_created] entry for the decision and, when the action is not
    none, one more, which is [participant_warned] for warn,
    [participant_muted] for mute and [content_flagged] for flag_for_review. *)
Definition audit_complete (w w' : World) (action : ModerationAction.t) (decision : ref)
    : Prop :=
  exists d appended,
    decision_objs w' !! decision = Some d
    /\ stored_decision w' (ModerationDecision.decision_id d) = Some d
    /\ ModerationDecision.action d = action
    /\ audit_store w' = audit_store w ++ appended
    /\ count_entries (ModerationDecision.decision_id d)
         (AuditActionType.eqb AuditActionType.DECISION_CREATED) appended = 1
    /\ count_entries (ModerationDecision.decision_id d) executed_family appended
       = (if ModerationAction.eqb action ModerationAction.NONE then 0 else 1)
    /\ length appended = (if ModerationAction.eqb action ModerationAction.NONE then 1 else 2)
    /\ (forall e, e ∈ appended -> executed_family (AuditLogEntry.action_type e) = true ->
          match action with
          | ModerationAction.WARN =>
              AuditLogEntry.action_type e = AuditActionType.PARTICIPANT_WARNED
          | ModerationAction.MUTE =>
              AuditLogEntry.action_type e = AuditActionType.PARTICIPANT_MUTED
          | ModerationAction.FLAG_FOR_REVIEW =>
              AuditLogEntry.action_type e = AuditActionType.CONTENT_FLAGGED
          | ModerationAction.NONE => False
          end)
    /\ ModerationDecision.status d
       = (if ModerationAction.eqb action ModerationAction.NONE
          then ModerationStatus.PENDING else ModerationStatus.EXECUTED).

(** The first policy of a list whose category has the value of [category]. *)
Definition policy_for (category : PolicyCategory.t) (ps : list Policy.t) : option Policy.t :=
  List.find (fun p => String.eqb (PolicyModelCategory.value (Policy.category p))
                                 (PolicyCategory.value category)) ps.

(** The entry [overturn_decision] appends for a decision read as [d]. *)
Definition overturned_entry (st : Stamp) (decision_id reason : string)
    (d : ModerationDecision.t) : AuditLogEntry.t :=
  AuditLogEntry.new st (Some decision_id) AuditActionType.DECISION_OVERTURNED
    AuditActor.ADMIN reason
    (Some (JObj [
       ("original_action", JStr (ModerationAction.value (ModerationDecision.action d)));
       ("original_classification",
          JStr (PolicyCategory.value (ModerationDecision.classification d)));
       ("original_confidence", JNum (ModerationDecision.confidence_score d)) ])).

(** The entry [review_decision] appends for a decision read as [d]. *)
Definition reviewed_entry (st : Stamp) (decision_id : string) (approved : bool)
    (notes : option string) (d : ModerationDecision.t) : AuditLogEntry.t :=
  AuditLogEntry.new st (Some decision_id) AuditActionType.DECISION_REVIEWED
    AuditActor.ADMIN
    ("Decision reviewed: " +:+ (if approved then "approved" else "rejected")
       +:+ ". " +:+ or_empty notes)
    (Some (JObj [
       ("approved", JBool approved);
       ("notes", json_opt_str notes);
       ("decision_classification",
          JStr (PolicyCategory.value (ModerationDecision.classification d)));
       ("decision_action",
          JStr (ModerationAction.value (ModerationDecision.action d))) ])).

(** The audit ledger of [w'] extends the ledger of [w]. *)
Definition ledger_grows (w w' : World) : Prop :=
  audit_store w `prefix_of` audit_store w'.

(** The decision objects and the decisions store are the same. *)
Definition same_decisions (w w' : World) : Prop :=
  decision_objs w' = decision_objs w /\ decisions_store w' = decisions_store w.

(** What the operations do to the status of a stored decision: it stays, or
    becomes reviewed or overturned. *)
Definition settled (s s' : ModerationStatus.t) : Prop :=
  s' = s \/ s' = ModerationStatus.REVIEWED \/ s' = ModerationStatus.OVERTURNED.

(** Every decision stored in [w] is stored in [w'] under the same key, with
    the same fields but for its status, which has [settled]. *)
Definition decisions_kept (w w' : World) : Prop :=
  forall key d, stored_decision w key = Some d ->
    exists d', stored_decision w' key = Some d'
               /\ d' = ModerationDecision.set_status (ModerationDecision.status d') d
               /\ settled (ModerationDecision.status d) (ModerationDecision.status d').

(** A coroutine relates every world to the world it leaves in it. *)
Definition preserves (R : World -> World -> Prop) {A} (c : M A) : Prop :=
  forall w, R w (snd (c w)).

(** The entry [update_policy] appends, for the policy as merged and the
    [changes] it has collected. *)
Definition policy_updated_entry (st : Stamp) (policy_id : string) (p : Policy.t)
    (changes : list (string * json)) : AuditLogEntry.t :=
  AuditLogEntry.new st None AuditActionType.POLICY_UPDATED AuditActor.ADMIN
    ("Policy '" +:+ Policy.name p +:+ "' updated")
    (Some (JObj [ ("policy_id", JStr policy_id);
                  ("policy_name", JStr (Policy.name p));
                  ("changes", JObj changes) ])).

(** The entry [toggle_policy] appends for a policy read as [p]. *)
Definition policy_toggled_entry (st : Stamp) (policy_id : string) (p : Policy.t)
    : AuditLogEntry.t :=
  AuditLogEntry.new st None AuditActionType.POLICY_UPDATED AuditActor.ADMIN
    ("Policy '" +:+ Policy.name p +:+ "' "
       +:+ (if negb (Policy.enabled p) then "enabled" else "disabled"))
    (Some (JObj [ ("policy_id", JStr policy_id);
                  ("policy_name", JStr (Policy.name p));
                  ("old_enabled", JBool (Policy.enabled p));
                  ("new_enabled", JBool (negb (Policy.enabled p))) ])).

(** ** The other methods of [app/core/storage.py] *)

(** [xs[start:]] *)
Definition py_slice_from {A} (xs : list A) (start : Z) : list A :=
  drop (Z.to_nat (slice_bound (Z.of_nat (length xs)) start)) xs.

(** [InMemoryStore], on the dict it holds; a method that writes returns the
    dict it leaves with its result. *)
Module InMemoryStore.
Section Methods.
Context {T : Type}.

(** [key in self._data] *)
Definition contains (key : string) (data : list (string * T)) : bool :=
  existsb (fun item => String.eqb item.1 key) data.

(** [del self._data[key]], for a key of the dict. *)
Fixpoint del (key : string) (data : list (string * T)) : list (string * T) :=
  match data with
  | [] => []
  | (k, v) :: data' => if String.eqb k key then data' else (k, v) :: del key data'
  end.

Definition delete (key : string) (data : list (string * T)) : bool * list (string * T) :=
  if contains key data then (true, del key data) else (false, data).

Definition exists_ (key : string) (data : list (string * T)) : bool := contains key data.

Definition count (data : list (string * T)) : nat := length data.

Definition clear (data : list (string * T)) : list (string * T) := [].
End Methods.
End InMemoryStore.

(** [AppendOnlyStore], on the list it holds. *)
Module AppendOnlyStore.
Section Methods.
Context {T : Type}.

Definition append (item : T) (data : list T) : nat * list T :=
  let data := data ++ [item] in
  (length data - 1, data).

Definition get_range (data : list T) (start limit : Z) : list T :=
  py_slice data start (start + limit).

Definition get_recent (data : list T) (limit : Z) : list T :=
  rev (py_slice_from data (- limit)).

Definition count (data : list T) : nat := length data.

Definition clear (data : list T) : list T := [].
End Methods.
End AppendOnlyStore.

(** ** The read handlers of [app/api/routes/audit.py] *)

(** The members of the two enumerations, in the order a [for] loop over the
    class visits them. *)
Definition AuditActionType_members : list AuditActionType.t :=
  [ AuditActionType.DECISION_CREATED; AuditActionType.ACTION_EXECUTED;
    AuditActionType.POLICY_UPDATED; AuditActionType.DECISION_REVIEWED;
    AuditActionType.DECISION_OVERTURNED; AuditActionType.PARTICIPANT_WARNED;
    AuditActionType.PARTICIPANT_MUTED; AuditActionType.CONTENT_FLAGGED ].

Definition AuditActor_members : list AuditActor.t :=
  [ AuditActor.SYSTEM; AuditActor.AI; AuditActor.ADMIN ].

(** The dict [get_audit_stats] returns. *)
Module AuditStats.
Record t := mk {
  total_entries : nat;
  by_action_type : list (string * nat);
  by_actor : list (string * nat);
  oldest_entry : option datetime;
  newest_entry : option datetime;
}.
End AuditStats.

(** [get_audit_stats] *)
Definition get_audit_stats (w : World) : AuditStats.t :=
  let entries := audit_store w in
  let action_counts :=
    fold_left
      (fun counts action_type =>
         dict_set (AuditActionType.value action_type)
           (length (List.filter
                      (fun e => AuditActionType.eqb (AuditLogEntry.action_type e) action_type)
                      entries))
           counts)
      AuditActionType_members [] in
  let actor_counts :=
    fold_left
      (fun counts actor =>
         dict_set (AuditActor.value actor)
           (length (List.filter (fun e => AuditActor.eqb (AuditLogEntry.actor e) actor) entries))
           counts)
      AuditActor_members [] in
  let '(oldest, newest) :=
    match map AuditLogEntry.timestamp entries with
    | [] => (None, None)
    | t :: timestamps => (Some (fold_left Nat.min timestamps t),
                          Some (fold_left Nat.max timestamps t))
    end in
  AuditStats.mk (length entries) action_counts actor_counts oldest newest.

(** The loop of [get_audit_entry] over the entries. *)
Fixpoint first_with_audit_id (audit_id : string) (entries : list AuditLogEntry.t)
    : M AuditLogEntry.t :=
  match entries with
  | [] => raise (HTTPException 404 "Audit entry not found")
  | entry :: rest =>
      if String.eqb (AuditLogEntry.audit_id entry) audit_id then ret entry
      else first_with_audit_id audit_id rest
  end.

(** [get_audit_entry] *)
Definition get_audit_entry (audit_id : string) : M AuditLogEntry.t :=
  fun w => first_with_audit_id audit_id (audit_store w) w.

(** ** Vocabulary of the further properties *)

(** No item of a list has a greater key than an item before it. *)
Fixpoint newest_first {A} (key : A -> nat) (xs : list A) : Prop :=
  match xs with
  | [] => True
  | x :: xs' => Forall (fun y => key y <= key x) xs' /\ newest_first key xs'
  end.

(** What the filters of the audit queries keep. *)
Definition audit_matches (decision_id : option string)
    (action_type : option AuditActionType.t) (actor : option AuditActor.t)
    (start_time end_time : option datetime) (e : AuditLogEntry.t) : bool :=
  (if truthy_opt_str decision_id
   then bool_decide (AuditLogEntry.decision_id e = decision_id) else true)
  && match action_type with
     | Some a => AuditActionType.eqb (AuditLogEntry.action_type e) a
     | None => true
     end
  && match actor with
     | Some a => AuditActor.eqb (AuditLogEntry.actor e) a
     | None => true
     end
  && match start_time with
     | Some t => (t <=? AuditLogEntry.timestamp e)%nat
     | None => true
     end
  && match end_time with
     | Some t => (AuditLogEntry.timestamp e <=? t)%nat
     | None => true
     end.

(** ** The lookups of [app/api/routes/moderation.py] and
    [app/api/routes/policies.py] *)

(** [get_decision]; a model instance is truthy. *)
Definition get_decision (decision_id : string) : M ModerationDecision.t :=
  found <- decisions_store_get decision_id ;;
  match found with
  | None => raise (HTTPException 404 "Decision not found")
  | Some decision => decision_obj decision
  end.

(** [get_policy] *)
Definition get_policy (policy_id : string) : M Policy.t :=
  found <- policies_store_get policy_id ;;
  match found with
  | None => raise (HTTPException 404 "Policy not found")
  | Some policy => policy_obj policy
  end.

(** ** [app/moderation/classifier.py] *)

(** [s.lower()] on the letters A to Z.  The result is only looked up in
    [category_map], whose keys are ASCII and have no [k]: no character
    outside ASCII lowers to one of their letters, so the lookup is the one
    of Python's [lower]. *)
Definition lower_ascii (c : Ascii.ascii) : Ascii.ascii :=
  let n := Ascii.nat_of_ascii c in
  if (65 <=? n)%nat && (n <=? 90)%nat then Ascii.ascii_of_nat (n + 32) else c.

Fixpoint str_lower (s : string) : string :=
  match s with
  | EmptyString => EmptyString
  | String c s' => String (lower_ascii c) (str_lower s')
  end.

(** What the classifier's chain parses out of the model's answer: a dict,
    or a value of another type, given by the text of [type(result)].  The
    dicts covered are those whose [category] is a string, null or missing
    ([None] for the last two, which the code treats alike) and whose
    [reasoning] is a string or missing ([None]). *)
Inductive ClassifierReply :=
| ReplyOther (type_repr : string)
| ReplyDict (category : option string) (reasoning : option string).

Definition category_map : list (string * PolicyCategory.t) :=
  [ ("harassment", PolicyCategory.HARASSMENT);
    ("hate_speech", PolicyCategory.HATE_SPEECH);
    ("spam", PolicyCategory.SPAM);
    ("violence", PolicyCategory.VIOLENCE);
    ("adult_content", PolicyCategory.ADULT_CONTENT);
    ("none", PolicyCategory.NONE) ].

(** [ContentClassifier.classify], over the chain [prompt | llm | parser]. *)
Definition ContentClassifier_classify (chain_ainvoke : string -> Result ClassifierReply)
    (content : string) : Result (PolicyCategory.t * string) :=
  match chain_ainvoke content with
  | Return (ReplyOther type_repr) =>
      Return (PolicyCategory.NONE, "Unexpected response format from LLM: " +:+ type_repr)
  | Return (ReplyDict category reasoning) =>
      let category_str := default "none" category in
      let category_str :=
        if truthy_str category_str then str_lower category_str else "none" in
      let reasoning := default "" reasoning in
      let category := default PolicyCategory.NONE (dict_get category_str category_map) in
      Return (category, reasoning)
  | Raise e => Return (PolicyCategory.NONE, "Classification error: " +:+ str_exc e)
  end.

(** The environment of the running application: [get_classifier()] is a
    [ContentClassifier]. *)
Definition app_env (classifier_chain : string -> Result ClassifierReply)
    (scoring_chain : string -> string -> string -> Result ChainReply)
    (format_2f : float -> string) : Env :=
  {| classifier_classify := ContentClassifier_classify classifier_chain;
     scoring_chain_ainvoke := scoring_chain;
     format_2f := format_2f |}.

(** ** Vocabulary of the further properties, continued *)

(** The five stores are the same (the trace may differ). *)
Definition stores_untouched (w w' : World) : Prop :=
  policy_objs w' = policy_objs w
  /\ policies_store w' = policies_store w
  /\ decision_objs w' = decision_objs w
  /\ decisions_store w' = decisions_store w
  /\ audit_store w' = audit_store w.

(** How far an action goes. *)
Definition severity (a : ModerationAction.t) : nat :=
  match a with
  | ModerationAction.NONE => 0
  | ModerationAction.WARN => 1
  | ModerationAction.MUTE => 2
  | ModerationAction.FLAG_FOR_REVIEW => 3
  end.

(** The registry has the same keys and references, and every policy object
    its identifier, category and creation time. *)
Definition policies_kept (w w' : World) : Prop :=
  policies_store w' = policies_store w
  /\ length (policy_objs w') = length (policy_objs w)
  /\ forall r p, policy_objs w !! r = Some p ->
       exists p', policy_objs w' !! r = Some p'
                  /\ Policy.policy_id p' = Policy.policy_id p
                  /\ Policy.category p' = Policy.category p
                  /\ Policy.created_at p' = Policy.created_at p.

(** ** The list of [app/api/routes/policies.py] *)

(** [xs.sort(key=key)] with [str] keys: stable, smallest key first. *)
Fixpoint insert_asc {A} (key : A -> string) (x : A) (xs : list A) : list A :=
  match xs with
  | [] => [x]
  | y :: ys => if String.ltb (key y) (key x) then y :: insert_asc key x ys else x :: y :: ys
  end.

Fixpoint sort_asc {A} (key : A -> string) (xs : list A) : list A :=
  match xs with
  | [] => []
  | x :: xs' => insert_asc key x (sort_asc key xs')
  end.

(** [list_policies]: the policies of the response, in order. *)
Definition list_policies : M (list Policy.t) :=
  policies <- policies_store_get_all ;;
  fun w =>
    (Return (sort_asc (fun p => PolicyModelCategory.value (Policy.category p))
               (omap (fun r => policy_objs w !! r) policies)), w).

(** ** Concrete data for the examples *)

Definition stamp (hex : string) (now : datetime) : Stamp := {| hex12 := hex; utcnow := now |}.

Definition stamps_1 : ExecuteStamps :=
  {| st_decision := stamp "0000000000d1" 10;
     st_created := stamp "0000000000a1" 11;
     st_executed := stamp "0000000000a2" 12 |}.

Definition input_1 : ModerationInput.t :=
  ModerationInput.mk "room-1" "part-1" "alice" "buy now" ContentType.TEXT None.

(** A classifier that answers spam, one that raises; a chain that answers
    0.95; two decimals left symbolic. *)
Definition env_spam : Env :=
  {| classifier_classify := fun _ => Return (PolicyCategory.SPAM, "promotional");
     scoring_chain_ainvoke := fun _ _ _ => Return {| reply_confidence := Some (95#100);
                                                      reply_factors := Some "clear" |};
     format_2f := fun _ => "0.95" |}.

Definition env_down : Env :=
  {| classifier_classify := fun _ => Raise (Exception "connection refused");
     scoring_chain_ainvoke := fun _ _ _ => Raise (Exception "connection refused");
     format_2f := fun _ => "0.00" |}.

Definition run_1 : Result ref * World :=
  execute env_spam stamps_1 input_1 PolicyCategory.SPAM (95#100)
    ModerationAction.FLAG_FOR_REVIEW (Some "policy-spam") "promotional" (started_world 0).

(** An update that supplies the name the policy already has, and one that
    raises the warn threshold above the two others. *)
Definition same_name_update : PolicyUpdate.t :=
  PolicyUpdate.mk (Some "Spam") None None None None None.

Definition bad_update : PolicyUpdate.t :=
  PolicyUpdate.mk None None (Some (9#10)) None None None.

(** An overturn, then a review, of the decision of [run_1]. *)
Definition ops_1 : list Op :=
  [ Overturn (stamp "0000000000a3" 20) "dec-0000000000d1" "appeal";
    Review (stamp "0000000000a4" 21) "dec-0000000000d1" true None ].

Definition dict_ab : list (string * nat) := [("a", 1); ("b", 2)].

(** The decision stored by [run_1]. *)
Definition decision_1 : ModerationDecision.t :=
  ModerationDecision.mk "dec-0000000000d1" "room-1" "part-1" "alice" "buy now"
    ContentType.TEXT PolicyCategory.SPAM (95#100) ModerationAction.FLAG_FOR_REVIEW
    ModerationStatus.EXECUTED (Some "policy-spam") 10 (Some "promotional") None.

(** The application with both chains out of reach. *)
Definition env_llm_down : Env :=
  app_env (fun _ => Raise (Exception "connection refused"))
          (fun _ _ _ => Raise (Exception "connection refused"))
          (fun _ => "0.00").

(** The spam policy of the started registry. *)
Definition policy_spam (now : datetime) : Policy.t :=
  Policy.mk "policy-spam" "Spam" PolicyModelCategory.SPAM
    "Repetitive, promotional, or unsolicited content" (6#10) (8#10) (9#10) true now now.

(** An update that supplies nothing, and one that supplies a name. *)
Definition empty_update : PolicyUpdate.t := PolicyUpdate.mk None None None None None None.

Definition rename_update : PolicyUpdate.t :=
  PolicyUpdate.mk (Some "Junk") None None None None None.

(** * Properties *)

(** ** Dicts and heaps *)

Section DictFacts.
Context {T : Type}.
Implicit Types (d : list (string * T)) (k : string) (v : T).

Lemma dict_get_set_eq d k v : dict_get k (dict_set k v d) = Some v.
Proof.
  induction d as [|[k' v'] d IH]; simpl.
  - by rewrite String.eqb_refl.
  - destruct (String.eqb k' k) eqn:E; simpl.
    + by rewrite String.eqb_refl.
    + by rewrite E.
Qed.

Lemma dict_get_set_ne d k k' v : k <> k' -> dict_get k' (dict_set k v d) = dict_get k' d.
Proof.
  intros Hne. induction d as [|[k0 v0] d IH]; simpl.
  - destruct (String.eqb k k') eqn:E; [|done].
    apply String.eqb_eq in E. done.
  - destruct (String.eqb k0 k) eqn:E; simpl.
    + apply String.eqb_eq in E. subst k0.
      destruct (String.eqb k k') eqn:E'; [|done].
      apply String.eqb_eq in E'. done.
    + by rewrite IH.
Qed.

(** [store.set(key, obj)] with the object the key already has. *)
Lemma dict_set_id d k v : dict_get k d = Some v -> dict_set k v d = d.
Proof.
  induction d as [|[k0 v0] d IH]; simpl; [done|].
  destruct (String.eqb k0 k) eqn:E.
  - apply String.eqb_eq in E. by intros [= ->]; subst.
  - intros H. by rewrite IH.
Qed.
End DictFacts.

Lemma heap_new_lookup {A} (h : list A) (x : A) : (h ++ [x]) !! length h = Some x.
Proof. by apply list_lookup_middle. Qed.

Lemma heap_new_write {A} (h : list A) (x y : A) :
  <[length h := x]> (h ++ [y]) = h ++ [x].
Proof.
  rewrite insert_app_r_alt by lia. by rewrite Nat.sub_diag.
Qed.

Lemma heap_write_lookup {A} (h : list A) (x y : A) (r : nat) :
  h !! r = Some y -> <[r := x]> h !! r = Some x.
Proof. intros H. apply list_lookup_insert_eq. by eapply lookup_lt_Some. Qed.

Ltac heap_simpl :=
  repeat first
    [ rewrite heap_new_lookup
    | rewrite heap_new_write
    | rewrite dict_get_set_eq ].

(** Symbolic execution of a coroutine: unfold the monad and the store
    primitives, compute, and resolve the reads of fresh objects. *)
Ltac run :=
  repeat (cbv beta iota delta
            [bind ret raise try_except dangling emit
             decision_obj decision_setattr decision_new policy_obj policy_setattr policy_new
             decisions_store_get decisions_store_set policies_store_get policies_store_set
             audit_store_append _create_audit_entry _execute_action];
          cbn -[String.append];
          heap_simpl).

(** ** Audit completeness of the executor *)

(** C1. When [execute] returns a decision, it has appended exactly one
    [decision_created] entry for the decision's id, and exactly one more
    entry for it if and only if the action is not [none]: of type
    [participant_warned] for warn, [participant_muted] for mute and
    [content_flagged] for flag_for_review.  The stored decision ends
    [executed] when the action is not [none] and [pending] when it is. *)
Theorem execute_audit_completeness env sts input_data category confidence action
    policy_id reasoning w decision w' :
  execute env sts input_data category confidence action policy_id reasoning w
    = (Return decision, w') ->
  audit_complete w w' action decision.
Proof.
  unfold execute, ModerationDecision_new, audit_complete.
  destruct (fle 0%Q confidence && fle confidence 1%Q) eqn:Hrange; [|discriminate].
  destruct action; run; intros [= <- <-];
    eexists _, _; (split; [cbn; heap_simpl; reflexivity|]);
    (split; [unfold stored_decision; cbn -[String.append]; heap_simpl;
             cbn -[String.append]; heap_simpl; reflexivity|]);
    (split; [reflexivity|]);
    (split; [cbn; rewrite <- ?app_assoc; reflexivity|]);
    unfold count_entries, entry_of; cbn -[String.append];
    rewrite !bool_decide_eq_true_2 by reflexivity; cbn;
    repeat split; try reflexivity;
    intros e He Hf; repeat (apply elem_of_cons in He as [-> | He]);
    try (by apply elem_of_nil in He); cbn in Hf; try discriminate; reflexivity.
Qed.

Lemma execute_audit_completeness_witness :
  fst run_1 = Return 0
  /\ (AuditLogEntry.action_type <$> audit_store (snd run_1))
     = [AuditActionType.DECISION_CREATED; AuditActionType.CONTENT_FLAGGED]
  /\ audit_complete (started_world 0) (snd run_1) ModerationAction.FLAG_FOR_REVIEW 0.
Proof.
  split; [reflexivity|]. split; [reflexivity|].
  apply (execute_audit_completeness env_spam stamps_1 input_1 PolicyCategory.SPAM (95#100)
           ModerationAction.FLAG_FOR_REVIEW (Some "policy-spam") "promotional"
           (started_world 0) 0 (snd run_1)).
  vm_compute. reflexivity.
Defined.

(** [execute] does return on a confidence within the unit interval. *)
Lemma execute_returns env sts input_data category confidence action policy_id reasoning w :
  (0 <= confidence)%Q -> (confidence <= 1)%Q ->
  exists w', execute env sts input_data category confidence action policy_id reasoning w
             = (Return (length (decision_objs w)), w').
Proof.
  intros H0 H1. unfold execute, ModerationDecision_new, fle.
  apply Qle_bool_iff in H0, H1. rewrite H0, H1.
  destruct action; run; eexists; reflexivity.
Qed.

(** ** The decision engine *)

Lemma first_of_category_spec category (rs : list ref) ps w :
  mapM (fun r => policy_objs w !! r) rs = Some ps ->
  exists o, first_of_category category rs w = (Return o, w)
            /\ match o with
               | Some r => exists p, policy_objs w !! r = Some p
                                     /\ policy_for category ps = Some p
               | None => policy_for category ps = None
               end.
Proof.
  intros H. apply mapM_Some in H.
  induction H as [|r p rs ps Hr _ IH]; simpl.
  - by exists None.
  - unfold bind, policy_obj. rewrite Hr. unfold policy_for. simpl.
    destruct (String.eqb _ _) eqn:E.
    + exists (Some r). split; [done|]. by exists p.
    + exact IH.
Qed.

Lemma get_policy_run category w :
  _get_policy_for_category category w
  = first_of_category category (dict_values (policies_store w))
      (with_trace (trace w ++ [PoliciesGetAll]) w).
Proof. reflexivity. Qed.

Lemma fge_true a b : (b <= a)%Q -> fge a b = true.
Proof. intros H. by apply Qle_bool_iff. Qed.

Lemma fge_false a b : (a < b)%Q -> fge a b = false.
Proof.
  intros H. unfold fge. destruct (Qle_bool b a) eqn:E; [|done].
  apply Qle_bool_iff in E. by apply Qlt_not_le in H.
Qed.

(** C3. [decide] returns (none, null) without scanning the registry when the
    category is [none]; (none, null) when no policy has the category or the
    first one that has it is disabled; otherwise the action given by the
    thresholds of that policy, compared from the highest to the lowest, with
    the policy's id, also when the action is [none]. *)
Theorem decide_by_thresholds w ps category confidence :
  registry w = Some ps ->
  let scanned := with_trace (trace w ++ [PoliciesGetAll]) w in
  (category = PolicyCategory.NONE ->
     decide category confidence w = (Return (ModerationAction.NONE, None), w))
  /\ (category <> PolicyCategory.NONE -> policy_for category ps = None ->
        decide category confidence w = (Return (ModerationAction.NONE, None), scanned))
  /\ (forall p, category <> PolicyCategory.NONE -> policy_for category ps = Some p ->
        (Policy.enabled p = false ->
           decide category confidence w = (Return (ModerationAction.NONE, None), scanned))
        /\ (Policy.enabled p = true -> (Policy.flag_threshold p <= confidence)%Q ->
              decide category confidence w
              = (Return (ModerationAction.FLAG_FOR_REVIEW, Some (Policy.policy_id p)), scanned))
        /\ (Policy.enabled p = true -> (confidence < Policy.flag_threshold p)%Q ->
            (Policy.mute_threshold p <= confidence)%Q ->
              decide category confidence w
              = (Return (ModerationAction.MUTE, Some (Policy.policy_id p)), scanned))
        /\ (Policy.enabled p = true -> (confidence < Policy.flag_threshold p)%Q ->
            (confidence < Policy.mute_threshold p)%Q ->
            (Policy.warn_threshold p <= confidence)%Q ->
              decide category confidence w
              = (Return (ModerationAction.WARN, Some (Policy.policy_id p)), scanned))
        /\ (Policy.enabled p = true -> (confidence < Policy.flag_threshold p)%Q ->
            (confidence < Policy.mute_threshold p)%Q ->
            (confidence < Policy.warn_threshold p)%Q ->
              decide category confidence w
              = (Return (ModerationAction.NONE, Some (Policy.policy_id p)), scanned))).
Proof.
  intros Hreg scanned.
  split; [intros ->; reflexivity|].
  destruct (first_of_category_spec category (dict_values (policies_store w)) ps scanned)
    as (o & Hrun & Ho); [exact Hreg|].
  assert (Hdec : category <> PolicyCategory.NONE ->
            decide category confidence w
            = match o with
              | None => (Return (ModerationAction.NONE, None), scanned)
              | Some policy =>
                  (p <- policy_obj policy ;;
                   if negb (Policy.enabled p) then ret (ModerationAction.NONE, None)
                   else if fge confidence (Policy.flag_threshold p) then
                     ret (ModerationAction.FLAG_FOR_REVIEW, Some (Policy.policy_id p))
                   else if fge confidence (Policy.mute_threshold p) then
                     ret (ModerationAction.MUTE, Some (Policy.policy_id p))
                   else if fge confidence (Policy.warn_threshold p) then
                     ret (ModerationAction.WARN, Some (Policy.policy_id p))
                   else ret (ModerationAction.NONE, Some (Policy.policy_id p))) scanned
              end).
  { intros Hne. unfold decide.
    destruct (PolicyCategory.eqb category PolicyCategory.NONE) eqn:E;
      [destruct category; simpl in E; congruence|].
    unfold bind at 1. rewrite get_policy_run. fold scanned. rewrite Hrun.
    clear Hrun Ho. destruct o; reflexivity. }
  split.
  - intros Hne Hnone. rewrite (Hdec Hne).
    destruct o as [r|]; [|done]. destruct Ho as (p & _ & Hp). congruence.
  - intros p Hne Hp. rewrite (Hdec Hne).
    destruct o as [r|]; [|congruence]. destruct Ho as (p' & Hr & Hp').
    assert (p' = p) as -> by congruence.
    unfold bind, policy_obj. rewrite Hr.
    repeat split.
    + by intros ->.
    + intros -> H1. cbn. by rewrite (fge_true _ _ H1).
    + intros -> H1 H2. cbn. by rewrite (fge_false _ _ H1), (fge_true _ _ H2).
    + intros -> H1 H2 H3. cbn.
      by rewrite (fge_false _ _ H1), (fge_false _ _ H2), (fge_true _ _ H3).
    + intros -> H1 H2 H3. cbn.
      by rewrite (fge_false _ _ H1), (fge_false _ _ H2), (fge_false _ _ H3).
Qed.

Lemma decide_by_thresholds_witness :
  registry (started_world 0) = Some (default_policies 0)
  /\ decide PolicyCategory.SPAM (55#100) (started_world 0)
     = (Return (ModerationAction.NONE, Some "policy-spam"),
        with_trace [PoliciesGetAll] (started_world 0)).
Proof.
  split; [reflexivity|].
  destruct (decide_by_thresholds (started_world 0) (default_policies 0)
              PolicyCategory.SPAM (55#100) eq_refl) as (_ & _ & H).
  destruct (H (Policy.mk "policy-spam" "Spam" PolicyModelCategory.SPAM
                 "Repetitive, promotional, or unsolicited content"
                 (6#10) (8#10) (9#10) true 0 0)) as (_ & _ & _ & _ & Hnone);
    [discriminate | reflexivity |].
  apply Hnone; reflexivity.
Defined.

(** ** Review and overturn *)

Lemma stored_decision_inv w key d :
  stored_decision w key = Some d ->
  exists r, dict_get key (decisions_store w) = Some r /\ decision_objs w !! r = Some d.
Proof.
  unfold stored_decision. destruct (dict_get key (decisions_store w)) as [r|]; [|done].
  intros H. by exists r.
Qed.

Lemma overturn_run st decision_id reason w r d :
  dict_get decision_id (decisions_store w) = Some r ->
  decision_objs w !! r = Some d ->
  ModerationDecision.status d <> ModerationStatus.OVERTURNED ->
  overturn_decision st decision_id reason w
  = (Return (JObj [ ("status", JStr "success");
                    ("decision_id", JStr decision_id);
                    ("new_status", JStr "overturned") ]),
     with_audit_store (audit_store w ++ [overturned_entry st decision_id reason d])
       (with_decision_objs
          (<[r := ModerationDecision.set_status ModerationStatus.OVERTURNED d]>
             (decision_objs w)) w)).
Proof.
  intros Hk Hr Hs. unfold overturn_decision.
  run. rewrite Hk. run. rewrite Hr. run.
  destruct (ModerationStatus.eqb (ModerationDecision.status d) ModerationStatus.OVERTURNED)
    eqn:E; [destruct (ModerationDecision.status d); try discriminate; done|].
  run. rewrite Hr. run. rewrite (heap_write_lookup _ _ _ _ Hr). run.
  rewrite (dict_set_id _ _ _ Hk). reflexivity.
Qed.

Lemma overturn_rejected st decision_id reason w d :
  stored_decision w decision_id = Some d ->
  ModerationDecision.status d = ModerationStatus.OVERTURNED ->
  overturn_decision st decision_id reason w = (Raise AlreadyOverturned, w).
Proof.
  intros (r & Hk & Hr)%stored_decision_inv Hs. unfold overturn_decision.
  run. rewrite Hk. run. rewrite Hr. run. rewrite Hs. reflexivity.
Qed.





(** ** Failure of the classifier *)

(** The [except] branch of [classify_node], for a classifier object that
    raises. *)
Lemma classify_node_handler env state w e :
  classifier_classify env (ModerationInput.content (ModerationState.input state)) = Raise e ->
  exists s1,
    classify_node env state w
    = (Return s1,
       with_trace
         (trace w ++ [ClassifierCall (ModerationInput.content (ModerationState.input state))])
         w)
    /\ ModerationState.category s1 = Some PolicyCategory.NONE
    /\ ModerationState.classification_reasoning s1
       = Some ("Error during classification: " +:+ str_exc e)
    /\ ModerationState.error s1 = Some (str_exc e).
Proof.
  intros Hc. eexists. split.
  { unfold classify_node, call_classifier. run. rewrite Hc. reflexivity. }
  repeat split.
Qed.

(** The classifier of the application never hands that branch an exception. *)
Lemma app_classifier_returns classifier_chain scoring_chain format_2f content :
  exists category reasoning,
    classifier_classify (app_env classifier_chain scoring_chain format_2f) content
    = Return (category, reasoning).
Proof.
  cbn. unfold ContentClassifier_classify.
  destruct (classifier_chain content) as [[type_repr|category reasoning]|e];
    eexists _, _; reflexivity.
Qed.

(** C5, as the code has it.  When the chain of the classifier raises, the
    failure goes no further than [ContentClassifier.classify], which answers
    the category [none] with the rationale "Classification error: " followed
    by the text of the failure.  [classify_node] takes that answer as any
    other: it writes the category and the rationale and leaves [error] as it
    was, [None].  The pipeline runs to its end: it makes no other external
    call and does not scan the registry, and it stores a pending decision of
    classification [none] and action [none], with one [decision_created]
    entry in the ledger. *)
Theorem classification_failure_contained classifier_chain scoring_chain format_2f sts
    input_data w e :
  classifier_chain (ModerationInput.content input_data) = Raise e ->
  let env := app_env classifier_chain scoring_chain format_2f in
  let rationale := "Classification error: " +:+ str_exc e in
  exists s1 w1 decision w' d entry,
    classifier_classify env (ModerationInput.content input_data)
      = Return (PolicyCategory.NONE, rationale)
    /\ classify_node env (initial_state input_data) w = (Return s1, w1)
    /\ ModerationState.category s1 = Some PolicyCategory.NONE
    /\ ModerationState.classification_reasoning s1 = Some rationale
    /\ ModerationState.error s1 = None
    /\ moderate_content env sts input_data w = (Return (Some decision), w')
    /\ decision_objs w' !! decision = Some d
    /\ stored_decision w' (ModerationDecision.decision_id d) = Some d
    /\ ModerationDecision.classification d = PolicyCategory.NONE
    /\ ModerationDecision.action d = ModerationAction.NONE
    /\ ModerationDecision.status d = ModerationStatus.PENDING
    /\ trace w' = trace w ++ [ClassifierCall (ModerationInput.content input_data)]
    /\ audit_store w' = audit_store w ++ [entry]
    /\ AuditLogEntry.action_type entry = AuditActionType.DECISION_CREATED
    /\ AuditLogEntry.decision_id entry = Some (ModerationDecision.decision_id d).
Proof.
  intros Hc env rationale. subst env rationale.
  assert (Hclassify :
    classifier_classify (app_env classifier_chain scoring_chain format_2f)
      (ModerationInput.content input_data)
    = Return (PolicyCategory.NONE, "Classification error: " +:+ str_exc e)).
  { cbn. unfold ContentClassifier_classify. by rewrite Hc. }
  eexists _, _, _, _, _, _.
  split; [exact Hclassify|].
  split.
  { unfold classify_node, call_classifier, app_env, ContentClassifier_classify.
    run. rewrite Hc. reflexivity. }
  do 3 (split; [reflexivity|]).
  split.
  { unfold moderate_content, pipeline_ainvoke, classify_node, call_classifier, app_env,
      ContentClassifier_classify.
    run. rewrite Hc.
    unfold score_node, score, decide_node, decide, action_node, execute,
      ModerationDecision_new.
    run. change (fle 0%Q 0%Q && fle 0%Q 1%Q) with true. run. reflexivity. }
  split; [cbn; heap_simpl; reflexivity|].
  split; [unfold stored_decision; cbn -[String.append]; heap_simpl;
          cbn -[String.append]; heap_simpl; reflexivity|].
  repeat split.
Qed.

Lemma classification_failure_contained_witness :
  exists decision w' d,
    moderate_content env_llm_down stamps_1 input_1 (started_world 0)
      = (Return (Some decision), w')
    /\ decision_objs w' !! decision = Some d
    /\ ModerationDecision.classification d = PolicyCategory.NONE
    /\ ModerationDecision.action d = ModerationAction.NONE.
Proof.
  destruct (classification_failure_contained
              (fun _ => Raise (Exception "connection refused"))
              (fun _ _ _ => Raise (Exception "connection refused"))
              (fun _ => "0.00") stamps_1 input_1 (started_world 0)
              (Exception "connection refused") eq_refl)
    as (s1 & w1 & decision & w' & d & entry & _ & _ & _ & _ & _ & Hrun & Hd & _ & Hc & Ha & _).
  exists decision, w', d. split; [exact Hrun|]. split; [exact Hd|]. split; [exact Hc | exact Ha].
Defined.

(** C5, as stated, fails on the [error] flag: with the language model out
    of reach, the run of the application ends with a decision of
    classification [none] and action [none], but the [error] of its final
    state is [None], and the rationale is the text of the classifier, not
    the one of the stage's [except] branch. *)
Lemma oracle_failure_sets_no_error_flag :
  let r := pipeline_ainvoke env_llm_down stamps_1 (initial_state input_1) (started_world 0) in
  exists state,
    fst r = Return state
    /\ ModerationState.error state = None
    /\ ModerationState.category state = Some PolicyCategory.NONE
    /\ ModerationState.classification_reasoning state
       = Some "Classification error: connection refused"
    /\ ModerationState.action state = Some ModerationAction.NONE
    /\ ModerationState.decision state = Some 0.
Proof. eexists. vm_compute. repeat split. Qed.

(** ** Relations kept by every step of a coroutine *)

Section Preserves.
Context (R : relation World) `{!Reflexive R} `{!Transitive R}.

Lemma preserves_ret {A} (a : A) : preserves R (ret a).
Proof. intros w. reflexivity. Qed.

Lemma preserves_raise {A} (e : Exc) : preserves R (@raise A e).
Proof. intros w. reflexivity. Qed.

Lemma preserves_bind {A B} (c : M A) (k : A -> M B) :
  preserves R c -> (forall a, preserves R (k a)) -> preserves R (bind c k).
Proof.
  intros Hc Hk w. unfold bind. specialize (Hc w).
  destruct (c w) as [[a|e] w1]; simpl in *; [|done].
  etrans; [exact Hc | apply Hk].
Qed.

Lemma preserves_try_except {A} (c : M A) (handler : Exc -> M A) :
  preserves R c -> (forall e, preserves R (handler e)) -> preserves R (try_except c handler).
Proof.
  intros Hc Hh w. unfold try_except. specialize (Hc w).
  destruct (c w) as [[a|e] w1]; simpl in *; [done|].
  etrans; [exact Hc | apply Hh].
Qed.
End Preserves.

Create HintDb preserves.

(** Split a coroutine along its binds, handlers and case analyses; the
    leaves are closed by the lemmas of the primitives. *)
Ltac preserve :=
  repeat match goal with
  | |- preserves _ (bind _ _) => apply preserves_bind; [apply _ | | intros ?]
  | |- preserves _ (try_except _ _) => apply preserves_try_except; [apply _ | | intros ?]
  | |- preserves _ (ret _) => apply preserves_ret; apply _
  | |- preserves _ (raise _) => apply preserves_raise; apply _
  | |- preserves _ dangling => apply preserves_raise; apply _
  | |- preserves _ (match ?x with _ => _ end) => destruct x
  | |- preserves _ (let '(_, _) := ?x in _) => destruct x
  | |- preserves _ _ => solve [auto with preserves]
  end.

(** A primitive that leaves the compared part of the world alone. *)
Ltac primitive :=
  intros w; cbv beta iota delta
    [bind ret raise dangling emit
     decision_obj decision_setattr decision_new policy_obj policy_setattr policy_new
     decisions_store_get decisions_store_set policies_store_get policies_store_set
     policies_store_get_all audit_store_append call_classifier call_scoring_chain];
  repeat match goal with |- context [match ?x !! ?r with _ => _ end] => destruct (x !! r) end;
  cbn.

(** ** The ledger only grows *)

#[local] Instance ledger_grows_refl : Reflexive ledger_grows.
Proof. intros w. by unfold ledger_grows. Qed.

#[local] Instance ledger_grows_trans : Transitive ledger_grows.
Proof. intros w1 w2 w3. unfold ledger_grows. apply transitivity. Qed.

Ltac prim_grows :=
  primitive; unfold ledger_grows; cbn; first [reflexivity | by apply prefix_app_r].

Lemma grows_emit e : preserves ledger_grows (emit e). Proof. prim_grows. Qed.
Lemma grows_decision_obj r : preserves ledger_grows (decision_obj r). Proof. prim_grows. Qed.
Lemma grows_decision_setattr r f : preserves ledger_grows (decision_setattr r f).
Proof. prim_grows. Qed.
Lemma grows_decision_new d : preserves ledger_grows (decision_new d). Proof. prim_grows. Qed.
Lemma grows_policy_obj r : preserves ledger_grows (policy_obj r). Proof. prim_grows. Qed.
Lemma grows_policy_setattr r f : preserves ledger_grows (policy_setattr r f).
Proof. prim_grows. Qed.
Lemma grows_decisions_store_get k : preserves ledger_grows (decisions_store_get k).
Proof. prim_grows. Qed.
Lemma grows_decisions_store_set k r : preserves ledger_grows (decisions_store_set k r).
Proof. prim_grows. Qed.
Lemma grows_policies_store_get k : preserves ledger_grows (policies_store_get k).
Proof. prim_grows. Qed.
Lemma grows_policies_store_set k r : preserves ledger_grows (policies_store_set k r).
Proof. prim_grows. Qed.
Lemma grows_policies_store_get_all : preserves ledger_grows policies_store_get_all.
Proof. prim_grows. Qed.
Lemma grows_audit_store_append e : preserves ledger_grows (audit_store_append e).
Proof. prim_grows. Qed.
Lemma grows_call_classifier env c : preserves ledger_grows (call_classifier env c).
Proof. prim_grows. Qed.
Lemma grows_call_scoring_chain env a b c : preserves ledger_grows (call_scoring_chain env a b c).
Proof. prim_grows. Qed.

#[local] Hint Resolve grows_emit grows_decision_obj grows_decision_setattr grows_decision_new
  grows_policy_obj grows_policy_setattr grows_decisions_store_get grows_decisions_store_set
  grows_policies_store_get grows_policies_store_set grows_policies_store_get_all
  grows_audit_store_append grows_call_classifier grows_call_scoring_chain : preserves.

Lemma grows_first_of_category category rs :
  preserves ledger_grows (first_of_category category rs).
Proof. induction rs as [|r rs IH]; simpl; preserve. Qed.

Lemma grows_create_audit_entry st decision_id action_type reason metadata :
  preserves ledger_grows (_create_audit_entry st decision_id action_type reason metadata).
Proof. unfold _create_audit_entry. preserve. Qed.

Lemma grows_execute env sts input_data category confidence action policy_id reasoning :
  preserves ledger_grows
    (execute env sts input_data category confidence action policy_id reasoning).
Proof.
  pose proof grows_create_audit_entry.
  unfold execute, ModerationDecision_new, _execute_action. preserve.
Qed.

Lemma grows_moderate_content env sts input_data :
  preserves ledger_grows (moderate_content env sts input_data).
Proof.
  pose proof grows_first_of_category. pose proof grows_execute.
  unfold moderate_content, pipeline_ainvoke, classify_node, score_node, score, decide_node,
    decide, decide_without_category, decide_without_confidence, _get_policy_for_category,
    action_node.
  preserve.
Qed.

Lemma grows_review st decision_id approved notes :
  preserves ledger_grows (review_decision st decision_id approved notes).
Proof. unfold review_decision. preserve. Qed.

Lemma grows_overturn st decision_id reason :
  preserves ledger_grows (overturn_decision st decision_id reason).
Proof. unfold overturn_decision. preserve. Qed.

Lemma grows_apply_update {A} field (new : option A) get set dump r changes :
  preserves ledger_grows (apply_update field new get set dump r changes).
Proof. unfold apply_update. preserve. Qed.

Lemma grows_update_policy now st policy_id u :
  preserves ledger_grows (update_policy now st policy_id u).
Proof.
  unfold update_policy. preserve; apply grows_apply_update.
Qed.

Lemma grows_toggle_policy now st policy_id :
  preserves ledger_grows (toggle_policy now st policy_id).
Proof. unfold toggle_policy. preserve. Qed.

Lemma run_op_grows op w : ledger_grows w (run_op op w).
Proof.
  destruct op; simpl.
  - apply grows_moderate_content.
  - apply grows_review.
  - apply grows_overturn.
  - apply grows_update_policy.
  - apply grows_toggle_policy.
Qed.

Lemma run_ops_grows ops w : ledger_grows w (run_ops ops w).
Proof.
  revert w. induction ops as [|op ops IH]; intros w; simpl.
  - reflexivity.
  - etrans; [apply run_op_grows | apply IH].
Qed.

(** ** The snapshot of a decision in the ledger *)

(** C9. The [decision_created] entry appended by [execute] holds in its
    metadata, under [decision], every field of the decision with the value
    it was created with, the status being "pending", and under [input] every
    field of the input.  The entry says "pending" also when the executor has
    since written [executed] to the stored object, and whatever operations
    follow, reviews and overturns among them, the ledger still holds that
    entry, unchanged, at the same place. *)
Theorem decision_created_snapshot_is_durable env sts input_data category confidence action
    policy_id reasoning w decision w1 :
  execute env sts input_data category confidence action policy_id reasoning w
    = (Return decision, w1) ->
  exists d e,
    decision_objs w1 !! decision = Some d
    /\ d = ModerationDecision.mk
             (ModerationDecision.decision_id d)
             (ModerationInput.room_id input_data)
             (ModerationInput.participant_id input_data)
             (ModerationInput.participant_identity input_data)
             (ModerationInput.content input_data)
             (ModerationInput.content_type input_data)
             category confidence action
             (if ModerationAction.eqb action ModerationAction.NONE
              then ModerationStatus.PENDING else ModerationStatus.EXECUTED)
             policy_id (ModerationDecision.timestamp d) (Some reasoning)
             (ModerationInput.metadata input_data)
    /\ audit_store w1 !! length (audit_store w) = Some e
    /\ AuditLogEntry.action_type e = AuditActionType.DECISION_CREATED
    /\ AuditLogEntry.decision_id e = Some (ModerationDecision.decision_id d)
    /\ AuditLogEntry.metadata e
       = Some (JObj [
           ("decision",
            JObj [ ("decision_id", JStr (ModerationDecision.decision_id d));
                   ("room_id", JStr (ModerationInput.room_id input_data));
                   ("participant_id", JStr (ModerationInput.participant_id input_data));
                   ("participant_identity",
                    JStr (ModerationInput.participant_identity input_data));
                   ("content", JStr (ModerationInput.content input_data));
                   ("content_type",
                    JStr (ContentType.value (ModerationInput.content_type input_data)));
                   ("classification", JStr (PolicyCategory.value category));
                   ("confidence_score", JNum confidence);
                   ("action", JStr (ModerationAction.value action));
                   ("status", JStr "pending");
                   ("policy_id", json_opt_str policy_id);
                   ("timestamp", JTime (ModerationDecision.timestamp d));
                   ("reasoning", JStr reasoning);
                   ("metadata", json_opt (ModerationInput.metadata input_data)) ]);
           ("input",
            JObj [ ("room_id", JStr (ModerationInput.room_id input_data));
                   ("participant_id", JStr (ModerationInput.participant_id input_data));
                   ("participant_identity",
                    JStr (ModerationInput.participant_identity input_data));
                   ("content", JStr (ModerationInput.content input_data));
                   ("content_type",
                    JStr (ContentType.value (ModerationInput.content_type input_data)));
                   ("metadata", json_opt (ModerationInput.metadata input_data)) ]) ])
    /\ forall ops, audit_store (run_ops ops w1) !! length (audit_store w) = Some e.
Proof.
  unfold execute, ModerationDecision_new.
  destruct (fle 0%Q confidence && fle confidence 1%Q) eqn:Hrange; [|discriminate].
  destruct action; run; intros [= <- <-];
    eexists _, _; (split; [cbn; heap_simpl; reflexivity|]);
    (split; [reflexivity|]);
    match goal with
    | |- ?l !! _ = Some _ /\ _ =>
        assert (Hl : l !! length (audit_store w) = Some _)
          by (cbn; rewrite <- ?app_assoc; by apply list_lookup_middle)
    end;
    (split; [exact Hl|]); do 3 (split; [reflexivity|]);
    intros ops; (eapply prefix_lookup_Some; [exact Hl|]); apply run_ops_grows.
Qed.

Lemma decision_created_snapshot_is_durable_witness :
  fst run_1 = Return 0
  /\ exists d' e,
       stored_decision (run_ops ops_1 (snd run_1)) "dec-0000000000d1" = Some d'
       /\ ModerationDecision.status d' = ModerationStatus.REVIEWED
       /\ audit_store (run_ops ops_1 (snd run_1)) !! 0 = Some e
       /\ AuditLogEntry.metadata e
          = Some (JObj [
              ("decision",
               JObj [ ("decision_id", JStr "dec-0000000000d1");
                      ("room_id", JStr "room-1");
                      ("participant_id", JStr "part-1");
                      ("participant_identity", JStr "alice");
                      ("content", JStr "buy now");
                      ("content_type", JStr "text");
                      ("classification", JStr "spam");
                      ("confidence_score", JNum (95#100));
                      ("action", JStr "flag_for_review");
                      ("status", JStr "pending");
                      ("policy_id", JStr "policy-spam");
                      ("timestamp", JTime 10);
                      ("reasoning", JStr "promotional");
                      ("metadata", JNull) ]);
              ("input",
               JObj [ ("room_id", JStr "room-1");
                      ("participant_id", JStr "part-1");
                      ("participant_identity", JStr "alice");
                      ("content", JStr "buy now");
                      ("content_type", JStr "text");
                      ("metadata", JNull) ]) ]).
Proof.
  split; [reflexivity|].
  destruct (decision_created_snapshot_is_durable env_spam stamps_1 input_1
              PolicyCategory.SPAM (95#100) ModerationAction.FLAG_FOR_REVIEW
              (Some "policy-spam") "promotional" (started_world 0) 0 (snd run_1))
    as (d & e & Hd & _ & _ & _ & _ & Hm & Hops); [vm_compute; reflexivity|].
  eexists _, e. split; [vm_compute; reflexivity|]. split; [reflexivity|].
  split; [exact (Hops ops_1)|].
  rewrite Hm. vm_compute in Hd. injection Hd as <-. reflexivity.
Defined.

(** ** Stored decisions *)

#[local] Instance same_decisions_refl : Reflexive same_decisions.
Proof. by intros w. Qed.

#[local] Instance same_decisions_trans : Transitive same_decisions.
Proof. intros w1 w2 w3 [H1 H2] [H3 H4]. split; congruence. Qed.

Ltac prim_same := primitive; by unfold same_decisions.

Lemma same_emit e : preserves same_decisions (emit e). Proof. prim_same. Qed.
Lemma same_decision_obj r : preserves same_decisions (decision_obj r). Proof. prim_same. Qed.
Lemma same_policy_obj r : preserves same_decisions (policy_obj r). Proof. prim_same. Qed.
Lemma same_policy_setattr r f : preserves same_decisions (policy_setattr r f).
Proof. prim_same. Qed.
Lemma same_decisions_store_get k : preserves same_decisions (decisions_store_get k).
Proof. prim_same. Qed.
Lemma same_policies_store_get k : preserves same_decisions (policies_store_get k).
Proof. prim_same. Qed.
Lemma same_policies_store_set k r : preserves same_decisions (policies_store_set k r).
Proof. prim_same. Qed.
Lemma same_policies_store_get_all : preserves same_decisions policies_store_get_all.
Proof. prim_same. Qed.
Lemma same_audit_store_append e : preserves same_decisions (audit_store_append e).
Proof. prim_same. Qed.
Lemma same_call_classifier env c : preserves same_decisions (call_classifier env c).
Proof. prim_same. Qed.
Lemma same_call_scoring_chain env a b c :
  preserves same_decisions (call_scoring_chain env a b c).
Proof. prim_same. Qed.

#[local] Hint Resolve same_emit same_decision_obj same_policy_obj same_policy_setattr
  same_decisions_store_get same_policies_store_get same_policies_store_set
  same_policies_store_get_all same_audit_store_append same_call_classifier
  same_call_scoring_chain : preserves.

Lemma same_first_of_category category rs :
  preserves same_decisions (first_of_category category rs).
Proof. induction rs as [|r rs IH]; simpl; preserve. Qed.

Lemma same_classify_node env state : preserves same_decisions (classify_node env state).
Proof. unfold classify_node. preserve. Qed.

Lemma same_score_node env state : preserves same_decisions (score_node env state).
Proof. unfold score_node, score. preserve. Qed.

Lemma same_decide_node state : preserves same_decisions (decide_node state).
Proof.
  pose proof same_first_of_category.
  unfold decide_node, decide, decide_without_category, decide_without_confidence,
    _get_policy_for_category.
  preserve.
Qed.

Lemma same_apply_update {A} field (new : option A) get set dump r changes :
  preserves same_decisions (apply_update field new get set dump r changes).
Proof. unfold apply_update. preserve. Qed.

Lemma same_update_policy now st policy_id u :
  preserves same_decisions (update_policy now st policy_id u).
Proof. unfold update_policy. preserve; apply same_apply_update. Qed.

Lemma same_toggle_policy now st policy_id :
  preserves same_decisions (toggle_policy now st policy_id).
Proof. unfold toggle_policy. preserve. Qed.

Lemma settled_rank s s' : settled s s' -> status_rank s <= status_rank s'.
Proof. intros [-> | [-> | ->]]; destruct s; simpl; lia. Qed.

#[local] Instance decisions_kept_refl : Reflexive decisions_kept.
Proof.
  intros w key d Hd. exists d. split; [done|]. split; [by destruct d|by left].
Qed.

#[local] Instance decisions_kept_trans : Transitive decisions_kept.
Proof.
  intros w1 w2 w3 H12 H23 key d Hd.
  destruct (H12 key d Hd) as (d2 & Hd2 & E2 & S2).
  destruct (H23 key d2 Hd2) as (d3 & Hd3 & E3 & S3).
  exists d3. split; [done|]. split.
  - rewrite E3, E2. by destruct d.
  - destruct S3 as [-> | [-> | ->]]; [done | by right; left | by right; right].
Qed.

Lemma same_decisions_kept w w' : same_decisions w w' -> decisions_kept w w'.
Proof.
  intros [Ho Hs] key d Hd. exists d. unfold stored_decision in *. rewrite Ho, Hs.
  split; [done|]. split; [by destruct d|by left].
Qed.

(** A status written through a reference, on whatever ledger. *)
Lemma setattr_kept w r d s' entries :
  decision_objs w !! r = Some d ->
  s' = ModerationStatus.REVIEWED \/ s' = ModerationStatus.OVERTURNED ->
  decisions_kept w
    (with_audit_store entries
       (with_decision_objs (<[r := ModerationDecision.set_status s' d]> (decision_objs w)) w)).
Proof.
  intros Hr Hs key d0 Hd0. unfold stored_decision in *.
  cbn [decisions_store decision_objs with_audit_store with_decision_objs].
  destruct (dict_get key (decisions_store w)) as [r0|]; [|done].
  change (decision_objs w !! r0 = Some d0) in Hd0.
  change (exists d',
    <[r := ModerationDecision.set_status s' d]> (decision_objs w) !! r0 = Some d'
    /\ d' = ModerationDecision.set_status (ModerationDecision.status d') d0
    /\ settled (ModerationDecision.status d0) (ModerationDecision.status d')).
  destruct (Nat.eq_dec r0 r) as [->|Hne].
  - pose proof (eq_trans (eq_sym Hd0) Hr) as E. injection E as ->.
    exists (ModerationDecision.set_status s' d).
    split; [by eapply heap_write_lookup|]. split; [reflexivity|]. by right.
  - exists d0. rewrite list_lookup_insert_ne by done.
    split; [done|]. split; [by destruct d0|by left].
Qed.

Lemma review_run st decision_id approved notes w r d :
  dict_get decision_id (decisions_store w) = Some r ->
  decision_objs w !! r = Some d ->
  review_decision st decision_id approved notes w
  = (Return (JObj [ ("status", JStr "success");
                    ("decision_id", JStr decision_id);
                    ("new_status", JStr "reviewed") ]),
     with_audit_store (audit_store w ++ [reviewed_entry st decision_id approved notes d])
       (with_decision_objs
          (<[r := ModerationDecision.set_status ModerationStatus.REVIEWED d]>
             (decision_objs w)) w)).
Proof.
  intros Hk Hr. unfold review_decision.
  run. rewrite Hk. run. rewrite Hr. run.
  rewrite (heap_write_lookup _ _ _ _ Hr). run.
  rewrite (dict_set_id _ _ _ Hk). reflexivity.
Qed.

Lemma review_kept st decision_id approved notes w :
  decisions_kept w (snd (review_decision st decision_id approved notes w)).
Proof.
  destruct (dict_get decision_id (decisions_store w)) as [r|] eqn:Hk.
  - destruct (decision_objs w !! r) as [d|] eqn:Hr.
    + rewrite (review_run _ _ _ _ _ _ _ Hk Hr). apply setattr_kept; auto.
    + unfold review_decision. run. rewrite Hk. run. rewrite Hr. reflexivity.
  - unfold review_decision. run. rewrite Hk. reflexivity.
Qed.

Lemma overturn_kept st decision_id reason w :
  decisions_kept w (snd (overturn_decision st decision_id reason w)).
Proof.
  destruct (dict_get decision_id (decisions_store w)) as [r|] eqn:Hk.
  - destruct (decision_objs w !! r) as [d|] eqn:Hr.
    + assert (ModerationDecision.status d = ModerationStatus.OVERTURNED
              \/ ModerationDecision.status d <> ModerationStatus.OVERTURNED) as [Hs|Hs]
        by (destruct (ModerationDecision.status d); auto; right; discriminate).
      * rewrite (overturn_rejected st decision_id reason w d); [reflexivity| |done].
        unfold stored_decision. by rewrite Hk.
      * rewrite (overturn_run _ _ _ _ _ _ Hk Hr Hs). apply setattr_kept; auto.
    + unfold overturn_decision. run. rewrite Hk. run. rewrite Hr. reflexivity.
  - unfold overturn_decision. run. rewrite Hk. reflexivity.
Qed.

Lemma execute_kept env sts input_data category confidence action policy_id reasoning w :
  dict_get ("dec-" +:+ hex12 (st_decision sts)) (decisions_store w) = None ->
  decisions_kept w
    (snd (execute env sts input_data category confidence action policy_id reasoning w)).
Proof.
  intros Hfresh. unfold execute, ModerationDecision_new.
  destruct (fle 0%Q confidence && fle confidence 1%Q); [|reflexivity].
  destruct action; run; intros key d Hd; exists d;
    (split; [|split; [by destruct d|by left]]);
    unfold stored_decision in *; cbn -[String.append];
    (destruct (String.string_dec key ("dec-" +:+ hex12 (st_decision sts))) as [->|Hne];
       [by rewrite Hfresh in Hd|]);
    rewrite ?dict_get_set_ne by done;
    (destruct (dict_get key (decisions_store w)) as [r0|]; [|done]);
    cbn in *; by apply lookup_app_l_Some.
Qed.

Lemma action_node_kept env sts state w :
  dict_get ("dec-" +:+ hex12 (st_decision sts)) (decisions_store w) = None ->
  decisions_kept w (snd (action_node env sts state w)).
Proof.
  intros Hfresh. unfold action_node, try_except, bind.
  destruct (ModerationState.category state) as [category|]; [|reflexivity].
  destruct (ModerationState.confidence state) as [confidence|]; [|reflexivity].
  destruct (ModerationState.action state) as [action|]; [|reflexivity].
  pose proof (execute_kept env sts (ModerationState.input state) category confidence action
                (ModerationState.policy_id state) (full_reasoning state) w Hfresh) as H.
  destruct (execute _ _ _ _ _ _ _ _ w) as [[r|e] w']; exact H.
Qed.

Lemma moderate_content_kept env sts input_data w :
  dict_get ("dec-" +:+ hex12 (st_decision sts)) (decisions_store w) = None ->
  decisions_kept w (snd (moderate_content env sts input_data w)).
Proof.
  intros Hfresh. unfold moderate_content, pipeline_ainvoke.
  unfold bind at 1. unfold bind at 1.
  pose proof (same_classify_node env (initial_state input_data) w) as H1.
  destruct (classify_node env (initial_state input_data) w) as [[s1|e1] w1]; cbn in H1;
    [|by apply same_decisions_kept].
  unfold bind at 1.
  pose proof (same_score_node env s1 w1) as H2.
  destruct (score_node env s1 w1) as [[s2|e2] w2]; cbn in H2;
    [|apply same_decisions_kept; by etrans].
  unfold bind at 1.
  pose proof (same_decide_node s2 w2) as H3.
  destruct (decide_node s2 w2) as [[s3|e3] w3]; cbn in H3;
    [|apply same_decisions_kept; by repeat (etrans; [eassumption|])].
  assert (H13 : same_decisions w w3) by by repeat (etrans; [eassumption|]).
  assert (Hfresh3 : dict_get ("dec-" +:+ hex12 (st_decision sts)) (decisions_store w3) = None).
  { destruct H13 as [_ ->]. exact Hfresh. }
  pose proof (action_node_kept env sts s3 w3 Hfresh3) as H4.
  destruct (action_node env sts s3 w3) as [[s4|e4] w4]; cbn in H4 |- *;
    (etrans; [by apply same_decisions_kept|exact H4]).
Qed.

Lemma run_op_kept op w : fresh_id op w -> decisions_kept w (run_op op w).
Proof.
  destruct op; simpl; intros Hfresh.
  - by apply moderate_content_kept.
  - apply review_kept.
  - apply overturn_kept.
  - apply same_decisions_kept, same_update_policy.
  - apply same_decisions_kept, same_toggle_policy.
Qed.

(** C6, as the code has it.  A decision that is stored stays stored under
    its key through every run of pipeline executions (drawing identifiers not
    in use), reviews, overturns and policy operations; only its status
    changes, and it either stays or becomes reviewed or overturned: it never
    returns to pending or executed. *)
Theorem status_never_returns ops w key d :
  fresh_ids ops w ->
  stored_decision w key = Some d ->
  exists d',
    stored_decision (run_ops ops w) key = Some d'
    /\ d' = ModerationDecision.set_status (ModerationDecision.status d') d
    /\ settled (ModerationDecision.status d) (ModerationDecision.status d')
    /\ status_rank (ModerationDecision.status d) <= status_rank (ModerationDecision.status d').
Proof.
  intros Hfresh Hd.
  assert (Hkept : decisions_kept w (run_ops ops w)).
  { clear Hd. revert w Hfresh. induction ops as [|op ops IH]; intros w Hfresh; simpl.
    - reflexivity.
    - destruct Hfresh as [H1 H2]. etrans; [by apply run_op_kept | by apply IH]. }
  destruct (Hkept key d Hd) as (d' & Hd' & E & S).
  exists d'. repeat split; try done. by apply settled_rank.
Qed.

Lemma status_never_returns_witness :
  fresh_ids ops_1 (snd run_1)
  /\ exists d', stored_decision (run_ops ops_1 (snd run_1)) "dec-0000000000d1" = Some d'
                /\ ModerationDecision.status d' = ModerationStatus.REVIEWED.
Proof.
  split; [repeat split|].
  destruct (status_never_returns ops_1 (snd run_1) "dec-0000000000d1"
              (ModerationDecision.mk "dec-0000000000d1" "room-1" "part-1" "alice" "buy now"
                 ContentType.TEXT PolicyCategory.SPAM (95#100)
                 ModerationAction.FLAG_FOR_REVIEW ModerationStatus.EXECUTED
                 (Some "policy-spam") 10 (Some "promotional") None))
    as (d' & Hd' & _ & _ & _); [repeat split | reflexivity |].
  exists d'. split; [exact Hd'|].
  vm_compute in Hd'. by injection Hd' as <-.
Defined.

(** C6, as stated, fails: a review moves an overturned decision to
    reviewed, which is not forward along pending, executed, then reviewed or
    overturned. *)
Lemma review_moves_out_of_overturned :
  let w2 := run_op (Overturn (stamp "0000000000a3" 20) "dec-0000000000d1" "appeal")
              (snd run_1) in
  let w3 := run_op (Review (stamp "0000000000a4" 21) "dec-0000000000d1" true None) w2 in
  (ModerationDecision.status <$> stored_decision w2 "dec-0000000000d1")
    = Some ModerationStatus.OVERTURNED
  /\ (ModerationDecision.status <$> stored_decision w3 "dec-0000000000d1")
       = Some ModerationStatus.REVIEWED
  /\ ~ forward_only ModerationStatus.OVERTURNED ModerationStatus.REVIEWED.
Proof.
  split; [reflexivity|]. split; [reflexivity|].
  intros [H|H]; [discriminate | simpl in H; lia].
Qed.

(** ** Policy updates *)

Lemma stored_policy_inv w key p :
  stored_policy w key = Some p ->
  exists r, dict_get key (policies_store w) = Some r /\ policy_objs w !! r = Some p.
Proof.
  unfold stored_policy. destruct (dict_get key (policies_store w)) as [r|]; [|done].
  intros H. by exists r.
Qed.

Lemma world_policy_objs_id w : with_policy_objs (policy_objs w) w = w.
Proof. by destruct w. Qed.

(** One block of the handler, on an object that has been written to. *)
Lemma apply_update_run {A} field (new : option A) get set dump r changes h w p :
  r < length h ->
  apply_update field new get set dump r changes (with_policy_objs (<[r := p]> h) w)
  = (Return (match new with
             | Some v => dict_set field (JObj [("old", dump (get p)); ("new", dump v)]) changes
             | None => changes
             end),
     with_policy_objs (<[r := match new with Some v => set v p | None => p end]> h) w).
Proof.
  intros Hr. unfold apply_update. destruct new as [v|]; [|reflexivity].
  run. rewrite list_lookup_insert_eq by done. run.
  rewrite list_lookup_insert_eq by done. run.
  by rewrite list_insert_insert_eq.
Qed.

Lemma update_policy_run now st policy_id u w r p :
  dict_get policy_id (policies_store w) = Some r ->
  policy_objs w !! r = Some p ->
  update_policy now st policy_id u w
  = if thresholds_ordered (merged p u) then
      (Return (Policy.set_updated_at now (merged p u)),
       with_audit_store
         (audit_store w ++
          match supplied_changes p u with
          | [] => []
          | changes =>
              [policy_updated_entry st policy_id (merged p u) changes]
          end)
         (with_policy_objs
            (<[r := Policy.set_updated_at now (merged p u)]> (policy_objs w)) w))
    else
      (Raise InvalidThresholds, with_policy_objs (<[r := merged p u]> (policy_objs w)) w).
Proof.
  intros Hk Hr. unfold update_policy.
  assert (Hlen : r < length (policy_objs w)) by by eapply lookup_lt_Some.
  unfold bind at 1. unfold policies_store_get. rewrite Hk.
  rewrite <- (world_policy_objs_id w) at 1.
  rewrite <- (list_insert_id (policy_objs w) r p Hr) at 1.
  do 6 (unfold bind at 1; rewrite apply_update_run by done).
  unfold bind at 1, policy_obj at 1. cbn [policy_objs with_policy_objs].
  rewrite list_lookup_insert_eq by done.
  destruct u as [[n|] [de|] [wt|] [mt|] [ft|] [en|]];
    cbn [PolicyUpdate.name PolicyUpdate.description PolicyUpdate.warn_threshold
         PolicyUpdate.mute_threshold PolicyUpdate.flag_threshold PolicyUpdate.enabled
         merged supplied_changes change];
    match goal with
    | |- context [thresholds_ordered ?q] => destruct (thresholds_ordered q) eqn:E
    end; cbn [negb]; try reflexivity;
    run; rewrite !list_lookup_insert_eq by done; run;
    rewrite !list_lookup_insert_eq by (rewrite ?length_insert; done); run;
    rewrite ?list_insert_insert_eq, (dict_set_id _ _ _ Hk);
    destruct w; cbn -[String.append]; rewrite ?app_nil_r; reflexivity.
Qed.

Lemma toggle_policy_run now st policy_id w r p :
  dict_get policy_id (policies_store w) = Some r ->
  policy_objs w !! r = Some p ->
  toggle_policy now st policy_id w
  = (Return (JObj [ ("status", JStr "success");
                    ("policy_id", JStr policy_id);
                    ("enabled", JBool (negb (Policy.enabled p))) ]),
     with_audit_store (audit_store w ++ [policy_toggled_entry st policy_id p])
       (with_policy_objs
          (<[r := Policy.set_updated_at now
                    (Policy.set_enabled (negb (Policy.enabled p)) p)]> (policy_objs w)) w)).
Proof.
  intros Hk Hr. unfold toggle_policy.
  assert (Hlen : r < length (policy_objs w)) by by eapply lookup_lt_Some.
  run. rewrite Hk. run. rewrite Hr. run. rewrite Hr. run.
  rewrite !list_lookup_insert_eq by done. run.
  rewrite !list_lookup_insert_eq by (rewrite ?length_insert; done). run.
  rewrite ?list_insert_insert_eq, (dict_set_id _ _ _ Hk).
  destruct w; reflexivity.
Qed.

Lemma update_policy_invalid now st policy_id u w p :
  stored_policy w policy_id = Some p ->
  thresholds_ordered (merged p u) = false ->
  exists w', update_policy now st policy_id u w = (Raise InvalidThresholds, w')
             /\ audit_store w' = audit_store w
             /\ policies_store w' = policies_store w
             /\ stored_policy w' policy_id = Some (merged p u).
Proof.
  intros (r & Hk & Hr)%stored_policy_inv Hbad.
  rewrite (update_policy_run _ _ _ _ _ _ _ Hk Hr), Hbad.
  eexists. split; [reflexivity|]. do 2 (split; [reflexivity|]).
  unfold stored_policy. cbn. rewrite Hk. cbn. by eapply heap_write_lookup.
Qed.

(** C8, as the code has it.  An update that returns appends one
    [policy_updated] entry when it supplies at least one field, with a
    [changes] map that has an item [{old, new}] for every supplied field,
    changed or not, and no entry when it supplies none; a toggle appends one
    [policy_updated] entry whose metadata has [old_enabled] and
    [new_enabled] and no [changes] map. *)
Theorem policy_changes_audited now st policy_id w p :
  stored_policy w policy_id = Some p ->
  (forall u response w',
     update_policy now st policy_id u w = (Return response, w') ->
     (supplied_changes p u = [] -> audit_store w' = audit_store w)
     /\ (supplied_changes p u <> [] ->
         exists e, audit_store w' = audit_store w ++ [e]
                   /\ AuditLogEntry.action_type e = AuditActionType.POLICY_UPDATED
                   /\ AuditLogEntry.metadata e
                      = Some (JObj [ ("policy_id", JStr policy_id);
                                     ("policy_name", JStr (Policy.name (merged p u)));
                                     ("changes", JObj (supplied_changes p u)) ])))
  /\ (exists response w' e,
        toggle_policy now st policy_id w = (Return response, w')
        /\ audit_store w' = audit_store w ++ [e]
        /\ AuditLogEntry.action_type e = AuditActionType.POLICY_UPDATED
        /\ AuditLogEntry.metadata e
           = Some (JObj [ ("policy_id", JStr policy_id);
                          ("policy_name", JStr (Policy.name p));
                          ("old_enabled", JBool (Policy.enabled p));
                          ("new_enabled", JBool (negb (Policy.enabled p))) ])).
Proof.
  intros (r & Hk & Hr)%stored_policy_inv. split.
  - intros u response w'. rewrite (update_policy_run _ _ _ _ _ _ _ Hk Hr).
    destruct (thresholds_ordered (merged p u)); [|discriminate].
    intros [= <- <-]. cbn [audit_store with_audit_store with_policy_objs]. split.
    + intros ->. by rewrite app_nil_r.
    + intros Hne. destruct (supplied_changes p u) as [|c cs] eqn:E; [done|].
      eexists. split; [reflexivity|]. split; reflexivity.
  - rewrite (toggle_policy_run _ _ _ _ _ _ Hk Hr).
    eexists _, _, _. split; [reflexivity|]. split; [reflexivity|]. split; reflexivity.
Qed.

Lemma policy_changes_audited_witness :
  stored_policy (started_world 0) "policy-spam" <> None
  /\ exists e,
       audit_store (snd (update_policy 0 (stamp "0000000000a6" 1) "policy-spam"
                           same_name_update (started_world 0))) = [e]
       /\ AuditLogEntry.action_type e = AuditActionType.POLICY_UPDATED.
Proof.
  split; [discriminate|].
  destruct (policy_changes_audited 0 (stamp "0000000000a6" 1) "policy-spam" (started_world 0)
              (Policy.mk "policy-spam" "Spam" PolicyModelCategory.SPAM
                 "Repetitive, promotional, or unsolicited content"
                 (6#10) (8#10) (9#10) true 0 0) eq_refl) as [Hupdate _].
  destruct (Hupdate same_name_update
              (Policy.mk "policy-spam" "Spam" PolicyModelCategory.SPAM
                 "Repetitive, promotional, or unsolicited content"
                 (6#10) (8#10) (9#10) true 0 0)
              (snd (update_policy 0 (stamp "0000000000a6" 1) "policy-spam"
                      same_name_update (started_world 0))))
    as [_ Hsome]; [vm_compute; reflexivity|].
  destruct Hsome as (e & He & Ht & _); [discriminate|].
  exists e. split; [exact He | exact Ht].
Defined.

(** C8, as stated, fails: an update that supplies the name the policy
    already has changes no field and still appends an entry, and the entry of
    a toggle has no [changes] map. *)
Lemma update_policy_unchanged_still_audited :
  let w := started_world 0 in
  let r := update_policy 0 (stamp "0000000000a6" 1) "policy-spam" same_name_update w in
  let t := toggle_policy 0 (stamp "0000000000a7" 2) "policy-spam" w in
  (exists p, fst r = Return p)
  /\ stored_policy (snd r) "policy-spam" = stored_policy w "policy-spam"
  /\ audit_store w = []
  /\ length (audit_store (snd r)) = 1
  /\ (AuditLogEntry.metadata <$> audit_store (snd t))
     = [ Some (JObj [ ("policy_id", JStr "policy-spam");
                      ("policy_name", JStr "Spam");
                      ("old_enabled", JBool true);
                      ("new_enabled", JBool false) ]) ].
Proof. vm_compute. split; [eexists; reflexivity|]. repeat split. Qed.

(** C2, on the code.  The update of the started registry that raises the warn
    threshold of the harassment policy to 0.9 is rejected with
    InvalidThresholds and appends nothing, but the stored policy has the new
    threshold, out of order with the two others, and a later decision at
    confidence 0.6 is no longer a warning. *)
Theorem update_policy_rejected_write_survives :
  let w := started_world 0 in
  let r := update_policy 5 (stamp "0000000000a5" 5) "policy-harassment" bad_update w in
  fst r = Raise InvalidThresholds
  /\ audit_store (snd r) = audit_store w
  /\ (Policy.warn_threshold <$> stored_policy w "policy-harassment") = Some (5#10)
  /\ (Policy.warn_threshold <$> stored_policy (snd r) "policy-harassment") = Some (9#10)
  /\ (thresholds_ordered <$> stored_policy (snd r) "policy-harassment") = Some false
  /\ fst (decide PolicyCategory.HARASSMENT (6#10) w)
     = Return (ModerationAction.WARN, Some "policy-harassment")
  /\ fst (decide PolicyCategory.HARASSMENT (6#10) (snd r))
     = Return (ModerationAction.NONE, Some "policy-harassment").
Proof. vm_compute. repeat split. Qed.

(** ** Scoring of a non-violation *)

(** C7, as the code has it.  For the category [none], [score] returns the
    confidence 0.0 with the rationale "No violation detected" (capital N) and
    leaves the world as it is: the scoring chain is not invoked, whatever the
    chain is. *)
Theorem score_none_short_circuit env content reasoning w :
  score env content PolicyCategory.NONE reasoning w
  = (Return (0%Q, "No violation detected"), w).
Proof. reflexivity. Qed.

(** For any other category the chain is invoked, once. *)
Lemma score_violation_calls_chain env content category reasoning w :
  category <> PolicyCategory.NONE ->
  trace (snd (score env content category reasoning w))
  = trace w ++ [ScoringChainCall content (PolicyCategory.value category) reasoning].
Proof.
  intros Hne. unfold score, call_scoring_chain.
  destruct category; try done; run;
    destruct (scoring_chain_ainvoke env _ _ _); reflexivity.
Qed.

(** C7, as stated, fails on the letter case of the rationale. *)
Lemma score_none_rationale_case :
  fst (score env_down "buy now" PolicyCategory.NONE "" (started_world 0))
  <> Return (0%Q, "no violation detected").
Proof. cbn. intros H. discriminate H. Qed.

(** ** Empty string filters *)

(** C10. In the list and export queries, a string filter given as the empty
    string selects what the absent filter selects. *)
Theorem empty_string_filter_is_absent w (room_id participant_id : option string)
    classification action status min_confidence max_confidence action_type actor
    start_time end_time format limit offset :
  list_audit_logs w (Some "") action_type actor start_time end_time limit offset
    = list_audit_logs w None action_type actor start_time end_time limit offset
  /\ export_audit_logs w format (Some "") action_type actor start_time end_time
     = export_audit_logs w format None action_type actor start_time end_time
  /\ list_decisions w (Some "") participant_id classification action status
       min_confidence max_confidence limit offset
     = list_decisions w None participant_id classification action status
         min_confidence max_confidence limit offset
  /\ list_decisions w room_id (Some "") classification action status
       min_confidence max_confidence limit offset
     = list_decisions w room_id None classification action status
         min_confidence max_confidence limit offset.
Proof. repeat split. Qed.

(** * Further properties *)

(** ** The stores *)

Section StoreFacts.
Context {T : Type}.
Implicit Types (data : list (string * T)) (key : string) (value : T).

Lemma contains_dict_get data key :
  InMemoryStore.contains key data
  = match dict_get key data with Some _ => true | None => false end.
Proof.
  induction data as [|[k v] data IH]; simpl; [done|].
  by destruct (String.eqb k key).
Qed.

Lemma contains_keys data key : InMemoryStore.contains key data = true <-> key ∈ data.*1.
Proof.
  induction data as [|[k v] data IH]; csimpl.
  - split; [done|]. by intros ?%elem_of_nil.
  - rewrite elem_of_cons, <- IH. destruct (String.eqb k key) eqn:E; simpl.
    + apply String.eqb_eq in E. split; [by left|done].
    + apply String.eqb_neq in E. split; [by right|]. by intros [?|?].
Qed.

Lemma dict_set_keys data key value :
  (dict_set key value data).*1
  = if InMemoryStore.contains key data then data.*1 else data.*1 ++ [key].
Proof.
  induction data as [|[k v] data IH]; csimpl; [done|].
  destruct (String.eqb k key) eqn:E; csimpl.
  - apply String.eqb_eq in E. by subst.
  - rewrite IH. by destruct (InMemoryStore.contains key data).
Qed.

Lemma dict_get_None_keys data key : dict_get key data = None <-> key ∉ data.*1.
Proof.
  rewrite <- contains_keys, contains_dict_get.
  destruct (dict_get key data); split; done.
Qed.

Lemma del_get_ne data key key' :
  key' <> key -> dict_get key' (InMemoryStore.del key data) = dict_get key' data.
Proof.
  intros Hne. induction data as [|[k v] data IH]; simpl; [done|].
  destruct (String.eqb k key) eqn:E; simpl.
  - apply String.eqb_eq in E. subst k.
    destruct (String.eqb key key') eqn:E'; [|done].
    apply String.eqb_eq in E'. by subst.
  - by rewrite IH.
Qed.

Lemma del_keys_subseteq data key k : k ∈ (InMemoryStore.del key data).*1 -> k ∈ data.*1.
Proof.
  induction data as [|[k0 v] data IH]; simpl; [done|].
  destruct (String.eqb k0 key); simpl.
  - intros H. by right.
  - rewrite !elem_of_cons. intros [?|?]; [by left | right; by apply IH].
Qed.

Lemma del_NoDup data key : NoDup data.*1 -> NoDup (InMemoryStore.del key data).*1.
Proof.
  induction data as [|[k0 v] data IH]; simpl; [done|].
  intros [Hk Hd]%NoDup_cons. destruct (String.eqb k0 key); simpl; [done|].
  apply NoDup_cons. split; [|by apply IH].
  intros H%del_keys_subseteq. done.
Qed.

Lemma del_get_eq data key :
  NoDup data.*1 -> dict_get key (InMemoryStore.del key data) = None.
Proof.
  induction data as [|[k0 v] data IH]; simpl; [done|].
  intros [Hk Hd]%NoDup_cons. destruct (String.eqb k0 key) eqn:E; simpl.
  - apply String.eqb_eq in E. subst k0. by apply dict_get_None_keys.
  - rewrite E. by apply IH.
Qed.

Lemma del_length data key :
  InMemoryStore.contains key data = true ->
  length data = S (length (InMemoryStore.del key data)).
Proof.
  induction data as [|[k0 v] data IH]; simpl; [done|].
  destruct (String.eqb k0 key); simpl; [done|].
  intros H. by rewrite <- IH.
Qed.

Lemma del_set_fresh data key value :
  InMemoryStore.contains key data = false ->
  InMemoryStore.del key (dict_set key value data) = data.
Proof.
  induction data as [|[k0 v] data IH]; simpl.
  - by rewrite String.eqb_refl.
  - destruct (String.eqb k0 key) eqn:E; simpl; [done|].
    intros H. by rewrite E, IH.
Qed.

(** X1. [set] then [get]: the key reads the value written and every other
    key reads what it read before; a key that was present keeps its place in
    the order of [get_all] and the count, a new key goes last and adds one;
    the keys stay distinct. *)
Theorem store_set_then_get data key value key' :
  dict_get key' (dict_set key value data)
    = (if String.eqb key key' then Some value else dict_get key' data)
  /\ (dict_set key value data).*1
     = (if InMemoryStore.exists_ key data then data.*1 else data.*1 ++ [key])
  /\ InMemoryStore.count (dict_set key value data)
     = (if InMemoryStore.exists_ key data
        then InMemoryStore.count data else S (InMemoryStore.count data))
  /\ (NoDup data.*1 -> NoDup (dict_set key value data).*1).
Proof.
  split; [|split; [|split]].
  - destruct (String.eqb key key') eqn:E.
    + apply String.eqb_eq in E. subst. apply dict_get_set_eq.
    + apply String.eqb_neq in E. by apply dict_get_set_ne.
  - apply dict_set_keys.
  - unfold InMemoryStore.count, InMemoryStore.exists_.
    rewrite <- !(length_fmap fst), dict_set_keys.
    destruct (InMemoryStore.contains key data); [done|].
    rewrite length_app. simpl. lia.
  - intros Hd. rewrite dict_set_keys.
    destruct (InMemoryStore.contains key data) eqn:E; [done|].
    apply NoDup_app. split; [done|]. split; [|apply NoDup_singleton].
    intros k Hk ->%list_elem_of_singleton.
    apply contains_keys in Hk. congruence.
Qed.

(** X2. [delete] answers whether the key was present; afterwards the key is
    absent, every other key reads what it read before, and the count has
    dropped by one exactly when the key was present.  Deleting a key that has
    just been added gives back the dict as it was. *)
Theorem store_delete_removes_key data key :
  NoDup data.*1 ->
  let result := InMemoryStore.delete key data in
  result.1 = InMemoryStore.exists_ key data
  /\ InMemoryStore.exists_ key result.2 = false
  /\ dict_get key result.2 = None
  /\ (forall key', key' <> key -> dict_get key' result.2 = dict_get key' data)
  /\ InMemoryStore.count data
     = InMemoryStore.count result.2 + (if result.1 then 1 else 0)
  /\ NoDup result.2.*1
  /\ (forall value, InMemoryStore.exists_ key data = false ->
        InMemoryStore.delete key (dict_set key value data) = (true, data)).
Proof.
  intros Hd result. subst result. unfold InMemoryStore.delete, InMemoryStore.exists_.
  destruct (InMemoryStore.contains key data) eqn:E; simpl.
  - split; [done|].
    assert (Hget : dict_get key (InMemoryStore.del key data) = None) by by apply del_get_eq.
    split; [|split; [done|split; [|split]]].
    + by rewrite contains_dict_get, Hget.
    + intros key' Hne. by apply del_get_ne.
    + unfold InMemoryStore.count. rewrite (del_length _ _ E). lia.
    + split; [by apply del_NoDup|]. intros value H.
      unfold InMemoryStore.exists_ in H. congruence.
  - split; [done|]. split; [done|].
    split.
    { rewrite contains_dict_get in E. by destruct (dict_get key data). }
    split; [done|]. split; [unfold InMemoryStore.count; lia|].
    split; [done|]. intros value _.
    assert (Hin : InMemoryStore.contains key (dict_set key value data) = true).
    { rewrite contains_dict_get. by rewrite dict_get_set_eq. }
    rewrite Hin. by rewrite del_set_fresh.
Qed.
End StoreFacts.

Lemma store_delete_removes_key_witness :
  NoDup dict_ab.*1
  /\ InMemoryStore.delete "a" dict_ab = (true, [("b", 2)])
  /\ dict_get "a" (InMemoryStore.delete "a" dict_ab).2 = None.
Proof.
  assert (Hd : NoDup dict_ab.*1).
  { apply NoDup_cons. split.
    - intros H. apply list_elem_of_singleton in H. discriminate H.
    - apply NoDup_singleton. }
  split; [exact Hd|]. split; [reflexivity|].
  apply (store_delete_removes_key dict_ab "a" Hd).
Defined.

(** ** Slices *)

Lemma slice_bound_nat len (i : nat) :
  slice_bound len (Z.of_nat i) = Z.min (Z.of_nat i) len.
Proof. unfold slice_bound. destruct (Z.ltb_spec (Z.of_nat i) 0); [lia|done]. Qed.

Lemma take_min_length {A} (xs : list A) n : take (n `min` length xs) xs = take n xs.
Proof. by rewrite <- take_take, firstn_all. Qed.

Lemma py_slice_nat {A} (xs : list A) (a b : nat) :
  py_slice xs (Z.of_nat a) (Z.of_nat a + Z.of_nat b) = take b (drop a xs).
Proof.
  unfold py_slice.
  replace (Z.of_nat a + Z.of_nat b)%Z with (Z.of_nat (a + b)) by lia.
  rewrite !slice_bound_nat.
  destruct (Nat.le_gt_cases a (length xs)) as [Hle|Hgt].
  - replace (Z.to_nat (Z.of_nat a `min` Z.of_nat (length xs))) with a by lia.
    replace (Z.to_nat (Z.of_nat (a + b) `min` Z.of_nat (length xs)
                       - Z.of_nat a `min` Z.of_nat (length xs)))
      with (b `min` length (drop a xs)) by (rewrite length_drop; lia).
    apply take_min_length.
  - rewrite (drop_ge xs a) by lia.
    rewrite drop_ge by lia. by rewrite !take_nil.
Qed.

Lemma py_slice_length {A} (xs : list A) offset limit :
  (0 <= limit)%Z -> length (py_slice xs offset (offset + limit)) <= Z.to_nat limit.
Proof.
  intros Hl. unfold py_slice. rewrite length_take.
  etrans; [apply Nat.le_min_l|].
  unfold slice_bound.
  destruct (Z.ltb_spec offset 0), (Z.ltb_spec (offset + limit) 0); lia.
Qed.

Lemma py_slice_negative_limit {A} (xs : list A) limit :
  (limit < 0)%Z ->
  py_slice xs 0 (0 + limit) = take (length xs - Z.to_nat (- limit)) xs.
Proof.
  intros Hl. unfold py_slice, slice_bound.
  destruct (Z.ltb_spec 0 0); [lia|].
  destruct (Z.ltb_spec (0 + limit) 0); [|lia].
  replace (Z.to_nat (0 `min` Z.of_nat (length xs))) with 0 by lia.
  rewrite drop_0. f_equal. lia.
Qed.

Lemma elem_of_py_slice {A} (xs : list A) a b x : x ∈ py_slice xs a b -> x ∈ xs.
Proof.
  unfold py_slice. intros H.
  apply elem_of_take in H as (i & Hi & _).
  rewrite lookup_drop in Hi. by eapply list_elem_of_lookup_2.
Qed.

(** ** The sort *)

Section Sorting.
Context {A : Type} (key : A -> nat).

Lemma insert_desc_perm x xs : insert_desc key x xs ≡ₚ x :: xs.
Proof.
  induction xs as [|y ys IH]; simpl; [done|].
  destruct (key x <? key y)%nat; [|done].
  rewrite IH. apply Permutation_swap.
Qed.

Lemma sort_desc_perm xs : sort_desc key xs ≡ₚ xs.
Proof.
  induction xs as [|x xs IH]; simpl; [done|].
  by rewrite insert_desc_perm, IH.
Qed.

Lemma insert_desc_newest_first x xs :
  newest_first key xs -> newest_first key (insert_desc key x xs).
Proof.
  induction xs as [|y ys IH]; simpl.
  - intros _. split; [constructor|done].
  - intros [Hy Hys]. destruct (Nat.ltb_spec (key x) (key y)); simpl.
    + split; [|by apply IH].
      rewrite insert_desc_perm. apply Forall_cons. split; [lia|done].
    + split; [|done]. apply Forall_cons. split; [done|].
      eapply Forall_impl; [exact Hy|]. intros z Hz. simpl in Hz. lia.
Qed.

Lemma sort_desc_newest_first xs : newest_first key (sort_desc key xs).
Proof.
  induction xs as [|x xs IH]; simpl; [done|]. by apply insert_desc_newest_first.
Qed.

Lemma newest_first_drop n xs : newest_first key xs -> newest_first key (drop n xs).
Proof.
  revert xs. induction n as [|n IH]; intros [|x xs]; simpl; try done.
  intros [_ H]. by apply IH.
Qed.

Lemma newest_first_take n xs : newest_first key xs -> newest_first key (take n xs).
Proof.
  revert xs. induction n as [|n IH]; intros [|x xs]; simpl; try done.
  intros [H1 H2]. split; [by apply Forall_take | by apply IH].
Qed.

Lemma newest_first_py_slice xs a b : newest_first key xs -> newest_first key (py_slice xs a b).
Proof. intros H. unfold py_slice. by apply newest_first_take, newest_first_drop. Qed.
End Sorting.

(** ** Filters *)

Lemma elem_of_List_filter {A} (keep : A -> bool) (xs : list A) x :
  x ∈ List.filter keep xs <-> x ∈ xs /\ keep x = true.
Proof. rewrite !list_elem_of_In. apply filter_In. Qed.

Lemma elem_of_filter_if {A} (flag : bool) (keep : A -> bool) (xs : list A) x :
  x ∈ filter_if flag keep xs -> x ∈ xs /\ (flag = true -> keep x = true).
Proof.
  destruct flag; simpl.
  - intros [? ?]%elem_of_List_filter. done.
  - intros ?. done.
Qed.

Lemma elem_of_opt_filter {A B} (o : option B) (keep : B -> A -> bool) (xs : list A) x :
  x ∈ match o with Some b => List.filter (keep b) xs | None => xs end ->
  x ∈ xs /\ (forall b, o = Some b -> keep b x = true).
Proof.
  destruct o as [b|].
  - intros [? ?]%elem_of_List_filter. split; [done|]. by intros ? [= <-].
  - intros ?. split; [done|]. by intros ? [=].
Qed.

Lemma elem_of_opt_filter_if {A B} (o : option B) (flag : B -> bool) (keep : B -> A -> bool)
    (xs : list A) x :
  x ∈ match o with Some b => filter_if (flag b) (keep b) xs | None => xs end ->
  x ∈ xs /\ (forall b, o = Some b -> flag b = true -> keep b x = true).
Proof.
  destruct o as [b|].
  - intros [? ?]%elem_of_filter_if. split; [done|]. by intros ? [= <-].
  - intros ?. split; [done|]. by intros ? [=].
Qed.

Lemma truthy_nonempty s : s <> "" -> truthy_opt_str (Some s) = true.
Proof. intros Hs. simpl. unfold truthy_str. by destruct (String.eqb_spec s ""). Qed.

Lemma List_filter_filter {A} (f g : A -> bool) (xs : list A) :
  List.filter f (List.filter g xs) = List.filter (fun x => g x && f x) xs.
Proof.
  induction xs as [|x xs IH]; simpl; [done|].
  destruct (g x); simpl; [|done]. destruct (f x); by rewrite IH.
Qed.

Lemma List_filter_true {A} (xs : list A) : List.filter (fun _ => true) xs = xs.
Proof. induction xs as [|x xs IH]; simpl; [done|]. by rewrite IH. Qed.

Lemma truthy_category c : truthy_str (PolicyCategory.value c) = true.
Proof. by destruct c. Qed.
Lemma truthy_action a : truthy_str (ModerationAction.value a) = true.
Proof. by destruct a. Qed.
Lemma truthy_status s : truthy_str (ModerationStatus.value s) = true.
Proof. by destruct s. Qed.
Lemma truthy_action_type a : truthy_str (AuditActionType.value a) = true.
Proof. by destruct a. Qed.
Lemma truthy_actor a : truthy_str (AuditActor.value a) = true.
Proof. by destruct a. Qed.

Lemma PolicyCategory_eqb_eq a b : PolicyCategory.eqb a b = true -> a = b.
Proof. by destruct a, b. Qed.
Lemma ModerationAction_eqb_eq a b : ModerationAction.eqb a b = true -> a = b.
Proof. by destruct a, b. Qed.
Lemma ModerationStatus_eqb_eq a b : ModerationStatus.eqb a b = true -> a = b.
Proof. by destruct a, b. Qed.

(** ** The list queries *)

(** X3. Every decision [list_decisions] returns is a stored decision and
    passes each filter that was supplied: a room or participant id that is
    not empty, the classification, the action, the status, and the two bounds
    on the confidence. *)
Theorem list_decisions_honours_filters w room_id participant_id classification action
    status min_confidence max_confidence limit offset d :
  d ∈ list_decisions w room_id participant_id classification action status
        min_confidence max_confidence limit offset ->
  d ∈ all_decisions w
  /\ (forall s, room_id = Some s -> s <> "" -> ModerationDecision.room_id d = s)
  /\ (forall s, participant_id = Some s -> s <> "" ->
        ModerationDecision.participant_id d = s)
  /\ (forall c, classification = Some c -> ModerationDecision.classification d = c)
  /\ (forall a, action = Some a -> ModerationDecision.action d = a)
  /\ (forall s, status = Some s -> ModerationDecision.status d = s)
  /\ (forall m, min_confidence = Some m -> (m <= ModerationDecision.confidence_score d)%Q)
  /\ (forall m, max_confidence = Some m -> (ModerationDecision.confidence_score d <= m)%Q).
Proof.
  unfold list_decisions. cbv zeta. intros H.
  apply elem_of_py_slice in H. rewrite sort_desc_perm in H.
  apply elem_of_opt_filter in H as [H Hmax].
  apply elem_of_opt_filter in H as [H Hmin].
  apply elem_of_opt_filter_if in H as [H Hst].
  apply elem_of_opt_filter_if in H as [H Hac].
  apply elem_of_opt_filter_if in H as [H Hcl].
  apply elem_of_filter_if in H as [H Hp].
  apply elem_of_filter_if in H as [H Hr].
  split; [exact H|].
  split.
  { intros s -> Hs. apply truthy_nonempty in Hs.
    specialize (Hr Hs). apply bool_decide_eq_true in Hr. congruence. }
  split.
  { intros s -> Hs. apply truthy_nonempty in Hs.
    specialize (Hp Hs). apply bool_decide_eq_true in Hp. congruence. }
  split; [intros c Hc; apply PolicyCategory_eqb_eq, (Hcl c Hc), truthy_category|].
  split; [intros a Ha; apply ModerationAction_eqb_eq, (Hac a Ha), truthy_action|].
  split; [intros s Hs; apply ModerationStatus_eqb_eq, (Hst s Hs), truthy_status|].
  split; intros m Hm; apply Qle_bool_iff; [apply (Hmin m Hm) | apply (Hmax m Hm)].
Qed.

Lemma list_decisions_honours_filters_witness :
  list_decisions (snd run_1) (Some "room-1") None (Some PolicyCategory.SPAM) None None
    (Some (1#2)) None 50 0 = [decision_1]
  /\ ModerationDecision.room_id decision_1 = "room-1"
  /\ (1#2 <= ModerationDecision.confidence_score decision_1)%Q.
Proof.
  assert (Hl : list_decisions (snd run_1) (Some "room-1") None (Some PolicyCategory.SPAM)
                 None None (Some (1#2)) None 50 0 = [decision_1])
    by (vm_compute; reflexivity).
  split; [exact Hl|].
  destruct (list_decisions_honours_filters (snd run_1) (Some "room-1") None
              (Some PolicyCategory.SPAM) None None (Some (1#2)) None 50 0 decision_1)
    as (_ & Hroom & _ & _ & _ & _ & Hmin & _).
  { rewrite Hl. apply list_elem_of_here. }
  split; [by apply Hroom | by apply Hmin].
Defined.

Lemma filter_if_filter {A} (flag : bool) (keep : A -> bool) (xs : list A) :
  filter_if flag keep xs = List.filter (fun x => if flag then keep x else true) xs.
Proof. destruct flag; simpl; [done|]. by rewrite List_filter_true. Qed.

Lemma opt_filter_filter {A B} (o : option B) (keep : B -> A -> bool) (xs : list A) :
  match o with Some b => List.filter (keep b) xs | None => xs end
  = List.filter (fun x => match o with Some b => keep b x | None => true end) xs.
Proof. destruct o; [done|]. by rewrite List_filter_true. Qed.

Lemma opt_filter_if_filter {A B} (o : option B) (flag : B -> bool) (keep : B -> A -> bool)
    (xs : list A) :
  (forall b, flag b = true) ->
  match o with Some b => filter_if (flag b) (keep b) xs | None => xs end
  = List.filter (fun x => match o with Some b => keep b x | None => true end) xs.
Proof.
  intros Hf. destruct o as [b|]; [|by rewrite List_filter_true].
  by rewrite Hf.
Qed.

(** A bound without a time zone is compared with every entry. *)
Lemma filter_time_naive keep (bound : option datetime) entries :
  filter_time keep (Naive <$> bound) entries
  = Return (List.filter
              (fun e => match bound with
                        | Some t => keep (AuditLogEntry.timestamp e) t
                        | None => true
                        end) entries).
Proof. destruct bound; simpl; [done|]. by rewrite List_filter_true. Qed.

(** A bound with a time zone is compared with the first entry, if any. *)
Lemma filter_time_aware keep t utcoffset entries :
  filter_time keep (Some (Aware t utcoffset)) entries
  = match entries with [] => Return [] | _ :: _ => Raise NaiveAwareComparison end.
Proof. reflexivity. Qed.

Lemma filter_time_nil keep bound : filter_time keep bound [] = Return [].
Proof. by destruct bound as [[t|t utcoffset]|]. Qed.

(** The first three filters of the audit queries, as one filter. *)
Lemma audit_filters_eq w decision_id action_type actor start_time end_time :
  filtered_audit_entries w decision_id action_type actor start_time end_time
  = and_then
      (filter_time (fun timestamp t => (t <=? timestamp)%nat) start_time
         (List.filter (audit_matches decision_id action_type actor None None)
            (audit_store w)))
      (fun entries =>
       and_then (filter_time (fun timestamp t => (timestamp <=? t)%nat) end_time entries)
         (fun entries => Return (sort_desc AuditLogEntry.timestamp entries))).
Proof.
  unfold filtered_audit_entries. cbv zeta. f_equal.
  rewrite (opt_filter_if_filter actor (fun a => truthy_str (AuditActor.value a))
             (fun a e => AuditActor.eqb (AuditLogEntry.actor e) a)) by apply truthy_actor.
  rewrite (opt_filter_if_filter action_type (fun a => truthy_str (AuditActionType.value a))
             (fun a e => AuditActionType.eqb (AuditLogEntry.action_type e) a))
    by apply truthy_action_type.
  rewrite filter_if_filter, !List_filter_filter. f_equal.
  apply filter_ext. intros e. unfold audit_matches. by rewrite !andb_true_r, !andb_assoc.
Qed.

(** The filters of the audit queries, as one filter, for time bounds that
    have no time zone. *)
Lemma filtered_audit_entries_eq w decision_id action_type actor
    (start_time end_time : option datetime) :
  filtered_audit_entries w decision_id action_type actor
    (Naive <$> start_time) (Naive <$> end_time)
  = Return (sort_desc AuditLogEntry.timestamp
              (List.filter (audit_matches decision_id action_type actor start_time end_time)
                 (audit_store w))).
Proof.
  rewrite audit_filters_eq, filter_time_naive. cbn [and_then].
  rewrite filter_time_naive. cbn [and_then]. do 2 f_equal.
  rewrite !List_filter_filter.
  apply filter_ext. intros e. unfold audit_matches. by rewrite !andb_true_r, !andb_assoc.
Qed.

Lemma list_audit_logs_naive w decision_id action_type actor
    (start_time end_time : option datetime) limit offset :
  list_audit_logs w decision_id action_type actor
    (Naive <$> start_time) (Naive <$> end_time) limit offset
  = Return (py_slice
              (sort_desc AuditLogEntry.timestamp
                 (List.filter
                    (audit_matches decision_id action_type actor start_time end_time)
                    (audit_store w)))
              offset (offset + limit)).
Proof. unfold list_audit_logs. by rewrite filtered_audit_entries_eq. Qed.

(** X4. Both list queries answer newest first, and with at most [limit]
    items when the limit is not negative, whatever the offset.  The audit
    query returns for time bounds that are absent or have no time zone. *)
Theorem list_queries_newest_first_and_bounded w room_id participant_id classification
    action status min_confidence max_confidence decision_id action_type actor
    (start_time end_time : option datetime) limit offset :
  let decisions := list_decisions w room_id participant_id classification action status
                     min_confidence max_confidence limit offset in
  exists entries,
    list_audit_logs w decision_id action_type actor
      (Naive <$> start_time) (Naive <$> end_time) limit offset = Return entries
    /\ newest_first ModerationDecision.timestamp decisions
    /\ newest_first AuditLogEntry.timestamp entries
    /\ ((0 <= limit)%Z ->
        length decisions <= Z.to_nat limit /\ length entries <= Z.to_nat limit).
Proof.
  cbv zeta. eexists. split; [apply list_audit_logs_naive|].
  unfold list_decisions. cbv zeta.
  split; [apply newest_first_py_slice, sort_desc_newest_first|].
  split; [apply newest_first_py_slice, sort_desc_newest_first|].
  intros Hl. split; by apply py_slice_length.
Qed.

(** X5. For time bounds that are absent or have no time zone, the export
    holds every entry of the ledger that passes the filters, once each,
    newest first, with their number as [count]; the CSV has one row for each
    after the header.  The pages of [list_audit_logs] follow one another in
    it: two consecutive pages make the page of their joint size, and a page
    from offset 0 that is as long as the export is the export. *)
Theorem export_is_every_page w decision_id action_type actor
    (start_time end_time : option datetime) :
  let list_page :=
    list_audit_logs w decision_id action_type actor
      (Naive <$> start_time) (Naive <$> end_time) in
  exists entries,
    export_audit_logs w FormatJson decision_id action_type actor
      (Naive <$> start_time) (Naive <$> end_time)
      = Return (ExportJson (length entries) entries)
    /\ (exists header,
          export_audit_logs w FormatCsv decision_id action_type actor
            (Naive <$> start_time) (Naive <$> end_time)
          = Return (ExportCsv (length entries) (header :: map csv_row entries)))
    /\ entries ≡ₚ List.filter
                    (audit_matches decision_id action_type actor start_time end_time)
                    (audit_store w)
    /\ newest_first AuditLogEntry.timestamp entries
    /\ (forall a b : nat,
          exists first second,
            list_page (Z.of_nat a) 0%Z = Return first
            /\ list_page (Z.of_nat b) (Z.of_nat a) = Return second
            /\ list_page (Z.of_nat (a + b)) 0%Z = Return (first ++ second))
    /\ (forall n : nat, length entries <= n -> list_page (Z.of_nat n) 0%Z = Return entries).
Proof.
  cbv zeta.
  exists (sort_desc AuditLogEntry.timestamp
            (List.filter (audit_matches decision_id action_type actor start_time end_time)
               (audit_store w))).
  unfold export_audit_logs. rewrite filtered_audit_entries_eq. cbn [and_then].
  split; [reflexivity|]. split; [eexists; reflexivity|].
  split; [apply sort_desc_perm|].
  split; [apply sort_desc_newest_first|].
  split.
  - intros a b. eexists _, _.
    split; [apply list_audit_logs_naive|]. split; [apply list_audit_logs_naive|].
    rewrite list_audit_logs_naive. f_equal.
    rewrite (py_slice_nat _ 0 a), (py_slice_nat _ a b), (py_slice_nat _ 0 (a + b)).
    rewrite !drop_0. symmetry. apply take_take_drop.
  - intros n Hn. rewrite list_audit_logs_naive. f_equal.
    rewrite (py_slice_nat _ 0 n), drop_0. by apply take_ge.
Qed.

(** X6. The limit is not checked: for time bounds that are absent or have no
    time zone, a negative limit, at offset 0, answers with all the matching
    entries but the oldest ones, as many as its absolute value. *)
Theorem negative_limit_drops_oldest w decision_id action_type actor
    (start_time end_time : option datetime) limit :
  (limit < 0)%Z ->
  let matching :=
    sort_desc AuditLogEntry.timestamp
      (List.filter (audit_matches decision_id action_type actor start_time end_time)
         (audit_store w)) in
  list_audit_logs w decision_id action_type actor
    (Naive <$> start_time) (Naive <$> end_time) limit 0
  = Return (take (length matching - Z.to_nat (- limit)) matching).
Proof.
  intros Hl. cbv zeta. rewrite list_audit_logs_naive. f_equal.
  by apply py_slice_negative_limit.
Qed.

Lemma negative_limit_drops_oldest_witness :
  (AuditLogEntry.audit_id <$> audit_store (snd run_1))
    = ["audit-0000000000a1"; "audit-0000000000a2"]
  /\ list_audit_logs (snd run_1) None None None (Some (Naive 11)) None (-1) 0
     = Return (take 1 (rev (audit_store (snd run_1)))).
Proof.
  split; [reflexivity|].
  etrans.
  - apply (negative_limit_drops_oldest (snd run_1) None None None (Some 11) None (-1)).
    reflexivity.
  - reflexivity.
Defined.

Lemma py_slice_nil {A} a b : py_slice (@nil A) a b = [].
Proof. unfold py_slice. by rewrite drop_nil, take_nil. Qed.

(** X29. A time bound that has a time zone cannot be compared with the
    stored timestamps, which have none.  When an entry is left to compare it
    with, the list query and the export raise the [TypeError] of that
    comparison instead of answering; when the filters before it have left no
    entry, nothing is compared and they answer with no entry.  So for the
    start time, whatever the end time is, and for the end time after a start
    time that is absent or has no time zone. *)
Theorem aware_time_bound_raises w decision_id action_type actor t utcoffset
    (start_time : option datetime) (end_time : option QueryTime) format limit offset :
  let before_start :=
    List.filter (audit_matches decision_id action_type actor None None) (audit_store w) in
  let before_end :=
    List.filter (audit_matches decision_id action_type actor start_time None)
      (audit_store w) in
  let aware := Some (Aware t utcoffset) in
  (before_start <> [] ->
     list_audit_logs w decision_id action_type actor aware end_time limit offset
       = Raise NaiveAwareComparison
     /\ export_audit_logs w format decision_id action_type actor aware end_time
        = Raise NaiveAwareComparison)
  /\ (before_start = [] ->
        list_audit_logs w decision_id action_type actor aware end_time limit offset
          = Return []
        /\ export_audit_logs w FormatJson decision_id action_type actor aware end_time
           = Return (ExportJson 0 []))
  /\ (before_end <> [] ->
        list_audit_logs w decision_id action_type actor (Naive <$> start_time) aware
          limit offset
          = Raise NaiveAwareComparison
        /\ export_audit_logs w format decision_id action_type actor
             (Naive <$> start_time) aware
           = Raise NaiveAwareComparison)
  /\ (before_end = [] ->
        list_audit_logs w decision_id action_type actor (Naive <$> start_time) aware
          limit offset
          = Return []
        /\ export_audit_logs w FormatJson decision_id action_type actor
             (Naive <$> start_time) aware
           = Return (ExportJson 0 [])).
Proof.
  cbv zeta. unfold list_audit_logs, export_audit_logs.
  rewrite !audit_filters_eq, filter_time_naive. cbn [and_then].
  rewrite !List_filter_filter.
  assert (Hsame :
    List.filter
      (fun e => audit_matches decision_id action_type actor None None e
                && match start_time with
                   | Some t0 => (t0 <=? AuditLogEntry.timestamp e)%nat
                   | None => true
                   end) (audit_store w)
    = List.filter (audit_matches decision_id action_type actor start_time None)
        (audit_store w)).
  { apply filter_ext. intros e. unfold audit_matches. by rewrite !andb_true_r. }
  rewrite Hsame. rewrite !filter_time_aware.
  split; [|split; [|split]].
  - intros Hne.
    destruct (List.filter (audit_matches decision_id action_type actor None None)
                (audit_store w)); [done|]. done.
  - intros ->. cbn [and_then]. rewrite filter_time_nil. cbn [and_then sort_desc].
    by rewrite py_slice_nil.
  - intros Hne.
    destruct (List.filter (audit_matches decision_id action_type actor start_time None)
                (audit_store w)); [done|]. done.
  - intros ->. cbn [and_then sort_desc]. by rewrite py_slice_nil.
Qed.

Lemma aware_time_bound_raises_witness :
  list_audit_logs (snd run_1) None None None (Some (Aware 0 0)) None 50 0
    = Raise NaiveAwareComparison
  /\ list_audit_logs (snd run_1) (Some "dec-unknown") None None (Some (Aware 0 0)) None 50 0
     = Return [].
Proof.
  split.
  - apply (aware_time_bound_raises (snd run_1) None None None 0 0 None None FormatJson 50 0).
    discriminate.
  - apply (aware_time_bound_raises (snd run_1) (Some "dec-unknown") None None 0 0 None None
             FormatJson 50 0).
    reflexivity.
Defined.

(** ** The statistics of the ledger *)

Lemma count_by_action_type (entries : list AuditLogEntry.t) :
  sum_list ((fun a => length (List.filter
                                (fun e => AuditActionType.eqb (AuditLogEntry.action_type e) a)
                                entries)) <$> AuditActionType_members)
  = length entries.
Proof.
  induction entries as [|e entries IH]; [reflexivity|].
  cbn in IH |- *. destruct (AuditLogEntry.action_type e); cbn; lia.
Qed.

Lemma count_by_actor (entries : list AuditLogEntry.t) :
  sum_list ((fun a => length (List.filter
                                (fun e => AuditActor.eqb (AuditLogEntry.actor e) a)
                                entries)) <$> AuditActor_members)
  = length entries.
Proof.
  induction entries as [|e entries IH]; [reflexivity|].
  cbn in IH |- *. destruct (AuditLogEntry.actor e); cbn; lia.
Qed.

Lemma fold_min_le ts t x : x ∈ t :: ts -> fold_left Nat.min ts t <= x.
Proof.
  revert t x. induction ts as [|t' ts IH]; intros t x; simpl.
  - intros ->%list_elem_of_singleton. done.
  - intros H. assert (fold_left Nat.min ts (t `min` t') <= t `min` t') as Hm
      by (apply IH, list_elem_of_here).
    apply elem_of_cons in H as [->|H]; [lia|].
    apply elem_of_cons in H as [->|H]; [lia|].
    etrans; [apply IH; by right|]. done.
Qed.

Lemma fold_max_ge ts t x : x ∈ t :: ts -> x <= fold_left Nat.max ts t.
Proof.
  revert t x. induction ts as [|t' ts IH]; intros t x; simpl.
  - intros ->%list_elem_of_singleton. done.
  - intros H. assert (t `max` t' <= fold_left Nat.max ts (t `max` t')) as Hm
      by (apply IH, list_elem_of_here).
    apply elem_of_cons in H as [->|H]; [lia|].
    apply elem_of_cons in H as [->|H]; [lia|].
    etrans; [|apply IH; by right]. done.
Qed.

(** X7. In the statistics of the ledger, the counts by action type have one
    item for each of the eight types and add up to the number of entries, and
    so do the counts by actor over the three actors; the oldest and newest
    times are absent on an empty ledger and bound the time of every entry
    otherwise. *)
Theorem audit_stats_partition w :
  let stats := get_audit_stats w in
  AuditStats.total_entries stats = length (audit_store w)
  /\ (AuditStats.by_action_type stats).*1 = AuditActionType.value <$> AuditActionType_members
  /\ sum_list (AuditStats.by_action_type stats).*2 = AuditStats.total_entries stats
  /\ (AuditStats.by_actor stats).*1 = AuditActor.value <$> AuditActor_members
  /\ sum_list (AuditStats.by_actor stats).*2 = AuditStats.total_entries stats
  /\ (audit_store w = [] ->
      AuditStats.oldest_entry stats = None /\ AuditStats.newest_entry stats = None)
  /\ (forall e, e ∈ audit_store w ->
      exists oldest newest,
        AuditStats.oldest_entry stats = Some oldest
        /\ AuditStats.newest_entry stats = Some newest
        /\ oldest <= AuditLogEntry.timestamp e <= newest).
Proof.
  cbv zeta. unfold get_audit_stats. cbv zeta.
  pose proof (count_by_action_type (audit_store w)) as Ha.
  pose proof (count_by_actor (audit_store w)) as Hb.
  destruct (audit_store w) as [|e0 entries] eqn:E.
  - cbn. repeat split; try done. intros e He. by apply elem_of_nil in He.
  - rewrite <- E in *.
    assert (Hts : map AuditLogEntry.timestamp (audit_store w)
                  = AuditLogEntry.timestamp e0 :: map AuditLogEntry.timestamp entries)
      by by rewrite E.
    rewrite Hts. cbn -[List.filter length].
    split; [done|]. split; [done|]. split; [exact Ha|]. split; [done|].
    split; [exact Hb|]. split; [by rewrite E|].
    intros e He. eexists _, _. split; [reflexivity|]. split; [reflexivity|].
    assert (Hin : AuditLogEntry.timestamp e
                  ∈ AuditLogEntry.timestamp e0 :: map AuditLogEntry.timestamp entries).
    { rewrite <- Hts. by apply (list_elem_of_fmap_2 AuditLogEntry.timestamp). }
    split; [by apply fold_min_le | by apply fold_max_ge].
Qed.

(** ** Lookup of one entry *)

Lemma first_with_audit_id_app audit_id entries more e w w' :
  first_with_audit_id audit_id entries w = (Return e, w) ->
  first_with_audit_id audit_id (entries ++ more) w' = (Return e, w').
Proof.
  induction entries as [|e0 entries IH]; simpl; [discriminate|].
  destruct (String.eqb (AuditLogEntry.audit_id e0) audit_id); [|exact IH].
  by intros [= ->].
Qed.

Lemma first_with_audit_id_world audit_id entries w :
  snd (first_with_audit_id audit_id entries w) = w.
Proof.
  induction entries as [|e0 entries IH]; simpl; [done|].
  by destruct (String.eqb (AuditLogEntry.audit_id e0) audit_id).
Qed.

Lemma first_with_audit_id_found audit_id entries w e w' :
  first_with_audit_id audit_id entries w = (Return e, w') ->
  e ∈ entries /\ AuditLogEntry.audit_id e = audit_id.
Proof.
  induction entries as [|e0 entries IH]; simpl; [discriminate|].
  destruct (String.eqb_spec (AuditLogEntry.audit_id e0) audit_id).
  - intros [= ->]. split; [apply list_elem_of_here|done].
  - intros H. destruct (IH H). split; [by right|done].
Qed.

(** X8. An audit id that [get_audit_entry] resolves names an entry of the
    ledger with that id, the call leaves the world as it is, and the id
    resolves to the same entry after any run of the operations. *)
Theorem audit_entry_lookup_is_stable audit_id w e w1 ops :
  get_audit_entry audit_id w = (Return e, w1) ->
  w1 = w
  /\ e ∈ audit_store w
  /\ AuditLogEntry.audit_id e = audit_id
  /\ get_audit_entry audit_id (run_ops ops w) = (Return e, run_ops ops w).
Proof.
  unfold get_audit_entry. intros H.
  pose proof (first_with_audit_id_world audit_id (audit_store w) w) as Hw.
  rewrite H in Hw. simpl in Hw. subst w1.
  destruct (first_with_audit_id_found _ _ _ _ _ H) as [Hin Hid].
  split; [done|]. split; [done|]. split; [done|].
  destruct (run_ops_grows ops w) as [more Hmore]. rewrite Hmore.
  by eapply first_with_audit_id_app.
Qed.

Lemma audit_entry_lookup_is_stable_witness :
  exists e,
    get_audit_entry "audit-0000000000a1" (snd run_1) = (Return e, snd run_1)
    /\ get_audit_entry "audit-0000000000a1" (run_ops ops_1 (snd run_1))
       = (Return e, run_ops ops_1 (snd run_1)).
Proof.
  eexists. split; [vm_compute; reflexivity|].
  eapply (audit_entry_lookup_is_stable "audit-0000000000a1" (snd run_1) _ (snd run_1) ops_1).
  vm_compute. reflexivity.
Defined.

(** ** The append-only store *)

(** X9. [append] returns the index at which the item can be read back, alone
    by [get_range(index, 1)]; the items before it are the store as it was. *)
Theorem append_then_get_range {T} (item : T) (data : list T) :
  let result := AppendOnlyStore.append item data in
  result.2 !! result.1 = Some item
  /\ AppendOnlyStore.get_range result.2 (Z.of_nat result.1) 1 = [item]
  /\ AppendOnlyStore.get_range result.2 0 (Z.of_nat result.1) = data
  /\ AppendOnlyStore.count result.2 = S (AppendOnlyStore.count data)
  /\ (forall w (entry : AuditLogEntry.t),
        audit_store_append entry w
        = (Return (AppendOnlyStore.append entry (audit_store w)).1,
           with_audit_store (AppendOnlyStore.append entry (audit_store w)).2 w)).
Proof.
  cbv zeta. unfold AppendOnlyStore.append, AppendOnlyStore.get_range,
    AppendOnlyStore.count. cbn [fst snd].
  assert (Hi : length (data ++ [item]) - 1 = length data)
    by (rewrite length_app; simpl; lia).
  rewrite Hi. split; [apply heap_new_lookup|].
  split.
  { rewrite (py_slice_nat _ (length data) 1).
    by rewrite drop_app_length. }
  split.
  { rewrite (py_slice_nat _ 0 (length data)), drop_0. by rewrite take_app_length. }
  split; [rewrite length_app; simpl; lia|].
  intros w entry. unfold audit_store_append. cbn [fst snd].
  do 2 f_equal. rewrite length_app. simpl. lia.
Qed.

(** X10. [get_range] with a start and a limit that are not negative is the
    limit's worth of items from the start on; consecutive ranges follow one
    another without gap or overlap, and a range that starts beyond the end is
    empty. *)
Theorem get_range_pages {T} (data : list T) (start limit : nat) :
  AppendOnlyStore.get_range data (Z.of_nat start) (Z.of_nat limit)
    = take limit (drop start data)
  /\ AppendOnlyStore.get_range data 0 (Z.of_nat start)
     ++ AppendOnlyStore.get_range data (Z.of_nat start) (Z.of_nat limit)
     = AppendOnlyStore.get_range data 0 (Z.of_nat (start + limit))
  /\ (AppendOnlyStore.count data <= start ->
      AppendOnlyStore.get_range data (Z.of_nat start) (Z.of_nat limit) = [])
  /\ length (AppendOnlyStore.get_range data (Z.of_nat start) (Z.of_nat limit)) <= limit.
Proof.
  unfold AppendOnlyStore.get_range, AppendOnlyStore.count.
  rewrite (py_slice_nat _ 0 start), (py_slice_nat _ start limit),
    (py_slice_nat _ 0 (start + limit)), !drop_0.
  split; [done|]. split; [apply take_take_drop|].
  split.
  - intros Hlen. rewrite drop_ge by done. apply take_nil.
  - rewrite length_take. lia.
Qed.

(** X11. [get_recent] with a positive limit gives the newest items first, as
    many as the limit allows; with the limit 0 it gives the whole store, not
    the empty list, and with a negative limit all but the oldest items. *)
Theorem get_recent_limits {T} (data : list T) (n : nat) :
  (0 < n -> AppendOnlyStore.get_recent data (Z.of_nat n) = take n (rev data))
  /\ AppendOnlyStore.get_recent data 0 = rev data
  /\ AppendOnlyStore.get_recent data (- Z.of_nat n) = rev (drop n data).
Proof.
  unfold AppendOnlyStore.get_recent, py_slice_from, slice_bound.
  split; [|split].
  - intros Hn. destruct (Z.ltb_spec (- Z.of_nat n) 0); [|lia].
    rewrite firstn_rev. do 2 f_equal. lia.
  - change (- 0)%Z with 0%Z. destruct (Z.ltb_spec 0 0); [lia|].
    by replace (Z.to_nat (0 `min` Z.of_nat (length data))) with 0 by lia.
  - rewrite Z.opp_involutive. destruct (Z.ltb_spec (Z.of_nat n) 0); [lia|].
    destruct (Nat.le_gt_cases n (length data)).
    + do 2 f_equal. lia.
    + rewrite (drop_ge data n) by lia. rewrite drop_ge; [done|lia].
Qed.

(** ** Stages that only read *)

#[local] Instance stores_untouched_refl : Reflexive stores_untouched.
Proof. by intros w. Qed.

#[local] Instance stores_untouched_trans : Transitive stores_untouched.
Proof.
  intros w1 w2 w3 (A1 & A2 & A3 & A4 & A5) (B1 & B2 & B3 & B4 & B5).
  repeat split; congruence.
Qed.

Ltac prim_untouched := primitive; by unfold stores_untouched.

Lemma untouched_emit e : preserves stores_untouched (emit e). Proof. prim_untouched. Qed.
Lemma untouched_decision_obj r : preserves stores_untouched (decision_obj r).
Proof. prim_untouched. Qed.
Lemma untouched_policy_obj r : preserves stores_untouched (policy_obj r).
Proof. prim_untouched. Qed.
Lemma untouched_decisions_store_get k : preserves stores_untouched (decisions_store_get k).
Proof. prim_untouched. Qed.
Lemma untouched_policies_store_get k : preserves stores_untouched (policies_store_get k).
Proof. prim_untouched. Qed.
Lemma untouched_policies_store_get_all : preserves stores_untouched policies_store_get_all.
Proof. prim_untouched. Qed.
Lemma untouched_call_classifier env c : preserves stores_untouched (call_classifier env c).
Proof. prim_untouched. Qed.
Lemma untouched_call_scoring_chain env a b c :
  preserves stores_untouched (call_scoring_chain env a b c).
Proof. prim_untouched. Qed.

#[local] Hint Resolve untouched_emit untouched_decision_obj untouched_policy_obj
  untouched_decisions_store_get untouched_policies_store_get
  untouched_policies_store_get_all untouched_call_classifier
  untouched_call_scoring_chain : preserves.

Lemma untouched_first_of_category category rs :
  preserves stores_untouched (first_of_category category rs).
Proof. induction rs as [|r rs IH]; simpl; preserve. Qed.

Lemma untouched_score env content category reasoning :
  preserves stores_untouched (score env content category reasoning).
Proof. unfold score. preserve. Qed.

Lemma untouched_decide category confidence :
  preserves stores_untouched (decide category confidence).
Proof.
  pose proof untouched_first_of_category.
  unfold decide, _get_policy_for_category. preserve.
Qed.

Lemma untouched_classify_node env state :
  preserves stores_untouched (classify_node env state).
Proof. unfold classify_node. preserve. Qed.

Lemma untouched_score_node env state : preserves stores_untouched (score_node env state).
Proof. pose proof untouched_score. unfold score_node. preserve. Qed.

Lemma untouched_decide_node state : preserves stores_untouched (decide_node state).
Proof.
  pose proof untouched_decide. pose proof untouched_first_of_category.
  unfold decide_node, decide_without_category, decide_without_confidence,
    _get_policy_for_category.
  preserve.
Qed.

(** X12. The scorer, the decider, the three pipeline stages before the
    action stage and the three lookups by id write nothing: the policies,
    the decisions and the audit ledger are after the call what they were
    before it, whether the call returns or raises. *)
Theorem reading_stages_write_nothing env state content category reasoning confidence key w :
  stores_untouched w (snd (score env content category reasoning w))
  /\ stores_untouched w (snd (decide category confidence w))
  /\ stores_untouched w (snd (classify_node env state w))
  /\ stores_untouched w (snd (score_node env state w))
  /\ stores_untouched w (snd (decide_node state w))
  /\ stores_untouched w (snd (get_decision key w))
  /\ stores_untouched w (snd (get_policy key w))
  /\ stores_untouched w (snd (get_audit_entry key w)).
Proof.
  split; [apply untouched_score|]. split; [apply untouched_decide|].
  split; [apply untouched_classify_node|]. split; [apply untouched_score_node|].
  split; [apply untouched_decide_node|].
  split; [|split].
  - assert (H : preserves stores_untouched (get_decision key))
      by (unfold get_decision; preserve).
    apply H.
  - assert (H : preserves stores_untouched (get_policy key))
      by (unfold get_policy; preserve).
    apply H.
  - unfold get_audit_entry. by rewrite first_with_audit_id_world.
Qed.

(** ** The scorer *)

Lemma Qle_bool_false a b : Qle_bool a b = false -> (b < a)%Q.
Proof.
  intros E. apply Qnot_le_lt. intros H. apply Qle_bool_iff in H. congruence.
Qed.

Lemma clamp_unit c :
  (0 <= py_max 0%Q (py_min 1%Q c))%Q /\ (py_max 0%Q (py_min 1%Q c) <= 1)%Q
  /\ ((c < 0)%Q -> py_max 0%Q (py_min 1%Q c) = 0%Q)
  /\ ((1 < c)%Q -> py_max 0%Q (py_min 1%Q c) = 1%Q)
  /\ ((0 <= c)%Q -> (c <= 1)%Q -> (py_max 0%Q (py_min 1%Q c) == c)%Q).
Proof.
  unfold py_max, py_min, flt.
  destruct (Qle_bool 1 c) eqn:E1; simpl.
  - apply Qle_bool_iff in E1.
    split; [done|]. split; [apply Qle_refl|].
    split; [|split; [done|]].
    + intros Hc. exfalso. apply (Qlt_irrefl 0).
      eapply Qlt_trans; [|exact Hc].
      eapply Qlt_le_trans; [|exact E1]. reflexivity.
    + intros _ Hc. symmetry. by apply Qle_antisym.
  - apply Qle_bool_false in E1.
    destruct (Qle_bool c 0) eqn:E2; simpl.
    + apply Qle_bool_iff in E2.
      split; [apply Qle_refl|]. split; [done|].
      split; [done|]. split.
      * intros Hc. exfalso. apply (Qlt_irrefl c). by eapply Qlt_trans.
      * intros Hc _. by apply Qle_antisym.
    + apply Qle_bool_false in E2.
      split; [by apply Qlt_le_weak|]. split; [by apply Qlt_le_weak|].
      split; [|split].
      * intros Hc. exfalso. apply (Qlt_irrefl c). by eapply Qlt_trans.
      * intros Hc. exfalso. apply (Qlt_irrefl c). by eapply Qlt_trans.
      * intros _ _. reflexivity.
Qed.

Lemma category_not_none category :
  category <> PolicyCategory.NONE -> PolicyCategory.eqb category PolicyCategory.NONE = false.
Proof. by destruct category. Qed.

(** [score] returns, within the unit interval. *)
Lemma score_returns env content category reasoning w :
  exists confidence factors w',
    score env content category reasoning w = (Return (confidence, factors), w')
    /\ (0 <= confidence)%Q /\ (confidence <= 1)%Q.
Proof.
  unfold score.
  destruct (PolicyCategory.eqb category PolicyCategory.NONE).
  - eexists _, _, _. split; [reflexivity|]. done.
  - unfold call_scoring_chain. run.
    destruct (scoring_chain_ainvoke env content (PolicyCategory.value category) reasoning)
      as [reply|e].
    + destruct (clamp_unit (default 0%Q (reply_confidence reply))) as (H0 & H1 & _).
      eexists _, _, _. split; [reflexivity|]. done.
    + eexists _, _, _. split; [reflexivity|]. done.
Qed.

(** X13. [score] always returns, with a confidence between 0 and 1, after
    one call of the chain for a category that is not none: an answer of the
    chain below 0 is scored 0, one above 1 is scored 1, one in between is
    kept, a missing one is 0; when the chain raises, the confidence is 0 and
    the factors are the text "Scoring error: " followed by the failure. *)
Theorem score_always_within_unit_interval env content category reasoning w :
  exists confidence factors w',
    score env content category reasoning w = (Return (confidence, factors), w')
    /\ (0 <= confidence)%Q /\ (confidence <= 1)%Q
    /\ trace w'
       = trace w ++ (if PolicyCategory.eqb category PolicyCategory.NONE then []
                     else [ScoringChainCall content (PolicyCategory.value category)
                             reasoning])
    /\ (forall e, category <> PolicyCategory.NONE ->
          scoring_chain_ainvoke env content (PolicyCategory.value category) reasoning
            = Raise e ->
          confidence = 0%Q /\ factors = "Scoring error: " +:+ str_exc e)
    /\ (forall reply, category <> PolicyCategory.NONE ->
          scoring_chain_ainvoke env content (PolicyCategory.value category) reasoning
            = Return reply ->
          factors = default "" (reply_factors reply)
          /\ ((default 0%Q (reply_confidence reply) < 0)%Q -> confidence = 0%Q)
          /\ ((1 < default 0%Q (reply_confidence reply))%Q -> confidence = 1%Q)
          /\ ((0 <= default 0%Q (reply_confidence reply))%Q ->
              (default 0%Q (reply_confidence reply) <= 1)%Q ->
              (confidence == default 0%Q (reply_confidence reply))%Q)).
Proof.
  unfold score.
  destruct (PolicyCategory.eqb category PolicyCategory.NONE) eqn:Hc.
  - eexists _, _, _. split; [reflexivity|]. split; [done|]. split; [done|].
    split; [by rewrite app_nil_r|].
    split; intros ? Hne; destruct category; done.
  - unfold call_scoring_chain. run.
    destruct (scoring_chain_ainvoke env content (PolicyCategory.value category) reasoning)
      as [reply|e].
    + destruct (clamp_unit (default 0%Q (reply_confidence reply))) as (H0 & H1 & H2 & H3 & H4).
      eexists _, _, _. split; [reflexivity|]. split; [exact H0|]. split; [exact H1|].
      split; [reflexivity|].
      split; [intros ? _ [=]|].
      intros reply' _ [= <-]. done.
    + eexists _, _, _. split; [reflexivity|]. split; [done|]. split; [done|].
      split; [reflexivity|].
      split; [by intros ? _ [= <-]|]. intros ? _ [=].
Qed.

(** ** The executor and the whole pipeline *)

(** What [execute] leaves on a confidence within the unit interval. *)
Lemma execute_run env sts input_data category confidence action policy_id reasoning w :
  (0 <= confidence)%Q -> (confidence <= 1)%Q ->
  exists w' d,
    execute env sts input_data category confidence action policy_id reasoning w
      = (Return (length (decision_objs w)), w')
    /\ decision_objs w' !! length (decision_objs w) = Some d
    /\ dict_get ("dec-" +:+ hex12 (st_decision sts)) (decisions_store w')
       = Some (length (decision_objs w))
    /\ d = ModerationDecision.mk
             ("dec-" +:+ hex12 (st_decision sts))
             (ModerationInput.room_id input_data)
             (ModerationInput.participant_id input_data)
             (ModerationInput.participant_identity input_data)
             (ModerationInput.content input_data)
             (ModerationInput.content_type input_data)
             category confidence action
             (if ModerationAction.eqb action ModerationAction.NONE
              then ModerationStatus.PENDING else ModerationStatus.EXECUTED)
             policy_id (utcnow (st_decision sts)) (Some reasoning)
             (ModerationInput.metadata input_data)
    /\ policy_objs w' = policy_objs w
    /\ policies_store w' = policies_store w
    /\ exists appended,
         audit_store w' = audit_store w ++ appended
         /\ length appended
            = (if ModerationAction.eqb action ModerationAction.NONE then 1 else 2)
         /\ Forall (fun e => AuditLogEntry.decision_id e
                             = Some ("dec-" +:+ hex12 (st_decision sts))
                             /\ AuditLogEntry.actor e = AuditActor.AI) appended.
Proof.
  intros H0 H1. unfold execute, ModerationDecision_new, fle.
  apply Qle_bool_iff in H0, H1. rewrite H0, H1.
  destruct action; run; eexists _, _; (split; [reflexivity|]);
    cbn -[String.append]; heap_simpl; cbn -[String.append]; heap_simpl;
    do 5 (split; [reflexivity|]);
    eexists; (split; [rewrite <- ?app_assoc; reflexivity|]);
    (split; [reflexivity|]); repeat constructor.
Qed.

(** X14. [execute] checks the confidence before it writes: on a confidence
    outside the unit interval it raises a validation error and leaves the
    world as it is, and [action_node] turns the failure into the [error] of
    the state, with no decision and every other field as it was.  (The text
    of the error is pydantic's; what it says is not part of the statement.) *)
Theorem execute_validates_before_writing env sts input_data category confidence action
    policy_id reasoning state w :
  (confidence < 0)%Q \/ (1 < confidence)%Q ->
  exists detail,
    execute env sts input_data category confidence action policy_id reasoning w
      = (Raise (ValidationError detail), w)
    /\ (ModerationState.category state = Some category ->
        ModerationState.confidence state = Some confidence ->
        ModerationState.action state = Some action ->
        exists text,
          action_node env sts state w
          = (Return (ModerationState.mk
                       (ModerationState.input state)
                       (ModerationState.category state)
                       (ModerationState.classification_reasoning state)
                       (ModerationState.confidence state)
                       (ModerationState.scoring_factors state)
                       (ModerationState.action state)
                       (ModerationState.policy_id state)
                       (ModerationState.decision state)
                       (Some text)), w)).
Proof.
  intros Hout.
  assert (Hr : fle 0%Q confidence && fle confidence 1%Q = false).
  { unfold fle. destruct Hout as [H|H].
    - destruct (Qle_bool 0 confidence) eqn:E; [|done].
      apply Qle_bool_iff in E. exfalso. by apply (Qlt_not_le _ _ H).
    - destruct (Qle_bool confidence 1) eqn:E; [|by rewrite andb_false_r].
      apply Qle_bool_iff in E. exfalso. by apply (Qlt_not_le _ _ H). }
  assert (He : forall input_data policy_id reasoning,
            execute env sts input_data category confidence action policy_id reasoning w
            = (Raise (ValidationError "confidence_score"), w)).
  { intros. unfold execute, ModerationDecision_new. rewrite Hr. reflexivity. }
  eexists. split; [apply He|].
  intros Hc Hq Ha. unfold action_node, try_except, bind. rewrite Hc, Hq, Ha, He.
  eexists. reflexivity.
Qed.

Lemma execute_validates_before_writing_witness :
  exists detail,
    execute env_spam stamps_1 input_1 PolicyCategory.SPAM (3#2) ModerationAction.WARN
      (Some "policy-spam") "promotional" (started_world 0)
    = (Raise (ValidationError detail), started_world 0).
Proof.
  destruct (execute_validates_before_writing env_spam stamps_1 input_1 PolicyCategory.SPAM
              (3#2) ModerationAction.WARN (Some "policy-spam") "promotional"
              (initial_state input_1) (started_world 0)) as (detail & Hrun & _).
  - right. reflexivity.
  - exists detail. exact Hrun.
Defined.

Lemma classify_node_returns env state w :
  exists s1 w1 category,
    classify_node env state w = (Return s1, w1)
    /\ ModerationState.input s1 = ModerationState.input state
    /\ ModerationState.category s1 = Some category.
Proof.
  unfold classify_node, call_classifier. run.
  destruct (classifier_classify env _) as [[category reasoning]|e];
    eexists _, _, _; (split; [reflexivity|]); split; reflexivity.
Qed.

Lemma score_node_returns env state w category :
  ModerationState.category state = Some category ->
  exists s2 w2 confidence,
    score_node env state w = (Return s2, w2)
    /\ ModerationState.input s2 = ModerationState.input state
    /\ ModerationState.category s2 = Some category
    /\ ModerationState.confidence s2 = Some confidence
    /\ (0 <= confidence)%Q /\ (confidence <= 1)%Q.
Proof.
  intros Hc. unfold score_node, try_except, bind. rewrite Hc.
  destruct (score_returns env
              (ModerationInput.content (ModerationState.input state)) category
              (or_empty (ModerationState.classification_reasoning state)) w)
    as (q & f & w' & -> & H0 & H1).
  eexists _, _, _. split; [reflexivity|]. cbn. done.
Qed.

Lemma decide_node_returns state w :
  exists s3 w3 action,
    decide_node state w = (Return s3, w3)
    /\ ModerationState.input s3 = ModerationState.input state
    /\ ModerationState.category s3 = ModerationState.category state
    /\ ModerationState.confidence s3 = ModerationState.confidence state
    /\ ModerationState.action s3 = Some action.
Proof.
  unfold decide_node, try_except, bind.
  destruct (match ModerationState.category state, ModerationState.confidence state with
            | Some category, Some confidence => decide category confidence
            | Some category, None => decide_without_confidence category
            | None, _ => decide_without_category
            end w) as [[[action policy_id]|e] w'];
    eexists _, _, _; (split; [reflexivity|]); repeat split.
Qed.

(** X15. The pipeline always returns a decision, whatever the classifier and
    the scoring chain answer or raise and whatever the registry holds: the
    decision is stored under the identifier drawn for it, [get_decision]
    returns it, it carries the fields of the input and a confidence between
    0 and 1, it is pending when its action is none and executed otherwise,
    and the policies are what they were.  The run appends one audit entry
    when the action is none and two otherwise, all for this decision and by
    the actor ai. *)
Theorem pipeline_always_records_a_decision env sts input_data w :
  exists decision w' d,
    moderate_content env sts input_data w = (Return (Some decision), w')
    /\ decision_objs w' !! decision = Some d
    /\ ModerationDecision.decision_id d = "dec-" +:+ hex12 (st_decision sts)
    /\ get_decision (ModerationDecision.decision_id d) w' = (Return d, w')
    /\ ModerationDecision.room_id d = ModerationInput.room_id input_data
    /\ ModerationDecision.participant_id d = ModerationInput.participant_id input_data
    /\ ModerationDecision.participant_identity d
       = ModerationInput.participant_identity input_data
    /\ ModerationDecision.content d = ModerationInput.content input_data
    /\ ModerationDecision.content_type d = ModerationInput.content_type input_data
    /\ (0 <= ModerationDecision.confidence_score d)%Q
    /\ (ModerationDecision.confidence_score d <= 1)%Q
    /\ ModerationDecision.status d
       = (if ModerationAction.eqb (ModerationDecision.action d) ModerationAction.NONE
          then ModerationStatus.PENDING else ModerationStatus.EXECUTED)
    /\ policy_objs w' = policy_objs w
    /\ policies_store w' = policies_store w
    /\ exists appended,
         audit_store w' = audit_store w ++ appended
         /\ length appended
            = (if ModerationAction.eqb (ModerationDecision.action d) ModerationAction.NONE
               then 1 else 2)
         /\ Forall (fun e => AuditLogEntry.decision_id e
                             = Some (ModerationDecision.decision_id d)
                             /\ AuditLogEntry.actor e = AuditActor.AI) appended.
Proof.
  unfold moderate_content, pipeline_ainvoke.
  destruct (classify_node_returns env (initial_state input_data) w)
    as (s1 & w1 & category & Hrun1 & Hin1 & Hc1).
  pose proof (untouched_classify_node env (initial_state input_data) w) as U1.
  rewrite Hrun1 in U1. cbn [snd] in U1.
  destruct (score_node_returns env s1 w1 category Hc1)
    as (s2 & w2 & confidence & Hrun2 & Hin2 & Hc2 & Hq2 & H0 & H1).
  pose proof (untouched_score_node env s1 w1) as U2.
  rewrite Hrun2 in U2. cbn [snd] in U2.
  destruct (decide_node_returns s2 w2) as (s3 & w3 & action & Hrun3 & Hin3 & Hc3 & Hq3 & Ha3).
  pose proof (untouched_decide_node s2 w2) as U3.
  rewrite Hrun3 in U3. cbn [snd] in U3.
  assert (U : stores_untouched w w3) by (etrans; [exact U1|]; etrans; [exact U2|exact U3]).
  destruct U as (Up & Ups & Ud & Uds & Ua).
  destruct (execute_run env sts (ModerationState.input s3) category confidence action
              (ModerationState.policy_id s3) (full_reasoning s3) w3 H0 H1)
    as (w' & d & Hex & Hd & Hk & Hdeq & Hp & Hps & appended & Happ & Hlen & Hall).
  assert (Hinput : ModerationState.input s3 = input_data).
  { rewrite Hin3, Hin2, Hin1. reflexivity. }
  exists (length (decision_objs w3)), w', d.
  split.
  { unfold bind. rewrite Hrun1, Hrun2, Hrun3.
    unfold action_node, try_except, bind.
    rewrite Hc3, Hc2, Hq3, Hq2, Ha3, Hex. reflexivity. }
  split; [exact Hd|].
  assert (Hid : ModerationDecision.decision_id d = "dec-" +:+ hex12 (st_decision sts))
    by (rewrite Hdeq; reflexivity).
  split; [exact Hid|].
  split.
  { unfold get_decision, bind, decisions_store_get. rewrite Hid, Hk.
    unfold decision_obj.
    assert (Hm : forall o : option ModerationDecision.t, o = Some d ->
              match o with Some d0 => (Return d0, w') | None => dangling w' end
              = (Return d, w')) by (by intros ? ->).
    apply Hm, Hd. }
  rewrite Hinput in Hdeq.
  do 5 (split; [rewrite Hdeq; reflexivity|]).
  split; [rewrite Hdeq; exact H0|]. split; [rewrite Hdeq; exact H1|].
  split; [rewrite Hdeq; reflexivity|].
  split; [congruence|]. split; [congruence|].
  exists appended. split; [by rewrite Happ, Ua|].
  split; [by rewrite Hdeq|]. by rewrite Hid.
Qed.

(** ** The decider *)

Lemma fge_mono c1 c2 t : (c1 <= c2)%Q -> fge c1 t = true -> fge c2 t = true.
Proof.
  intros Hc H. apply Qle_bool_iff in H. apply Qle_bool_iff. by eapply Qle_trans.
Qed.

(** X16. A higher confidence never gives a milder action: when [decide]
    returns for two confidences in the same world, the action for the higher
    one is at least as severe, the policy named is the same, and so is the
    world left. *)
Theorem decide_is_monotone category c1 c2 w a1 p1 w1 a2 p2 w2 :
  (c1 <= c2)%Q ->
  decide category c1 w = (Return (a1, p1), w1) ->
  decide category c2 w = (Return (a2, p2), w2) ->
  severity a1 <= severity a2 /\ p1 = p2 /\ w1 = w2.
Proof.
  intros Hc. unfold decide.
  destruct (PolicyCategory.eqb category PolicyCategory.NONE).
  { intros [= <- <- <-] [= <- <- <-]. done. }
  unfold bind at 1 3.
  destruct (_get_policy_for_category category w) as [[[policy|]|e] w'].
  - unfold bind, policy_obj. destruct (policy_objs w' !! policy) as [p|].
    + destruct (negb (Policy.enabled p)).
      { intros [= <- <- <-] [= <- <- <-]. done. }
      destruct (fge c1 (Policy.flag_threshold p)) eqn:F1.
      { rewrite (fge_mono _ _ _ Hc F1). intros [= <- <- <-] [= <- <- <-]. done. }
      destruct (fge c1 (Policy.mute_threshold p)) eqn:M1.
      { rewrite (fge_mono _ _ _ Hc M1).
        destruct (fge c2 (Policy.flag_threshold p));
          intros [= <- <- <-] [= <- <- <-]; simpl; repeat split; lia. }
      destruct (fge c1 (Policy.warn_threshold p)) eqn:W1.
      { rewrite (fge_mono _ _ _ Hc W1).
        destruct (fge c2 (Policy.flag_threshold p)), (fge c2 (Policy.mute_threshold p));
          intros [= <- <- <-] [= <- <- <-]; simpl; repeat split; lia. }
      destruct (fge c2 (Policy.flag_threshold p)), (fge c2 (Policy.mute_threshold p)),
        (fge c2 (Policy.warn_threshold p));
        intros [= <- <- <-] [= <- <- <-]; simpl; repeat split; lia.
    + discriminate.
  - intros [= <- <- <-] [= <- <- <-]. done.
  - discriminate.
Qed.

Lemma decide_is_monotone_witness :
  fst (decide PolicyCategory.SPAM (65#100) (started_world 0))
    = Return (ModerationAction.WARN, Some "policy-spam")
  /\ fst (decide PolicyCategory.SPAM (85#100) (started_world 0))
     = Return (ModerationAction.MUTE, Some "policy-spam")
  /\ severity ModerationAction.WARN <= severity ModerationAction.MUTE.
Proof.
  split; [reflexivity|]. split; [reflexivity|].
  eapply (decide_is_monotone PolicyCategory.SPAM (65#100) (85#100) (started_world 0)).
  - discriminate.
  - vm_compute. reflexivity.
  - vm_compute. reflexivity.
Defined.

(** ** The classifier *)

Lemma str_lower_value_truthy s c :
  str_lower s = PolicyCategory.value c -> truthy_str s = true.
Proof. destruct s; [by destruct c|done]. Qed.

Lemma category_map_value c :
  dict_get (PolicyCategory.value c) category_map = Some c.
Proof. by destruct c. Qed.

Lemma category_map_inv s c :
  dict_get s category_map = Some c -> s = PolicyCategory.value c.
Proof.
  unfold category_map. cbn [dict_get].
  repeat match goal with
         | |- context [String.eqb ?a s] => destruct (String.eqb_spec a s) as [<-|?]
         end; (intros [= <-] || intros [=]); reflexivity.
Qed.

(** X17. [ContentClassifier.classify] never raises.  A failure of its chain
    and an answer that is not a dict both give the category none, the first
    with the rationale "Classification error: " followed by the failure; a
    dict gives the category whose value is the answer's [category] in lower
    case, and none when there is no such category or the [category] is
    missing or empty. *)
Theorem classify_never_raises chain content :
  exists category reasoning,
    ContentClassifier_classify chain content = Return (category, reasoning)
    /\ (forall e, chain content = Raise e ->
          category = PolicyCategory.NONE
          /\ reasoning = "Classification error: " +:+ str_exc e)
    /\ (forall type_repr, chain content = Return (ReplyOther type_repr) ->
          category = PolicyCategory.NONE)
    /\ (forall s r c, chain content = Return (ReplyDict (Some s) r) ->
          str_lower s = PolicyCategory.value c -> category = c /\ reasoning = default "" r)
    /\ (forall s r, chain content = Return (ReplyDict (Some s) r) ->
          (forall c, str_lower s <> PolicyCategory.value c) ->
          category = PolicyCategory.NONE)
    /\ (forall r, chain content = Return (ReplyDict None r) ->
          category = PolicyCategory.NONE).
Proof.
  unfold ContentClassifier_classify.
  destruct (chain content) as [[type_repr|category reasoning]|e].
  - eexists _, _. split; [reflexivity|]. repeat split; intros; done.
  - eexists _, _. split; [reflexivity|].
    split; [intros ? [=]|]. split; [intros ? [=]|].
    split; [|split].
    + intros s r c [= -> ->] Hs. cbn [from_option id].
      rewrite (str_lower_value_truthy _ _ Hs), Hs, category_map_value. done.
    + intros s r [= -> ->] Hs. cbn [from_option id].
      destruct (truthy_str s); [|done].
      destruct (dict_get (str_lower s) category_map) as [c|] eqn:E; [|done].
      apply category_map_inv in E. by destruct (Hs c).
    + intros r [= -> ->]. done.
  - eexists _, _. split; [reflexivity|].
    split; [by intros ? [= <-]|]. repeat split; intros; done.
Qed.

(** X18. In the running application a failure of the classifier's chain does
    not reach [classify_node] as an exception: the stage leaves the [error]
    of the state as it was, and the run ends with a stored decision of
    classification none, action none and confidence 0 whose reasoning quotes
    the failure, and with no [error] in the final state. *)
Theorem classifier_failure_is_not_flagged classifier_chain scoring_chain format_2f sts
    input_data w e :
  classifier_chain (ModerationInput.content input_data) = Raise e ->
  let env := app_env classifier_chain scoring_chain format_2f in
  exists s1 w1 state w' decision d,
    classify_node env (initial_state input_data) w = (Return s1, w1)
    /\ ModerationState.error s1 = None
    /\ ModerationState.category s1 = Some PolicyCategory.NONE
    /\ pipeline_ainvoke env sts (initial_state input_data) w = (Return state, w')
    /\ ModerationState.error state = None
    /\ ModerationState.decision state = Some decision
    /\ decision_objs w' !! decision = Some d
    /\ ModerationDecision.classification d = PolicyCategory.NONE
    /\ ModerationDecision.action d = ModerationAction.NONE
    /\ ModerationDecision.confidence_score d = 0%Q
    /\ ModerationDecision.reasoning d
       = Some ("Classification: Classification error: " +:+ str_exc e
               +:+ " | Scoring: No violation detected").
Proof.
  intros Hc env. subst env.
  eexists _, _, _, _, _, _.
  split.
  { unfold classify_node, call_classifier, app_env, ContentClassifier_classify.
    run. rewrite Hc. reflexivity. }
  do 2 (split; [reflexivity|]).
  split.
  { unfold pipeline_ainvoke, classify_node, call_classifier, app_env,
      ContentClassifier_classify.
    run. rewrite Hc.
    unfold score_node, score, decide_node, decide, action_node, execute,
      ModerationDecision_new.
    run. change (fle 0%Q 0%Q && fle 0%Q 1%Q) with true. run. reflexivity. }
  do 2 (split; [reflexivity|]).
  split; [cbn; heap_simpl; reflexivity|].
  do 3 (split; [reflexivity|]).
  reflexivity.
Qed.

Lemma classifier_failure_is_not_flagged_witness :
  exists state w',
    pipeline_ainvoke env_llm_down stamps_1 (initial_state input_1) (started_world 0)
      = (Return state, w')
    /\ ModerationState.error state = None.
Proof.
  destruct (classifier_failure_is_not_flagged
              (fun _ => Raise (Exception "connection refused"))
              (fun _ _ _ => Raise (Exception "connection refused"))
              (fun _ => "0.00") stamps_1 input_1 (started_world 0)
              (Exception "connection refused") eq_refl)
    as (s1 & w1 & state & w' & decision & d & _ & _ & _ & Hrun & Herr & _).
  exists state, w'. split; [exact Hrun | exact Herr].
Defined.

(** ** Identifiers that are not stored *)

(** X19. An identifier that no store knows: the three lookups, review,
    overturn, update and toggle all raise 404, with the detail of their
    store, and leave the world as it is. *)
Theorem unknown_id_is_404 key st now approved notes reason update w :
  dict_get key (decisions_store w) = None ->
  dict_get key (policies_store w) = None ->
  Forall (fun e => AuditLogEntry.audit_id e <> key) (audit_store w) ->
  get_decision key w = (Raise (HTTPException 404 "Decision not found"), w)
  /\ review_decision st key approved notes w
     = (Raise (HTTPException 404 "Decision not found"), w)
  /\ overturn_decision st key reason w
     = (Raise (HTTPException 404 "Decision not found"), w)
  /\ get_policy key w = (Raise (HTTPException 404 "Policy not found"), w)
  /\ update_policy now st key update w = (Raise (HTTPException 404 "Policy not found"), w)
  /\ toggle_policy now st key w = (Raise (HTTPException 404 "Policy not found"), w)
  /\ get_audit_entry key w = (Raise (HTTPException 404 "Audit entry not found"), w).
Proof.
  intros Hd Hp Ha.
  split; [unfold get_decision; run; by rewrite Hd|].
  split; [unfold review_decision; run; by rewrite Hd|].
  split; [unfold overturn_decision; run; by rewrite Hd|].
  split; [unfold get_policy; run; by rewrite Hp|].
  split; [unfold update_policy; run; by rewrite Hp|].
  split; [unfold toggle_policy; run; by rewrite Hp|].
  unfold get_audit_entry. induction Ha as [|e entries He _ IH]; simpl; [done|].
  destruct (String.eqb_spec (AuditLogEntry.audit_id e) key); [done|exact IH].
Qed.

Lemma unknown_id_is_404_witness :
  overturn_decision (stamp "0000000000a3" 20) "nope" "appeal" (snd run_1)
  = (Raise (HTTPException 404 "Decision not found"), snd run_1).
Proof.
  apply (unknown_id_is_404 "nope" (stamp "0000000000a3" 20) 0 true None "appeal"
           empty_update (snd run_1)).
  - reflexivity.
  - reflexivity.
  - repeat constructor; discriminate.
Defined.

(** ** Review and overturn, composed *)

Lemma stored_after_setattr w r d key f entries :
  dict_get key (decisions_store w) = Some r ->
  decision_objs w !! r = Some d ->
  stored_decision
    (with_audit_store entries (with_decision_objs (<[r := f d]> (decision_objs w)) w)) key
  = Some (f d).
Proof.
  intros Hk Hr. unfold stored_decision. cbn. rewrite Hk. cbn.
  by eapply heap_write_lookup.
Qed.

(** X20. [review_decision] accepts a stored decision whatever its status and
    whatever [approved] says: it returns, leaves the decision reviewed with
    its other fields as they were, and appends one [decision_reviewed] entry
    for it, by the admin.  It can be repeated: a second review returns as
    well and appends a second entry. *)
Theorem review_accepts_any_status st1 st2 decision_id approved1 approved2 notes1 notes2 w d :
  stored_decision w decision_id = Some d ->
  exists response w1 e response2 w2,
    review_decision st1 decision_id approved1 notes1 w = (Return response, w1)
    /\ response = JObj [ ("status", JStr "success"); ("decision_id", JStr decision_id);
                         ("new_status", JStr "reviewed") ]
    /\ stored_decision w1 decision_id
       = Some (ModerationDecision.set_status ModerationStatus.REVIEWED d)
    /\ audit_store w1 = audit_store w ++ [e]
    /\ AuditLogEntry.action_type e = AuditActionType.DECISION_REVIEWED
    /\ AuditLogEntry.actor e = AuditActor.ADMIN
    /\ AuditLogEntry.decision_id e = Some decision_id
    /\ review_decision st2 decision_id approved2 notes2 w1 = (Return response2, w2)
    /\ length (audit_store w2) = 2 + length (audit_store w).
Proof.
  intros (r & Hk & Hr)%stored_decision_inv.
  eexists _, _, _, _, _.
  split; [by apply review_run|]. split; [reflexivity|].
  split; [by apply stored_after_setattr|].
  do 4 (split; [reflexivity|]).
  split.
  - apply review_run; [exact Hk|]. cbn. by eapply heap_write_lookup.
  - cbn. rewrite !length_app. simpl. lia.
Qed.

Lemma review_accepts_any_status_witness :
  exists response w1,
    review_decision (stamp "0000000000a4" 21) "dec-0000000000d1" false None (snd run_1)
      = (Return response, w1)
    /\ stored_decision w1 "dec-0000000000d1"
       = Some (ModerationDecision.set_status ModerationStatus.REVIEWED decision_1).
Proof.
  destruct (review_accepts_any_status (stamp "0000000000a4" 21) (stamp "0000000000a5" 22)
              "dec-0000000000d1" false true None None (snd run_1) decision_1 eq_refl)
    as (response & w1 & e & response2 & w2 & Hrun & _ & Hst & _).
  exists response, w1. split; [exact Hrun | exact Hst].
Defined.

Lemma count_entries_app did kind (xs ys : list AuditLogEntry.t) :
  count_entries did kind (xs ++ ys) = count_entries did kind xs + count_entries did kind ys.
Proof. unfold count_entries. by rewrite List.filter_app, length_app. Qed.

(** X21. The guard of [overturn_decision] only looks at the present status:
    after an overturn, a review makes the decision reviewed again and a
    second overturn is accepted, so the ledger then holds two
    [decision_overturned] entries more for the decision than before. *)
Theorem review_reopens_overturn st1 st2 st3 decision_id reason1 reason2 approved notes w d :
  stored_decision w decision_id = Some d ->
  ModerationDecision.status d <> ModerationStatus.OVERTURNED ->
  exists r1 w1 r2 w2 r3 w3,
    overturn_decision st1 decision_id reason1 w = (Return r1, w1)
    /\ review_decision st2 decision_id approved notes w1 = (Return r2, w2)
    /\ overturn_decision st3 decision_id reason2 w2 = (Return r3, w3)
    /\ stored_decision w3 decision_id
       = Some (ModerationDecision.set_status ModerationStatus.OVERTURNED d)
    /\ count_entries decision_id (AuditActionType.eqb AuditActionType.DECISION_OVERTURNED)
         (audit_store w3)
       = 2 + count_entries decision_id
               (AuditActionType.eqb AuditActionType.DECISION_OVERTURNED) (audit_store w).
Proof.
  intros (r & Hk & Hr)%stored_decision_inv Hs.
  assert (Hlen : r < length (decision_objs w)) by by eapply lookup_lt_Some.
  eexists _, _, _, _, _, _.
  split; [by apply overturn_run|].
  split.
  { apply review_run; [exact Hk|]. cbn. by eapply heap_write_lookup. }
  split.
  { apply overturn_run; [exact Hk| |].
    - cbn. rewrite list_lookup_insert_eq; [reflexivity|by rewrite length_insert].
    - discriminate. }
  split.
  { unfold stored_decision. cbn. rewrite Hk. cbn.
    rewrite list_lookup_insert_eq by (by rewrite !length_insert).
    by destruct d. }
  cbn [audit_store with_audit_store with_decision_objs]. rewrite !count_entries_app.
  set (n := count_entries decision_id
              (AuditActionType.eqb AuditActionType.DECISION_OVERTURNED) (audit_store w)).
  unfold count_entries, entry_of. cbn.
  rewrite !bool_decide_eq_true_2 by reflexivity. cbn. lia.
Qed.

Lemma review_reopens_overturn_witness :
  exists r3 w3,
    overturn_decision (stamp "0000000000a5" 22) "dec-0000000000d1" "again"
      (run_ops ops_1 (snd run_1)) = (Return r3, w3)
    /\ count_entries "dec-0000000000d1"
         (AuditActionType.eqb AuditActionType.DECISION_OVERTURNED) (audit_store w3) = 2.
Proof.
  destruct (review_reopens_overturn (stamp "0000000000a3" 20) (stamp "0000000000a4" 21)
              (stamp "0000000000a5" 22) "dec-0000000000d1" "appeal" "again" true None
              (snd run_1) decision_1 eq_refl)
    as (r1 & w1 & r2 & w2 & r3 & w3 & H1 & H2 & H3 & _ & Hcount); [discriminate|].
  exists r3, w3.
  assert (Hw2 : run_ops ops_1 (snd run_1) = w2).
  { unfold ops_1, run_ops, run_op. rewrite H1. cbn [snd]. rewrite H2. reflexivity. }
  rewrite Hw2. split; [exact H3 | exact Hcount].
Defined.

(** ** Policies *)

Lemma stored_policy_after_write w r p key q entries :
  dict_get key (policies_store w) = Some r ->
  policy_objs w !! r = Some p ->
  stored_policy (with_audit_store entries (with_policy_objs (<[r := q]> (policy_objs w)) w)) key
  = Some q.
Proof.
  intros Hk Hr. unfold stored_policy. cbn. rewrite Hk. cbn.
  by eapply heap_write_lookup.
Qed.

Lemma get_policy_stored w key p : stored_policy w key = Some p -> get_policy key w = (Return p, w).
Proof.
  intros (r & Hk & Hr)%stored_policy_inv. unfold get_policy. run. rewrite Hk. run.
  by rewrite Hr.
Qed.

(** X22. An update whose merged thresholds are in order returns the stored
    policy: each supplied field has the value supplied and every other field
    the value it had, the identifier, the category and the creation time are
    unchanged, [updated_at] is the clock of the call, and [get_policy] reads
    the same policy back. *)
Theorem accepted_update_is_read_back now st policy_id update w p :
  stored_policy w policy_id = Some p ->
  thresholds_ordered (merged p update) = true ->
  exists p' w',
    update_policy now st policy_id update w = (Return p', w')
    /\ get_policy policy_id w' = (Return p', w')
    /\ thresholds_ordered p' = true
    /\ Policy.name p' = default (Policy.name p) (PolicyUpdate.name update)
    /\ Policy.description p' = default (Policy.description p) (PolicyUpdate.description update)
    /\ Policy.warn_threshold p'
       = default (Policy.warn_threshold p) (PolicyUpdate.warn_threshold update)
    /\ Policy.mute_threshold p'
       = default (Policy.mute_threshold p) (PolicyUpdate.mute_threshold update)
    /\ Policy.flag_threshold p'
       = default (Policy.flag_threshold p) (PolicyUpdate.flag_threshold update)
    /\ Policy.enabled p' = default (Policy.enabled p) (PolicyUpdate.enabled update)
    /\ Policy.policy_id p' = Policy.policy_id p
    /\ Policy.category p' = Policy.category p
    /\ Policy.created_at p' = Policy.created_at p
    /\ Policy.updated_at p' = now.
Proof.
  intros Hst Hord. destruct (stored_policy_inv _ _ _ Hst) as (r & Hk & Hr).
  rewrite (update_policy_run _ _ _ _ _ _ _ Hk Hr), Hord.
  eexists _, _. split; [reflexivity|].
  split; [apply get_policy_stored; by eapply stored_policy_after_write|].
  split; [exact Hord|].
  destruct update as [[n|] [de|] [wt|] [mt|] [ft|] [en|]]; repeat split.
Qed.

Lemma accepted_update_is_read_back_witness :
  exists p' w',
    update_policy 7 (stamp "0000000000a6" 7) "policy-spam" rename_update (started_world 0)
      = (Return p', w')
    /\ Policy.name p' = "Junk"
    /\ Policy.warn_threshold p' = (6#10)%Q.
Proof.
  destruct (accepted_update_is_read_back 7 (stamp "0000000000a6" 7) "policy-spam"
              rename_update (started_world 0) (policy_spam 0) eq_refl eq_refl)
    as (p' & w' & Hrun & _ & _ & Hname & _ & Hwarn & _).
  exists p', w'. split; [exact Hrun|]. split; [exact Hname | exact Hwarn].
Defined.

Lemma merged_no_thresholds p u :
  PolicyUpdate.warn_threshold u = None ->
  PolicyUpdate.mute_threshold u = None ->
  PolicyUpdate.flag_threshold u = None ->
  thresholds_ordered (merged p u) = thresholds_ordered p.
Proof.
  destruct u as [[n|] [de|] wt mt ft [en|]]; simpl; intros -> -> ->; reflexivity.
Qed.

(** X23. An update whose merged thresholds are out of order is rejected with
    400 and appends nothing, but is not rolled back: [get_policy] then reads
    the merged policy, with its [updated_at] unchanged, and every later
    update that supplies no threshold is rejected in turn, whatever else it
    supplies. *)
Theorem rejected_update_is_not_rolled_back now st policy_id update w p :
  stored_policy w policy_id = Some p ->
  thresholds_ordered (merged p update) = false ->
  exists w',
    update_policy now st policy_id update w = (Raise InvalidThresholds, w')
    /\ audit_store w' = audit_store w
    /\ policies_store w' = policies_store w
    /\ get_policy policy_id w' = (Return (merged p update), w')
    /\ Policy.updated_at (merged p update) = Policy.updated_at p
    /\ (forall now2 st2 update2,
          PolicyUpdate.warn_threshold update2 = None ->
          PolicyUpdate.mute_threshold update2 = None ->
          PolicyUpdate.flag_threshold update2 = None ->
          fst (update_policy now2 st2 policy_id update2 w') = Raise InvalidThresholds).
Proof.
  intros Hst Hbad. destruct (stored_policy_inv _ _ _ Hst) as (r & Hk & Hr).
  rewrite (update_policy_run _ _ _ _ _ _ _ Hk Hr), Hbad.
  eexists. split; [reflexivity|]. do 2 (split; [reflexivity|]).
  assert (Hst' : stored_policy (with_policy_objs (<[r := merged p update]> (policy_objs w)) w)
                   policy_id = Some (merged p update)).
  { unfold stored_policy. cbn. rewrite Hk. cbn. by eapply heap_write_lookup. }
  split; [by apply get_policy_stored|].
  split; [by destruct update as [[n|] [de|] [wt|] [mt|] [ft|] [en|]]|].
  intros now2 st2 update2 H1 H2 H3.
  destruct (stored_policy_inv _ _ _ Hst') as (r' & Hk' & Hr').
  rewrite (update_policy_run _ _ _ _ _ _ _ Hk' Hr').
  by rewrite merged_no_thresholds, Hbad.
Qed.

Lemma rejected_update_is_not_rolled_back_witness :
  exists w',
    update_policy 5 (stamp "0000000000a5" 5) "policy-harassment" bad_update (started_world 0)
      = (Raise InvalidThresholds, w')
    /\ fst (update_policy 6 (stamp "0000000000a6" 6) "policy-harassment" rename_update w')
       = Raise InvalidThresholds.
Proof.
  destruct (rejected_update_is_not_rolled_back 5 (stamp "0000000000a5" 5)
              "policy-harassment" bad_update (started_world 0)
              (Policy.mk "policy-harassment" "Harassment" PolicyModelCategory.HARASSMENT
                 "Content that harasses, intimidates, or bullies individuals"
                 (5#10) (7#10) (85#100) true 0 0) eq_refl eq_refl)
    as (w' & Hrun & _ & _ & _ & _ & Hlater).
  exists w'. split; [exact Hrun|].
  apply Hlater; reflexivity.
Defined.

(** X24. [toggle_policy] is its own inverse on [enabled]: two toggles leave
    the stored policy as it was but for [updated_at], which is the clock of
    the second; each of the two appends its own audit entry. *)
Theorem toggle_twice_restores now1 st1 now2 st2 policy_id w p :
  stored_policy w policy_id = Some p ->
  exists r1 w1 r2 w2,
    toggle_policy now1 st1 policy_id w = (Return r1, w1)
    /\ stored_policy w1 policy_id
       = Some (Policy.set_updated_at now1 (Policy.set_enabled (negb (Policy.enabled p)) p))
    /\ toggle_policy now2 st2 policy_id w1 = (Return r2, w2)
    /\ stored_policy w2 policy_id = Some (Policy.set_updated_at now2 p)
    /\ length (audit_store w2) = 2 + length (audit_store w)
    /\ decision_objs w2 = decision_objs w
    /\ decisions_store w2 = decisions_store w.
Proof.
  intros (r & Hk & Hr)%stored_policy_inv.
  assert (Hlen : r < length (policy_objs w)) by by eapply lookup_lt_Some.
  eexists _, _, _, _.
  split; [by apply toggle_policy_run|].
  split; [by eapply stored_policy_after_write|].
  split.
  { apply toggle_policy_run; [exact Hk|]. cbn. by eapply heap_write_lookup. }
  split.
  { unfold stored_policy. cbn. rewrite Hk. cbn.
    rewrite list_lookup_insert_eq by (by rewrite !length_insert).
    destruct p as [? ? ? ? ? ? ? []]; reflexivity. }
  split; [cbn; rewrite !length_app; simpl; lia|].
  split; reflexivity.
Qed.

Lemma toggle_twice_restores_witness :
  exists w2,
    snd (toggle_policy 2 (stamp "0000000000a8" 2) "policy-spam"
           (snd (toggle_policy 1 (stamp "0000000000a7" 1) "policy-spam" (started_world 0))))
    = w2
    /\ stored_policy w2 "policy-spam" = Some (Policy.set_updated_at 2 (policy_spam 0)).
Proof.
  destruct (toggle_twice_restores 1 (stamp "0000000000a7" 1) 2 (stamp "0000000000a8" 2)
              "policy-spam" (started_world 0) (policy_spam 0) eq_refl)
    as (r1 & w1 & r2 & w2 & H1 & _ & H2 & Hst & _).
  exists w2. rewrite H1. cbn [snd]. rewrite H2. split; [reflexivity | exact Hst].
Defined.

(** ** The registry through the operations *)

#[local] Instance policies_kept_refl : Reflexive policies_kept.
Proof. intros w. split; [done|]. split; [done|]. intros r p Hr. by exists p. Qed.

#[local] Instance policies_kept_trans : Transitive policies_kept.
Proof.
  intros w1 w2 w3 (A1 & A2 & A3) (B1 & B2 & B3).
  split; [congruence|]. split; [congruence|].
  intros r p Hr.
  destruct (A3 r p Hr) as (p2 & H2 & I2 & C2 & T2).
  destruct (B3 r p2 H2) as (p3 & H3 & I3 & C3 & T3).
  exists p3. repeat split; congruence.
Qed.

Lemma same_policies_kept w w' :
  policy_objs w' = policy_objs w -> policies_store w' = policies_store w ->
  policies_kept w w'.
Proof.
  intros Ho Hs. split; [done|]. split; [by rewrite Ho|].
  intros r p Hr. exists p. by rewrite Ho.
Qed.

Ltac prim_policies := primitive; by apply same_policies_kept.

Lemma policies_emit e : preserves policies_kept (emit e). Proof. prim_policies. Qed.
Lemma policies_decision_obj r : preserves policies_kept (decision_obj r).
Proof. prim_policies. Qed.
Lemma policies_decision_setattr r f : preserves policies_kept (decision_setattr r f).
Proof. prim_policies. Qed.
Lemma policies_decision_new d : preserves policies_kept (decision_new d).
Proof. prim_policies. Qed.
Lemma policies_policy_obj r : preserves policies_kept (policy_obj r).
Proof. prim_policies. Qed.
Lemma policies_decisions_store_get k : preserves policies_kept (decisions_store_get k).
Proof. prim_policies. Qed.
Lemma policies_decisions_store_set k r : preserves policies_kept (decisions_store_set k r).
Proof. prim_policies. Qed.
Lemma policies_policies_store_get_all : preserves policies_kept policies_store_get_all.
Proof. prim_policies. Qed.
Lemma policies_audit_store_append e : preserves policies_kept (audit_store_append e).
Proof. prim_policies. Qed.
Lemma policies_call_classifier env c : preserves policies_kept (call_classifier env c).
Proof. prim_policies. Qed.
Lemma policies_call_scoring_chain env a b c :
  preserves policies_kept (call_scoring_chain env a b c).
Proof. prim_policies. Qed.

#[local] Hint Resolve policies_emit policies_decision_obj policies_decision_setattr
  policies_decision_new policies_policy_obj policies_decisions_store_get
  policies_decisions_store_set policies_policies_store_get_all
  policies_audit_store_append policies_call_classifier policies_call_scoring_chain
  : preserves.

Lemma policies_first_of_category category rs :
  preserves policies_kept (first_of_category category rs).
Proof. induction rs as [|r rs IH]; simpl; preserve. Qed.

Lemma policies_execute env sts input_data category confidence action policy_id reasoning :
  preserves policies_kept
    (execute env sts input_data category confidence action policy_id reasoning).
Proof.
  unfold execute, ModerationDecision_new, _execute_action, _create_audit_entry. preserve.
Qed.

Lemma policies_moderate_content env sts input_data :
  preserves policies_kept (moderate_content env sts input_data).
Proof.
  pose proof policies_first_of_category. pose proof policies_execute.
  unfold moderate_content, pipeline_ainvoke, classify_node, score_node, score, decide_node,
    decide, decide_without_category, decide_without_confidence, _get_policy_for_category,
    action_node.
  preserve.
Qed.

Lemma policies_review st decision_id approved notes :
  preserves policies_kept (review_decision st decision_id approved notes).
Proof. unfold review_decision. preserve. Qed.

Lemma policies_overturn st decision_id reason :
  preserves policies_kept (overturn_decision st decision_id reason).
Proof. unfold overturn_decision. preserve. Qed.

(** A policy object replaced by one with the same identity. *)
Lemma policy_write_kept w w' r p q :
  policy_objs w !! r = Some p ->
  policy_objs w' = <[r := q]> (policy_objs w) ->
  policies_store w' = policies_store w ->
  Policy.policy_id q = Policy.policy_id p ->
  Policy.category q = Policy.category p ->
  Policy.created_at q = Policy.created_at p ->
  policies_kept w w'.
Proof.
  intros Hr Ho Hs Hi Hc Ht. split; [done|]. split; [by rewrite Ho, length_insert|].
  intros r0 p0 Hr0. rewrite Ho. destruct (Nat.eq_dec r0 r) as [->|Hne].
  - exists q. split; [by eapply heap_write_lookup|].
    assert (p0 = p) as -> by congruence. done.
  - exists p0. by rewrite list_lookup_insert_ne.
Qed.

Lemma merged_identity p u :
  Policy.policy_id (merged p u) = Policy.policy_id p
  /\ Policy.category (merged p u) = Policy.category p
  /\ Policy.created_at (merged p u) = Policy.created_at p.
Proof. by destruct u as [[n|] [de|] [wt|] [mt|] [ft|] [en|]]. Qed.

Lemma apply_update_dangling {A} field (new : option A) get set dump r changes w :
  policy_objs w !! r = None ->
  snd (apply_update field new get set dump r changes w) = w.
Proof.
  intros Hr. unfold apply_update. destruct new as [v|]; [|reflexivity].
  unfold bind, policy_obj. by rewrite Hr.
Qed.

Lemma bind_dangling {A B} (c : M A) (k : A -> M B) w :
  snd (c w) = w -> (forall a, snd (k a w) = w) -> snd (bind c k w) = w.
Proof.
  intros Hc Hk. unfold bind. destruct (c w) as [[a|e] w1]; simpl in Hc; subst w1.
  - apply Hk.
  - reflexivity.
Qed.

Lemma update_policy_dangling now st policy_id u w r :
  dict_get policy_id (policies_store w) = Some r ->
  policy_objs w !! r = None ->
  snd (update_policy now st policy_id u w) = w.
Proof.
  intros Hk Hr. unfold update_policy.
  unfold bind at 1. unfold policies_store_get. rewrite Hk.
  do 6 (apply bind_dangling; [by apply apply_update_dangling|intros ?]).
  unfold bind, policy_obj. by rewrite Hr.
Qed.

Lemma update_policy_kept now st policy_id u w :
  policies_kept w (snd (update_policy now st policy_id u w)).
Proof.
  destruct (dict_get policy_id (policies_store w)) as [r|] eqn:Hk.
  - destruct (policy_objs w !! r) as [p|] eqn:Hr.
    + rewrite (update_policy_run _ _ _ _ _ _ _ Hk Hr).
      destruct (merged_identity p u) as (Hi & Hc & Ht).
      destruct (thresholds_ordered (merged p u)); cbn [snd].
      * by eapply (policy_write_kept w _ r p (Policy.set_updated_at now (merged p u))).
      * by eapply (policy_write_kept w _ r p (merged p u)).
    + by rewrite (update_policy_dangling _ _ _ _ _ _ Hk Hr).
  - unfold update_policy. run. rewrite Hk. reflexivity.
Qed.

Lemma toggle_policy_kept now st policy_id w :
  policies_kept w (snd (toggle_policy now st policy_id w)).
Proof.
  destruct (dict_get policy_id (policies_store w)) as [r|] eqn:Hk.
  - destruct (policy_objs w !! r) as [p|] eqn:Hr.
    + rewrite (toggle_policy_run _ _ _ _ _ _ Hk Hr). cbn [snd].
      by eapply (policy_write_kept w _ r p).
    + unfold toggle_policy. run. rewrite Hk. run. rewrite Hr. reflexivity.
  - unfold toggle_policy. run. rewrite Hk. reflexivity.
Qed.

Lemma run_op_policies_kept op w : policies_kept w (run_op op w).
Proof.
  destruct op; simpl.
  - apply policies_moderate_content.
  - apply policies_review.
  - apply policies_overturn.
  - apply update_policy_kept.
  - apply toggle_policy_kept.
Qed.

Lemma run_ops_policies_kept ops w : policies_kept w (run_ops ops w).
Proof.
  revert w. induction ops as [|op ops IH]; intros w; simpl.
  - reflexivity.
  - etrans; [apply run_op_policies_kept | apply IH].
Qed.

(** X25. No run of the operations adds or removes a policy, or changes the
    identifier, the category or the creation time of one: the keys of the
    registry and their order stay, a key that had a policy has one with the
    same three fields, and a key that had none has none. *)
Theorem policies_are_never_added_or_removed ops w key :
  policies_store (run_ops ops w) = policies_store w
  /\ (forall p, stored_policy w key = Some p ->
        exists p', stored_policy (run_ops ops w) key = Some p'
                   /\ Policy.policy_id p' = Policy.policy_id p
                   /\ Policy.category p' = Policy.category p
                   /\ Policy.created_at p' = Policy.created_at p)
  /\ (stored_policy w key = None -> stored_policy (run_ops ops w) key = None).
Proof.
  destruct (run_ops_policies_kept ops w) as (Hs & Hl & Hobjs).
  split; [exact Hs|]. unfold stored_policy. rewrite Hs.
  destruct (dict_get key (policies_store w)) as [r|]; cbn; [|done].
  split.
  - intros p Hr. by apply Hobjs.
  - intros Hr. apply lookup_ge_None. apply lookup_ge_None in Hr. lia.
Qed.

(** X26. After start-up, whatever operations have run, the registry is the
    five seeded policies, in the order of their seeding, each under its
    identifier and with its category: every category but none has exactly
    one policy, so [decide] finds one for it. *)
Theorem started_registry_keeps_its_policies ops now :
  exists ps,
    registry (run_ops ops (started_world now)) = Some ps
    /\ Policy.policy_id <$> ps
       = [ "policy-harassment"; "policy-hate-speech"; "policy-spam"; "policy-violence";
           "policy-adult-content" ]
    /\ Policy.category <$> ps
       = [ PolicyModelCategory.HARASSMENT; PolicyModelCategory.HATE_SPEECH;
           PolicyModelCategory.SPAM; PolicyModelCategory.VIOLENCE;
           PolicyModelCategory.ADULT_CONTENT ]
    /\ (forall p, p ∈ ps ->
          stored_policy (run_ops ops (started_world now)) (Policy.policy_id p) = Some p)
    /\ (forall category, category <> PolicyCategory.NONE ->
          exists p, policy_for category ps = Some p
                    /\ PolicyModelCategory.value (Policy.category p)
                       = PolicyCategory.value category).
Proof.
  destruct (run_ops_policies_kept ops (started_world now)) as (Hs & Hl & Hobjs).
  destruct (Hobjs 0 _ eq_refl) as (p0 & H0 & I0 & C0 & _).
  destruct (Hobjs 1 _ eq_refl) as (p1 & H1 & I1 & C1 & _).
  destruct (Hobjs 2 _ eq_refl) as (p2 & H2 & I2 & C2 & _).
  destruct (Hobjs 3 _ eq_refl) as (p3 & H3 & I3 & C3 & _).
  destruct (Hobjs 4 _ eq_refl) as (p4 & H4 & I4 & C4 & _).
  cbn in I0, I1, I2, I3, I4, C0, C1, C2, C3, C4.
  exists [p0; p1; p2; p3; p4].
  split.
  { unfold registry. rewrite Hs.
    change (dict_values (policies_store (started_world now))) with [0; 1; 2; 3; 4].
    apply mapM_Some. repeat constructor; assumption. }
  split; [cbn; by rewrite I0, I1, I2, I3, I4|].
  split; [cbn; by rewrite C0, C1, C2, C3, C4|].
  split.
  { intros p Hp. unfold stored_policy. rewrite Hs.
    repeat (apply elem_of_cons in Hp as [->|Hp]);
      [rewrite I0 | rewrite I1 | rewrite I2 | rewrite I3 | rewrite I4
      | by apply elem_of_nil in Hp]; assumption. }
  intros category Hne. unfold policy_for. cbn [List.find].
  rewrite C0, C1, C2, C3, C4.
  destruct category; try done; cbn; eexists; (split; [reflexivity|]);
    first [by rewrite C0 | by rewrite C1 | by rewrite C2 | by rewrite C3 | by rewrite C4].
Qed.

(** ** Toggle and decide *)

Lemma decide_disabled w ps category confidence p :
  registry w = Some ps ->
  policy_for category ps = Some p ->
  Policy.enabled p = false ->
  fst (decide category confidence w) = Return (ModerationAction.NONE, None).
Proof.
  intros Hreg Hp Hen. unfold decide.
  destruct (PolicyCategory.eqb category PolicyCategory.NONE); [reflexivity|].
  unfold bind at 1. rewrite get_policy_run.
  destruct (first_of_category_spec category (dict_values (policies_store w)) ps
              (with_trace (trace w ++ [PoliciesGetAll]) w) Hreg) as (o & -> & Ho).
  destruct o as [r|]; [|congruence].
  destruct Ho as (p' & Hr & Hp'). assert (p' = p) as -> by congruence.
  unfold bind, policy_obj. rewrite Hr. by rewrite Hen.
Qed.

Lemma registry_Forall2 (h : list Policy.t) (rs : list ref) ps :
  mapM (fun r => h !! r) rs = Some ps <-> Forall2 (fun r p => h !! r = Some p) rs ps.
Proof. apply mapM_Some. Qed.

(** The registry after a write to the object of the one policy that has a
    category. *)
Lemma policy_for_after_write (h : list Policy.t) rs ps r p q category :
  Forall2 (fun r p => h !! r = Some p) rs ps ->
  NoDup (Policy.category <$> ps) ->
  r ∈ rs ->
  h !! r = Some p ->
  Policy.category q = Policy.category p ->
  String.eqb (PolicyModelCategory.value (Policy.category p)) (PolicyCategory.value category)
    = true ->
  exists ps', Forall2 (fun r0 p0 => <[r := q]> h !! r0 = Some p0) rs ps'
              /\ policy_for category ps' = Some q.
Proof.
  intros HF Hnd Hin Hr Hcq Hcat.
  assert (Hdef : forall rs ps, Forall2 (fun r p => h !! r = Some p) rs ps ->
            exists ps', Forall2 (fun r0 p => <[r := q]> h !! r0 = Some p) rs ps').
  { clear. intros rs ps HF. induction HF as [|r0 p0 rs ps H0 _ [ps' IH]].
    - by exists [].
    - destruct (Nat.eq_dec r0 r) as [->|Hne].
      + exists (q :: ps'). constructor; [by eapply heap_write_lookup|done].
      + exists (p0 :: ps'). constructor; [by rewrite list_lookup_insert_ne|done]. }
  induction HF as [|r0 p0 rs ps H0 HF IH].
  - by apply elem_of_nil in Hin.
  - apply NoDup_cons in Hnd as [Hp0 Hnd]. fold (fmap Policy.category ps) in *.
    destruct (Nat.eq_dec r0 r) as [->|Hne].
    + destruct (Hdef _ _ HF) as [ps' Hps'].
      exists (q :: ps'). split; [constructor; [by eapply heap_write_lookup|done]|].
      unfold policy_for. cbn. by rewrite Hcq, Hcat.
    + apply elem_of_cons in Hin as [->|Hin]; [done|].
      destruct (IH Hnd Hin) as (ps' & Hps' & Hfor).
      exists (p0 :: ps'). split; [constructor; [by rewrite list_lookup_insert_ne|done]|].
      unfold policy_for. cbn.
      destruct (String.eqb_spec (PolicyModelCategory.value (Policy.category p0))
                  (PolicyCategory.value category)) as [E|_]; [|exact Hfor].
      exfalso. apply Hp0.
      assert (Hpin : p ∈ ps).
      { clear -HF Hin Hr. induction HF as [|r1 p1 rs ps H1 _ IH]; [by apply elem_of_nil in Hin|].
        apply elem_of_cons in Hin as [->|Hin].
        - assert (p1 = p) as -> by congruence. apply list_elem_of_here.
        - right. by apply IH. }
      apply String.eqb_eq in Hcat.
      assert (Policy.category p0 = Policy.category p) as ->.
      { destruct (Policy.category p0), (Policy.category p); try done;
          rewrite <- Hcat in E; destruct category; discriminate. }
      by apply list_elem_of_fmap_2.
Qed.

Lemma dict_get_values {T} (d : list (string * T)) k v : dict_get k d = Some v -> v ∈ dict_values d.
Proof.
  induction d as [|[k0 v0] d IH]; simpl; [done|].
  destruct (String.eqb k0 k).
  - intros [= ->]. apply list_elem_of_here.
  - intros H. right. by apply IH.
Qed.

(** X27. Where each category has one policy, disabling the policy of a
    category through [toggle_policy] makes [decide] answer (none, null) for
    that category at every confidence. *)
Theorem disabled_policy_stops_decisions now st policy_id category confidence w ps p :
  registry w = Some ps ->
  NoDup (Policy.category <$> ps) ->
  stored_policy w policy_id = Some p ->
  PolicyModelCategory.value (Policy.category p) = PolicyCategory.value category ->
  Policy.enabled p = true ->
  exists response w1,
    toggle_policy now st policy_id w = (Return response, w1)
    /\ (Policy.enabled <$> stored_policy w1 policy_id) = Some false
    /\ fst (decide category confidence w1) = Return (ModerationAction.NONE, None).
Proof.
  intros Hreg Hnd Hst Hcat Hen.
  destruct (stored_policy_inv _ _ _ Hst) as (r & Hk & Hr).
  rewrite (toggle_policy_run _ _ _ _ _ _ Hk Hr).
  eexists _, _. split; [reflexivity|].
  split.
  { erewrite stored_policy_after_write by done. cbn. by rewrite Hen. }
  apply registry_Forall2 in Hreg.
  destruct (policy_for_after_write (policy_objs w) (dict_values (policies_store w)) ps r p
              (Policy.set_updated_at now (Policy.set_enabled (negb (Policy.enabled p)) p))
              category Hreg Hnd) as (ps' & Hps' & Hfor).
  { by eapply dict_get_values. }
  { exact Hr. }
  { reflexivity. }
  { by apply String.eqb_eq. }
  eapply decide_disabled; [|exact Hfor|].
  - apply registry_Forall2. exact Hps'.
  - cbn. by rewrite Hen.
Qed.

Lemma disabled_policy_stops_decisions_witness :
  fst (decide PolicyCategory.SPAM (95#100) (started_world 0))
    = Return (ModerationAction.FLAG_FOR_REVIEW, Some "policy-spam")
  /\ exists w1,
       snd (toggle_policy 1 (stamp "0000000000a7" 1) "policy-spam" (started_world 0)) = w1
       /\ fst (decide PolicyCategory.SPAM (95#100) w1) = Return (ModerationAction.NONE, None).
Proof.
  split; [reflexivity|].
  destruct (disabled_policy_stops_decisions 1 (stamp "0000000000a7" 1) "policy-spam"
              PolicyCategory.SPAM (95#100) (started_world 0) (default_policies 0)
              (policy_spam 0) eq_refl)
    as (response & w1 & Hrun & _ & Hdec); [|reflexivity|reflexivity|reflexivity|].
  - repeat (apply NoDup_cons; split;
            [intros H; repeat (apply elem_of_cons in H as [H|H]; [discriminate H|]);
             by apply elem_of_nil in H|]).
    apply NoDup_nil_2.
  - exists w1. rewrite Hrun. split; [reflexivity | exact Hdec].
Defined.

(** ** The list of the policies *)

(** X28. After start-up, whatever operations have run, [list_policies]
    answers with the five policies in the alphabetical order of their
    categories: adult content, harassment, hate speech, spam, violence; each
    is the policy stored under its identifier, and the call writes nothing. *)
Theorem list_policies_is_in_category_order ops now :
  exists ps w',
    list_policies (run_ops ops (started_world now)) = (Return ps, w')
    /\ Policy.policy_id <$> ps
       = [ "policy-adult-content"; "policy-harassment"; "policy-hate-speech";
           "policy-spam"; "policy-violence" ]
    /\ (forall p, p ∈ ps ->
          stored_policy (run_ops ops (started_world now)) (Policy.policy_id p) = Some p)
    /\ stores_untouched (run_ops ops (started_world now)) w'.
Proof.
  destruct (run_ops_policies_kept ops (started_world now)) as (Hs & Hl & Hobjs).
  destruct (Hobjs 0 _ eq_refl) as (p0 & H0 & I0 & C0 & _).
  destruct (Hobjs 1 _ eq_refl) as (p1 & H1 & I1 & C1 & _).
  destruct (Hobjs 2 _ eq_refl) as (p2 & H2 & I2 & C2 & _).
  destruct (Hobjs 3 _ eq_refl) as (p3 & H3 & I3 & C3 & _).
  destruct (Hobjs 4 _ eq_refl) as (p4 & H4 & I4 & C4 & _).
  cbn in I0, I1, I2, I3, I4, C0, C1, C2, C3, C4.
  exists [p4; p0; p1; p2; p3]. eexists.
  split.
  { unfold list_policies, policies_store_get_all, bind, emit.
    cbn [policies_store policy_objs with_trace]. unfold ref.
    rewrite Hs.
    change (dict_values (policies_store (started_world now))) with [0; 1; 2; 3; 4].
    assert (Hom : omap (fun r => policy_objs (run_ops ops (started_world now)) !! r)
                    [0; 1; 2; 3; 4] = [p0; p1; p2; p3; p4]).
    { cbn [omap list_omap]. by rewrite H0, H1, H2, H3, H4. }
    rewrite Hom.
    repeat (progress
              (cbn [sort_asc insert_asc PolicyModelCategory.value];
               rewrite ?C0, ?C1, ?C2, ?C3, ?C4;
               cbn [PolicyModelCategory.value];
               repeat match goal with
                      | |- context [String.ltb ?a ?b] =>
                          let v := eval vm_compute in (String.ltb a b) in
                          change (String.ltb a b) with v
                      end;
               cbv iota)).
    reflexivity. }
  split; [cbn; by rewrite I0, I1, I2, I3, I4|].
  split.
  { intros p Hp. unfold stored_policy. rewrite Hs.
    repeat (apply elem_of_cons in Hp as [->|Hp]);
      [rewrite I4 | rewrite I0 | rewrite I1 | rewrite I2 | rewrite I3
      | by apply elem_of_nil in Hp]; assumption. }
  by unfold stores_untouched.
Qed.
